(** * Negotiation core of the LiveKit SFU: transport controller, SDP
      utilities and the dynacast quality aggregator.

    The Go sources embedded here are
      - [pkg/rtc/transport.go]  (PCTransport and the SDP helpers),
      - the dynacast quality file (DynacastQuality).

    Go structs become records, Go enumerations become inductive types,
    methods become functions that take the receiver and return the updated
    receiver together with the calls they made on collaborators. *)

From Stdlib Require Import ZArith Lia Bool Ascii.
From stdpp Require Import gmap strings list fin_maps.

Local Open Scope Z_scope.

(* ===================================================================== *)
(** * Dynacast quality aggregator *)
(* ===================================================================== *)

Module Dynacast.

(** [livekit.VideoQuality] is the protocol's generated enumeration; its
    wire numbering is LOW = 0, MEDIUM = 1, HIGH = 2, OFF = 3 and Go compares
    values of the type by that number. *)
Inductive VideoQuality : Type :=
| VideoQuality_LOW
| VideoQuality_MEDIUM
| VideoQuality_HIGH
| VideoQuality_OFF.

#[global] Instance VideoQuality_eq_dec : EqDecision VideoQuality.
Proof. solve_decision. Defined.

Definition VideoQuality_value (q : VideoQuality) : Z :=
  match q with
  | VideoQuality_LOW => 0
  | VideoQuality_MEDIUM => 1
  | VideoQuality_HIGH => 2
  | VideoQuality_OFF => 3
  end.

(** The struct [DynacastQuality].  Participant and node identifiers are Go
    strings.  The timer is represented by whether one is armed, the callback
    by whether one is registered ([nil] or not). *)
Record DynacastQuality : Type := mkDynacastQuality {
  initialized : bool;
  maxSubscriberQuality : gmap string VideoQuality;
  maxSubscriberNodeQuality : gmap string VideoQuality;
  maxSubscribedQuality : VideoQuality;
  maxQualityTimer : bool;
  onSubscribedMaxQualityChange : bool
}.

(** [NewDynacastQuality]: two empty maps, every other field at its Go zero
    value (the zero value of the enumeration is LOW). *)
Definition NewDynacastQuality : DynacastQuality :=
  {| initialized := false;
     maxSubscriberQuality := ∅;
     maxSubscriberNodeQuality := ∅;
     maxSubscribedQuality := VideoQuality_LOW;
     maxQualityTimer := false;
     onSubscribedMaxQualityChange := false |}.

Definition OnSubscribedMaxQualityChange (d : DynacastQuality) : DynacastQuality :=
  {| initialized := initialized d;
     maxSubscriberQuality := maxSubscriberQuality d;
     maxSubscriberNodeQuality := maxSubscriberNodeQuality d;
     maxSubscribedQuality := maxSubscribedQuality d;
     maxQualityTimer := maxQualityTimer d;
     onSubscribedMaxQualityChange := true |}.

(** Body of both [range] loops of [updateQualityChange]:
    [if max == OFF || (q != OFF && q > max) { max = q }]. *)
Definition qualityStep (max q : VideoQuality) : VideoQuality :=
  if bool_decide (max = VideoQuality_OFF)
     || (negb (bool_decide (q = VideoQuality_OFF))
         && (VideoQuality_value q >? VideoQuality_value max))
  then q else max.

(** A [range] loop over the values visited, in the order visited. *)
Definition rangeLoop (start : VideoQuality) (visited : list VideoQuality)
  : VideoQuality :=
  foldl qualityStep start visited.

(** The values of a Go map in one enumeration order.  Go leaves the order of
    [range] over a map unspecified; [rangeLoop_order] below shows that the
    loops do not depend on it. *)
Definition values (m : gmap string VideoQuality) : list VideoQuality :=
  (map_to_list m).*2.

(** The local variable [maxSubscribedQuality] of [updateQualityChange] after
    the two loops. *)
Definition recompute (d : DynacastQuality) : VideoQuality :=
  rangeLoop (rangeLoop VideoQuality_OFF (values (maxSubscriberQuality d)))
            (values (maxSubscriberNodeQuality d)).

(** [updateQualityChange]: the new receiver and the argument of the callback
    invocation, if one is made. *)
Definition updateQualityChange (d : DynacastQuality)
  : DynacastQuality * option VideoQuality :=
  let q := recompute d in
  if bool_decide (q = maxSubscribedQuality d) && initialized d then (d, None)
  else
    let d' := {| initialized := true;
                 maxSubscriberQuality := maxSubscriberQuality d;
                 maxSubscriberNodeQuality := maxSubscriberNodeQuality d;
                 maxSubscribedQuality := q;
                 maxQualityTimer := maxQualityTimer d;
                 onSubscribedMaxQualityChange := onSubscribedMaxQualityChange d |} in
    (d', if onSubscribedMaxQualityChange d then Some q else None).

Definition NotifySubscriberMaxQuality (subscriberID : string)
    (quality : VideoQuality) (d : DynacastQuality)
  : DynacastQuality * option VideoQuality :=
  updateQualityChange
    {| initialized := initialized d;
       maxSubscriberQuality :=
         if bool_decide (quality = VideoQuality_OFF)
         then delete subscriberID (maxSubscriberQuality d)
         else <[subscriberID := quality]> (maxSubscriberQuality d);
       maxSubscriberNodeQuality := maxSubscriberNodeQuality d;
       maxSubscribedQuality := maxSubscribedQuality d;
       maxQualityTimer := maxQualityTimer d;
       onSubscribedMaxQualityChange := onSubscribedMaxQualityChange d |}.

Definition NotifySubscriberNodeMaxQuality (nodeID : string)
    (quality : VideoQuality) (d : DynacastQuality)
  : DynacastQuality * option VideoQuality :=
  updateQualityChange
    {| initialized := initialized d;
       maxSubscriberQuality := maxSubscriberQuality d;
       maxSubscriberNodeQuality :=
         if bool_decide (quality = VideoQuality_OFF)
         then delete nodeID (maxSubscriberNodeQuality d)
         else <[nodeID := quality]> (maxSubscriberNodeQuality d);
       maxSubscribedQuality := maxSubscribedQuality d;
       maxQualityTimer := maxQualityTimer d;
       onSubscribedMaxQualityChange := onSubscribedMaxQualityChange d |}.

(** [reset] (shared by [Start] and [Restart]): clears [initialized], stores
    HIGH and arms the initial-wait timer. *)
Definition reset (d : DynacastQuality) : DynacastQuality :=
  {| initialized := false;
     maxSubscriberQuality := maxSubscriberQuality d;
     maxSubscriberNodeQuality := maxSubscriberNodeQuality d;
     maxSubscribedQuality := VideoQuality_HIGH;
     maxQualityTimer := true;
     onSubscribedMaxQualityChange := onSubscribedMaxQualityChange d |}.

Definition stopMaxQualityTimer (d : DynacastQuality) : DynacastQuality :=
  {| initialized := initialized d;
     maxSubscriberQuality := maxSubscriberQuality d;
     maxSubscriberNodeQuality := maxSubscriberNodeQuality d;
     maxSubscribedQuality := maxSubscribedQuality d;
     maxQualityTimer := false;
     onSubscribedMaxQualityChange := onSubscribedMaxQualityChange d |}.

Definition Start (d : DynacastQuality) : DynacastQuality := reset d.

Definition Restart (d : DynacastQuality) : DynacastQuality := reset d.

Definition Stop (d : DynacastQuality) : DynacastQuality :=
  stopMaxQualityTimer d.

Definition MaxSubscribedQuality (d : DynacastQuality) : VideoQuality :=
  maxSubscribedQuality d.

(** The function handed to [time.AfterFunc] in [startMaxQualityTimer]. *)
Definition maxQualityTimerFired (d : DynacastQuality)
  : DynacastQuality * option VideoQuality :=
  updateQualityChange (stopMaxQualityTimer d).

(** Calls a client can make on one aggregator, and the timer firing. *)
Inductive Call : Type :=
| CallNotifySubscriber (subscriberID : string) (quality : VideoQuality)
| CallNotifyNode (nodeID : string) (quality : VideoQuality)
| CallStart
| CallRestart
| CallStop
| CallOnSubscribedMaxQualityChange
| CallTimerFired.

Definition call (c : Call) (d : DynacastQuality)
  : DynacastQuality * option VideoQuality :=
  match c with
  | CallNotifySubscriber k q => NotifySubscriberMaxQuality k q d
  | CallNotifyNode k q => NotifySubscriberNodeMaxQuality k q d
  | CallStart | CallRestart => (reset d, None)
  | CallStop => (stopMaxQualityTimer d, None)
  | CallOnSubscribedMaxQualityChange => (OnSubscribedMaxQualityChange d, None)
  | CallTimerFired => maxQualityTimerFired d
  end.

(** The aggregator after a sequence of calls on a fresh one. *)
Definition after (cs : list Call) : DynacastQuality :=
  foldl (fun d c => fst (call c d)) NewDynacastQuality cs.

(** ** The order of the specification: OFF < LOW < MEDIUM < HIGH. *)
Definition quality_rank (q : VideoQuality) : nat :=
  match q with
  | VideoQuality_OFF => 0
  | VideoQuality_LOW => 1
  | VideoQuality_MEDIUM => 2
  | VideoQuality_HIGH => 3
  end%nat.

(** [q] is held by one of the two maps. *)
Definition stored (d : DynacastQuality) (q : VideoQuality) : Prop :=
  (∃ k, maxSubscriberQuality d !! k = Some q)
  ∨ (∃ k, maxSubscriberNodeQuality d !! k = Some q).

(** [a] is the maximum, in that order, over the union of both maps, and OFF
    when both are empty. *)
Definition is_max_quality (d : DynacastQuality) (a : VideoQuality) : Prop :=
  (maxSubscriberQuality d = ∅ ∧ maxSubscriberNodeQuality d = ∅
   ∧ a = VideoQuality_OFF)
  ∨ (stored d a ∧ ∀ q, stored d q → (quality_rank q ≤ quality_rank a)%nat).

(** Neither map holds the value OFF. *)
Definition never_stores_OFF (d : DynacastQuality) : Prop :=
  (∀ k, maxSubscriberQuality d !! k ≠ Some VideoQuality_OFF)
  ∧ (∀ k, maxSubscriberNodeQuality d !! k ≠ Some VideoQuality_OFF).

(** A registered callback on a started aggregator whose only subscriber
    asked for MEDIUM. *)
Definition one_medium_subscriber : DynacastQuality :=
  {| initialized := false;
     maxSubscriberQuality := {[ "PA_alice" := VideoQuality_MEDIUM ]};
     maxSubscriberNodeQuality := ∅;
     maxSubscribedQuality := VideoQuality_HIGH;
     maxQualityTimer := true;
     onSubscribedMaxQualityChange := true |}.

End Dynacast.

(* ===================================================================== *)
(** * The SDP and WebRTC stack, as the transport consumes it *)
(* ===================================================================== *)

(** Go strings are byte strings; [strings.Split] with a one-byte separator
    and [strings.Contains] are written out on them. *)
Module strings.

Fixpoint Split1 (sep : Ascii.ascii) (s : string) : list string :=
  match s with
  | EmptyString => [EmptyString]
  | String c rest =>
      if Ascii.eqb c sep then EmptyString :: Split1 sep rest
      else match Split1 sep rest with
           | hd :: tl => String c hd :: tl
           | [] => [String c EmptyString]
           end
  end.

(** [strings.Split(s, " ")]. *)
Definition Split_space (s : string) : list string := Split1 " "%char s.

Fixpoint Contains (s substr : string) : bool :=
  if String.prefix substr s then true
  else match s with
       | EmptyString => false
       | String _ rest => Contains rest substr
       end.

End strings.

(** Package [github.com/pion/sdp/v3]: the parsed session description.  Only
    the parts the transport reads or rewrites are kept. *)
Module sdp.

Record Attribute : Type := mkAttribute { Key : string; Value : string }.

Record MediaDescription : Type := mkMediaDescription {
  Media : string;                       (* MediaName.Media *)
  MediaAttributes : list Attribute      (* Attributes *)
}.

Record SessionDescription : Type := mkSessionDescription {
  Attributes : list Attribute;
  MediaDescriptions : list MediaDescription
}.

Definition AttrKeyCandidate : string := "candidate".
Definition AttrKeyMID : string := "mid".
Definition AttrKeyConnectionSetup : string := "setup".

(** [ConnectionRoleActive.String()] and [ConnectionRolePassive.String()]. *)
Definition ConnectionRoleActive_String : string := "active".
Definition ConnectionRolePassive_String : string := "passive".

(** The accessor [Attribute(key)] of both description types: the value of
    the first attribute carrying the key. *)
Fixpoint lookupAttribute (attrs : list Attribute) (key : string)
  : option string :=
  match attrs with
  | [] => None
  | a :: rest =>
      if String.eqb (Key a) key then Some (Value a)
      else lookupAttribute rest key
  end.

Definition Attribute_of (desc : SessionDescription) (key : string)
  : option string := lookupAttribute (Attributes desc) key.

Definition MediaAttribute_of (m : MediaDescription) (key : string)
  : option string := lookupAttribute (MediaAttributes m) key.

End sdp.

(** Package [github.com/pion/webrtc/v3]: the data the transport exchanges
    with the peer connection, and the peer connection as an interface. *)
Module webrtc.

Inductive SDPType : Type :=
| SDPTypeOffer | SDPTypePranswer | SDPTypeAnswer | SDPTypeRollback.

Record SessionDescription : Type := mkSessionDescription {
  Type_ : SDPType;
  SDP : string
}.

Record ICECandidateInit : Type := mkICECandidateInit { Candidate : string }.

Record OfferOptions : Type := mkOfferOptions { ICERestart : bool }.

Inductive PeerConnectionState : Type :=
| PeerConnectionStateNew | PeerConnectionStateConnecting
| PeerConnectionStateConnected | PeerConnectionStateDisconnected
| PeerConnectionStateFailed | PeerConnectionStateClosed.

Inductive ICEGatheringState : Type :=
| ICEGatheringStateNew | ICEGatheringStateGathering
| ICEGatheringStateComplete.

Inductive DTLSRole : Type :=
| DTLSRoleAuto | DTLSRoleClient | DTLSRoleServer.

(** Errors that originate in the stack. *)
Inductive Error : Type :=
| ErrSessionDescriptionNoFingerprint
| ErrSessionDescriptionConflictingFingerprints
| ErrSessionDescriptionInvalidFingerprint
| ErrSessionDescriptionMissingIceUfrag
| ErrSessionDescriptionMissingIcePwd
| ErrSessionDescriptionConflictingIceUfrag
| ErrSessionDescriptionConflictingIcePwd
| ErrOther (msg : string).

#[global] Instance SDPType_eq_dec : EqDecision SDPType.
Proof. solve_decision. Defined.
#[global] Instance SessionDescription_eq_dec : EqDecision SessionDescription.
Proof. solve_decision. Defined.
#[global] Instance ICECandidateInit_eq_dec : EqDecision ICECandidateInit.
Proof. solve_decision. Defined.
#[global] Instance PeerConnectionState_eq_dec : EqDecision PeerConnectionState.
Proof. solve_decision. Defined.
#[global] Instance ICEGatheringState_eq_dec : EqDecision ICEGatheringState.
Proof. solve_decision. Defined.
#[global] Instance DTLSRole_eq_dec : EqDecision DTLSRole.
Proof. solve_decision. Defined.
#[global] Instance Error_eq_dec : EqDecision Error.
Proof. solve_decision. Defined.

(** [*webrtc.PeerConnection], for any representation [PC] of its state.  A
    method that can change the connection returns the connection after the
    call next to its Go result. *)
Class PeerConnection (PC : Type) : Type := {
  RemoteDescription : PC → option SessionDescription;
  CurrentRemoteDescription : PC → option SessionDescription;
  LocalDescription : PC → option SessionDescription;
  ConnectionState : PC → PeerConnectionState;
  ICEGatheringState_of : PC → ICEGatheringState;
  SetRemoteDescription : PC → SessionDescription → PC * option Error;
  AddICECandidate : PC → ICECandidateInit → PC * option Error;
  CreateOffer : PC → option OfferOptions → PC * (SessionDescription + Error);
  SetLocalDescription : PC → SessionDescription → PC * option Error;
  (** [sd.Unmarshal()] and [parsed.Marshal()]. *)
  Unmarshal : SessionDescription → sdp.SessionDescription + Error;
  Marshal : sdp.SessionDescription → string + Error
}.

End webrtc.

(* ===================================================================== *)
(** * Package rtc: SDP helpers and the transport controller *)
(* ===================================================================== *)

Module rtc.

(** ** SDP helpers of [transport.go] *)

(** [extractFingerprint]: the first fingerprint attribute of the session
    level and of each media description, in that order. *)
Definition collectFingerprints (desc : sdp.SessionDescription) : list string :=
  match sdp.Attribute_of desc "fingerprint" with
  | Some fingerprint => [fingerprint]
  | None => []
  end
  ++ flat_map (fun m => match sdp.MediaAttribute_of m "fingerprint" with
                        | Some fingerprint => [fingerprint]
                        | None => []
                        end) (sdp.MediaDescriptions desc).

Definition extractFingerprint (desc : sdp.SessionDescription)
  : (string * string) + webrtc.Error :=
  let fingerprints := collectFingerprints desc in
  match fingerprints with
  | [] => inr webrtc.ErrSessionDescriptionNoFingerprint
  | first :: _ =>
      if forallb (fun m => String.eqb m first) fingerprints then
        match strings.Split_space first with
        | [part0; part1] => inl (part1, part0)
        | _ => inr webrtc.ErrSessionDescriptionInvalidFingerprint
        end
      else inr webrtc.ErrSessionDescriptionConflictingFingerprints
  end.

Definition collectAttribute (key : string) (desc : sdp.SessionDescription)
  : list string :=
  match sdp.Attribute_of desc key with
  | Some v => [v]
  | None => []
  end
  ++ flat_map (fun m => match sdp.MediaAttribute_of m key with
                        | Some v => [v]
                        | None => []
                        end) (sdp.MediaDescriptions desc).

Definition extractICECredential (desc : sdp.SessionDescription)
  : (string * string) + webrtc.Error :=
  let remoteUfrags := collectAttribute "ice-ufrag" desc in
  let remotePwds := collectAttribute "ice-pwd" desc in
  match remoteUfrags, remotePwds with
  | [], _ => inr webrtc.ErrSessionDescriptionMissingIceUfrag
  | _ :: _, [] => inr webrtc.ErrSessionDescriptionMissingIcePwd
  | ufrag0 :: _, pwd0 :: _ =>
      if negb (forallb (fun m => String.eqb m ufrag0) remoteUfrags)
      then inr webrtc.ErrSessionDescriptionConflictingIceUfrag
      else if negb (forallb (fun m => String.eqb m pwd0) remotePwds)
      then inr webrtc.ErrSessionDescriptionConflictingIcePwd
      else inl (ufrag0, pwd0)
  end.

(** The closure [filterAttributes] of [filterCandidates]. *)
Fixpoint filterAttributes (preferTCP : bool) (attrs : list sdp.Attribute)
  : list sdp.Attribute :=
  match attrs with
  | [] => []
  | a :: rest =>
      if String.eqb (sdp.Key a) sdp.AttrKeyCandidate then
        if preferTCP then
          if strings.Contains (sdp.Value a) "tcp"
          then a :: filterAttributes preferTCP rest
          else filterAttributes preferTCP rest
        else a :: filterAttributes preferTCP rest
      else a :: filterAttributes preferTCP rest
  end.

(** What [filterCandidates] does to the parsed description between
    [Unmarshal] and [Marshal]. *)
Definition filterParsed (preferTCP : bool) (parsed : sdp.SessionDescription)
  : sdp.SessionDescription :=
  {| sdp.Attributes := filterAttributes preferTCP (sdp.Attributes parsed);
     sdp.MediaDescriptions :=
       map (fun m => {| sdp.Media := sdp.Media m;
                        sdp.MediaAttributes :=
                          filterAttributes preferTCP (sdp.MediaAttributes m) |})
           (sdp.MediaDescriptions parsed) |}.

(** [getMidValue]. *)
Fixpoint getMidValue_loop (attrs : list sdp.Attribute) : string :=
  match attrs with
  | [] => ""
  | attr :: rest =>
      if String.eqb (sdp.Key attr) sdp.AttrKeyMID then sdp.Value attr
      else getMidValue_loop rest
  end.

Definition getMidValue (media : sdp.MediaDescription) : string :=
  getMidValue_loop (sdp.MediaAttributes media).

(** [extractDTLSRole]: the loop over the media descriptions, ending on the
    client role. *)
Fixpoint extractDTLSRole_loop (mds : list sdp.MediaDescription)
  : webrtc.DTLSRole :=
  match mds with
  | [] => webrtc.DTLSRoleClient
  | md :: rest =>
      match sdp.MediaAttribute_of md sdp.AttrKeyConnectionSetup with
      | None => extractDTLSRole_loop rest
      | Some setup =>
          if String.eqb setup sdp.ConnectionRoleActive_String
          then webrtc.DTLSRoleClient
          else if String.eqb setup sdp.ConnectionRolePassive_String
          then webrtc.DTLSRoleServer
          else extractDTLSRole_loop rest
      end
  end.

Definition extractDTLSRole (desc : sdp.SessionDescription) : webrtc.DTLSRole :=
  extractDTLSRole_loop (sdp.MediaDescriptions desc).

(** The closure [replaceFP] of [preparePC]: every attribute with the key
    [fingerprint] gets the value [fpLine], in place. *)
Fixpoint replaceFP (attrs : list sdp.Attribute) (fpLine : string)
  : list sdp.Attribute :=
  match attrs with
  | [] => []
  | a :: rest =>
      (if String.eqb (sdp.Key a) "fingerprint"
       then {| sdp.Key := sdp.Key a; sdp.Value := fpLine |}
       else a) :: replaceFP rest fpLine
  end.

(** What [preparePC] does to the parsed answer of the throwaway connection,
    given the two results [fp], [fpHahs] of [extractFingerprint] on the
    previous answer. *)
Definition replaceFingerprints (parsedAns : sdp.SessionDescription)
    (fp fpHahs : string) : sdp.SessionDescription :=
  let fpLine := fpHahs +:+ " " +:+ fp in
  {| sdp.Attributes := replaceFP (sdp.Attributes parsedAns) fpLine;
     sdp.MediaDescriptions :=
       map (fun m => {| sdp.Media := sdp.Media m;
                        sdp.MediaAttributes :=
                          replaceFP (sdp.MediaAttributes m) fpLine |})
           (sdp.MediaDescriptions parsedAns) |}.

(** ** The filter as the specification words it

    Following the specification ("drop all candidate attributes whose
    transport is not TCP"): the transport of a candidate is the third
    space-separated field of the attribute value,
    [foundation component transport priority address port typ ...]. *)
Definition candidateTransport (value : string) : option string :=
  strings.Split_space value !! 2%nat.

Definition transportIsTCP (value : string) : bool :=
  match candidateTransport value with
  | Some transport => String.eqb transport "tcp" || String.eqb transport "TCP"
  | None => false
  end.

Definition filter_candidates_spec (prefer_tcp : bool)
    (attrs : list sdp.Attribute) : list sdp.Attribute :=
  List.filter
    (fun a => negb (String.eqb (sdp.Key a) sdp.AttrKeyCandidate)
              || negb prefer_tcp
              || transportIsTCP (sdp.Value a))
    attrs.

(** What the filter keeps when TCP is preferred. *)
Definition keptWhenPreferTCP (a : sdp.Attribute) : bool :=
  negb (String.eqb (sdp.Key a) sdp.AttrKeyCandidate)
  || strings.Contains (sdp.Value a) "tcp".

Definition notCandidate (a : sdp.Attribute) : bool :=
  negb (String.eqb (sdp.Key a) sdp.AttrKeyCandidate).

Definition noSpace (s : string) : Prop :=
  ∀ c, c ∈ String.list_ascii_of_string s → c ≠ " "%char.

(** ** The transport *)

Inductive NegotiationState : Type :=
| negotiationStateNone      (* idle *)
| negotiationStateClient    (* waiting for client answer *)
| negotiationRetry.         (* need to Negotiate again *)

#[global] Instance NegotiationState_eq_dec : EqDecision NegotiationState.
Proof. solve_decision. Defined.

(** Errors a transport method can return: the package's own sentinel, an
    error of the stack, or the error of a callback of the caller. *)
Inductive error : Type :=
| ErrIceRestartWithoutLocalSDP
| StackError (e : webrtc.Error)
| CallbackError (msg : string).

#[global] Instance error_eq_dec : EqDecision error.
Proof. solve_decision. Defined.

(** The function last handed to the debouncer and not yet run. *)
Inductive DebouncedFunc : Type :=
| DebouncedNoOp
| DebouncedCreateAndSendOffer.

(** [atomic.Int32]: increments wrap around. *)
Definition wrapInt32 (z : Z) : Z := (z + 2^31) mod 2^32 - 2^31.

(** What a method did besides updating the transport: the calls on the peer
    connection that can change it, with their results, and the callbacks
    invoked. *)
Inductive Event : Type :=
| PcSetRemoteDescription (sd : webrtc.SessionDescription)
                         (err : option webrtc.Error)
| PcAddICECandidate (c : webrtc.ICECandidateInit) (err : option webrtc.Error)
| PcCreateOffer (options : option webrtc.OfferOptions)
                (res : webrtc.SessionDescription + webrtc.Error)
| PcSetLocalDescription (sd : webrtc.SessionDescription)
                        (err : option webrtc.Error)
| GoOnOffer (offer : webrtc.SessionDescription)
| CallOnNegotiationFailed
| CallOnRemoteDescripitonSettled.

Section Transport.
Context {PC : Type} {stack : webrtc.PeerConnection PC}.

(** The struct [PCTransport].  The lock, the logger and parameters, the media
    engine, the stream allocator and [iceConnectedAt] play no part in
    negotiation and are left out.  A callback field records whether a
    function is registered ([onRemoteDescripitonSettled]: and the error it
    returns); the timer field holds the [negotiateVersion] captured by the
    function of the armed timer; [negotiationPending] is the set of keys
    mapped to true. *)
Record PCTransport : Type := mkPCTransport {
  pc : PC;
  pendingCandidates : list webrtc.ICECandidateInit;
  debouncedNegotiate : option DebouncedFunc;
  negotiationPending : gset string;
  onOffer : bool;
  onRemoteDescripitonSettled : option (option error);
  restartAfterGathering : bool;
  restartAtNextOffer : bool;
  negotiationState : NegotiationState;
  negotiateCounter : Z;
  signalStateCheckTimer : option Z;
  onNegotiationFailed : bool;
  previousAnswer : option webrtc.SessionDescription;
  preferTCP : bool;
  currentOfferIceCredential : string;
  pendingRestartIceOffer : option webrtc.SessionDescription
}.

Definition set_pc (v : PC) (t : PCTransport) : PCTransport :=
  {| pc := v;
     pendingCandidates := pendingCandidates t;
     debouncedNegotiate := debouncedNegotiate t;
     negotiationPending := negotiationPending t;
     onOffer := onOffer t;
     onRemoteDescripitonSettled := onRemoteDescripitonSettled t;
     restartAfterGathering := restartAfterGathering t;
     restartAtNextOffer := restartAtNextOffer t;
     negotiationState := negotiationState t;
     negotiateCounter := negotiateCounter t;
     signalStateCheckTimer := signalStateCheckTimer t;
     onNegotiationFailed := onNegotiationFailed t;
     previousAnswer := previousAnswer t;
     preferTCP := preferTCP t;
     currentOfferIceCredential := currentOfferIceCredential t;
     pendingRestartIceOffer := pendingRestartIceOffer t |}.

Definition set_pendingCandidates (v : list webrtc.ICECandidateInit) (t : PCTransport) : PCTransport :=
  {| pc := pc t;
     pendingCandidates := v;
     debouncedNegotiate := debouncedNegotiate t;
     negotiationPending := negotiationPending t;
     onOffer := onOffer t;
     onRemoteDescripitonSettled := onRemoteDescripitonSettled t;
     restartAfterGathering := restartAfterGathering t;
     restartAtNextOffer := restartAtNextOffer t;
     negotiationState := negotiationState t;
     negotiateCounter := negotiateCounter t;
     signalStateCheckTimer := signalStateCheckTimer t;
     onNegotiationFailed := onNegotiationFailed t;
     previousAnswer := previousAnswer t;
     preferTCP := preferTCP t;
     currentOfferIceCredential := currentOfferIceCredential t;
     pendingRestartIceOffer := pendingRestartIceOffer t |}.

Definition set_debouncedNegotiate (v : option DebouncedFunc) (t : PCTransport) : PCTransport :=
  {| pc := pc t;
     pendingCandidates := pendingCandidates t;
     debouncedNegotiate := v;
     negotiationPending := negotiationPending t;
     onOffer := onOffer t;
     onRemoteDescripitonSettled := onRemoteDescripitonSettled t;
     restartAfterGathering := restartAfterGathering t;
     restartAtNextOffer := restartAtNextOffer t;
     negotiationState := negotiationState t;
     negotiateCounter := negotiateCounter t;
     signalStateCheckTimer := signalStateCheckTimer t;
     onNegotiationFailed := onNegotiationFailed t;
     previousAnswer := previousAnswer t;
     preferTCP := preferTCP t;
     currentOfferIceCredential := currentOfferIceCredential t;
     pendingRestartIceOffer := pendingRestartIceOffer t |}.

Definition set_negotiationPending (v : gset string) (t : PCTransport) : PCTransport :=
  {| pc := pc t;
     pendingCandidates := pendingCandidates t;
     debouncedNegotiate := debouncedNegotiate t;
     negotiationPending := v;
     onOffer := onOffer t;
     onRemoteDescripitonSettled := onRemoteDescripitonSettled t;
     restartAfterGathering := restartAfterGathering t;
     restartAtNextOffer := restartAtNextOffer t;
     negotiationState := negotiationState t;
     negotiateCounter := negotiateCounter t;
     signalStateCheckTimer := signalStateCheckTimer t;
     onNegotiationFailed := onNegotiationFailed t;
     previousAnswer := previousAnswer t;
     preferTCP := preferTCP t;
     currentOfferIceCredential := currentOfferIceCredential t;
     pendingRestartIceOffer := pendingRestartIceOffer t |}.

Definition set_onOffer (v : bool) (t : PCTransport) : PCTransport :=
  {| pc := pc t;
     pendingCandidates := pendingCandidates t;
     debouncedNegotiate := debouncedNegotiate t;
     negotiationPending := negotiationPending t;
     onOffer := v;
     onRemoteDescripitonSettled := onRemoteDescripitonSettled t;
     restartAfterGathering := restartAfterGathering t;
     restartAtNextOffer := restartAtNextOffer t;
     negotiationState := negotiationState t;
     negotiateCounter := negotiateCounter t;
     signalStateCheckTimer := signalStateCheckTimer t;
     onNegotiationFailed := onNegotiationFailed t;
     previousAnswer := previousAnswer t;
     preferTCP := preferTCP t;
     currentOfferIceCredential := currentOfferIceCredential t;
     pendingRestartIceOffer := pendingRestartIceOffer t |}.

Definition set_onRemoteDescripitonSettled (v : option (option error)) (t : PCTransport) : PCTransport :=
  {| pc := pc t;
     pendingCandidates := pendingCandidates t;
     debouncedNegotiate := debouncedNegotiate t;
     negotiationPending := negotiationPending t;
     onOffer := onOffer t;
     onRemoteDescripitonSettled := v;
     restartAfterGathering := restartAfterGathering t;
     restartAtNextOffer := restartAtNextOffer t;
     negotiationState := negotiationState t;
     negotiateCounter := negotiateCounter t;
     signalStateCheckTimer := signalStateCheckTimer t;
     onNegotiationFailed := onNegotiationFailed t;
     previousAnswer := previousAnswer t;
     preferTCP := preferTCP t;
     currentOfferIceCredential := currentOfferIceCredential t;
     pendingRestartIceOffer := pendingRestartIceOffer t |}.

Definition set_restartAfterGathering (v : bool) (t : PCTransport) : PCTransport :=
  {| pc := pc t;
     pendingCandidates := pendingCandidates t;
     debouncedNegotiate := debouncedNegotiate t;
     negotiationPending := negotiationPending t;
     onOffer := onOffer t;
     onRemoteDescripitonSettled := onRemoteDescripitonSettled t;
     restartAfterGathering := v;
     restartAtNextOffer := restartAtNextOffer t;
     negotiationState := negotiationState t;
     negotiateCounter := negotiateCounter t;
     signalStateCheckTimer := signalStateCheckTimer t;
     onNegotiationFailed := onNegotiationFailed t;
     previousAnswer := previousAnswer t;
     preferTCP := preferTCP t;
     currentOfferIceCredential := currentOfferIceCredential t;
     pendingRestartIceOffer := pendingRestartIceOffer t |}.

Definition set_restartAtNextOffer (v : bool) (t : PCTransport) : PCTransport :=
  {| pc := pc t;
     pendingCandidates := pendingCandidates t;
     debouncedNegotiate := debouncedNegotiate t;
     negotiationPending := negotiationPending t;
     onOffer := onOffer t;
     onRemoteDescripitonSettled := onRemoteDescripitonSettled t;
     restartAfterGathering := restartAfterGathering t;
     restartAtNextOffer := v;
     negotiationState := negotiationState t;
     negotiateCounter := negotiateCounter t;
     signalStateCheckTimer := signalStateCheckTimer t;
     onNegotiationFailed := onNegotiationFailed t;
     previousAnswer := previousAnswer t;
     preferTCP := preferTCP t;
     currentOfferIceCredential := currentOfferIceCredential t;
     pendingRestartIceOffer := pendingRestartIceOffer t |}.

Definition set_negotiationState (v : NegotiationState) (t : PCTransport) : PCTransport :=
  {| pc := pc t;
     pendingCandidates := pendingCandidates t;
     debouncedNegotiate := debouncedNegotiate t;
     negotiationPending := negotiationPending t;
     onOffer := onOffer t;
     onRemoteDescripitonSettled := onRemoteDescripitonSettled t;
     restartAfterGathering := restartAfterGathering t;
     restartAtNextOffer := restartAtNextOffer t;
     negotiationState := v;
     negotiateCounter := negotiateCounter t;
     signalStateCheckTimer := signalStateCheckTimer t;
     onNegotiationFailed := onNegotiationFailed t;
     previousAnswer := previousAnswer t;
     preferTCP := preferTCP t;
     currentOfferIceCredential := currentOfferIceCredential t;
     pendingRestartIceOffer := pendingRestartIceOffer t |}.

Definition set_negotiateCounter (v : Z) (t : PCTransport) : PCTransport :=
  {| pc := pc t;
     pendingCandidates := pendingCandidates t;
     debouncedNegotiate := debouncedNegotiate t;
     negotiationPending := negotiationPending t;
     onOffer := onOffer t;
     onRemoteDescripitonSettled := onRemoteDescripitonSettled t;
     restartAfterGathering := restartAfterGathering t;
     restartAtNextOffer := restartAtNextOffer t;
     negotiationState := negotiationState t;
     negotiateCounter := v;
     signalStateCheckTimer := signalStateCheckTimer t;
     onNegotiationFailed := onNegotiationFailed t;
     previousAnswer := previousAnswer t;
     preferTCP := preferTCP t;
     currentOfferIceCredential := currentOfferIceCredential t;
     pendingRestartIceOffer := pendingRestartIceOffer t |}.

Definition set_signalStateCheckTimer (v : option Z) (t : PCTransport) : PCTransport :=
  {| pc := pc t;
     pendingCandidates := pendingCandidates t;
     debouncedNegotiate := debouncedNegotiate t;
     negotiationPending := negotiationPending t;
     onOffer := onOffer t;
     onRemoteDescripitonSettled := onRemoteDescripitonSettled t;
     restartAfterGathering := restartAfterGathering t;
     restartAtNextOffer := restartAtNextOffer t;
     negotiationState := negotiationState t;
     negotiateCounter := negotiateCounter t;
     signalStateCheckTimer := v;
     onNegotiationFailed := onNegotiationFailed t;
     previousAnswer := previousAnswer t;
     preferTCP := preferTCP t;
     currentOfferIceCredential := currentOfferIceCredential t;
     pendingRestartIceOffer := pendingRestartIceOffer t |}.

Definition set_onNegotiationFailed (v : bool) (t : PCTransport) : PCTransport :=
  {| pc := pc t;
     pendingCandidates := pendingCandidates t;
     debouncedNegotiate := debouncedNegotiate t;
     negotiationPending := negotiationPending t;
     onOffer := onOffer t;
     onRemoteDescripitonSettled := onRemoteDescripitonSettled t;
     restartAfterGathering := restartAfterGathering t;
     restartAtNextOffer := restartAtNextOffer t;
     negotiationState := negotiationState t;
     negotiateCounter := negotiateCounter t;
     signalStateCheckTimer := signalStateCheckTimer t;
     onNegotiationFailed := v;
     previousAnswer := previousAnswer t;
     preferTCP := preferTCP t;
     currentOfferIceCredential := currentOfferIceCredential t;
     pendingRestartIceOffer := pendingRestartIceOffer t |}.

Definition set_previousAnswer (v : option webrtc.SessionDescription) (t : PCTransport) : PCTransport :=
  {| pc := pc t;
     pendingCandidates := pendingCandidates t;
     debouncedNegotiate := debouncedNegotiate t;
     negotiationPending := negotiationPending t;
     onOffer := onOffer t;
     onRemoteDescripitonSettled := onRemoteDescripitonSettled t;
     restartAfterGathering := restartAfterGathering t;
     restartAtNextOffer := restartAtNextOffer t;
     negotiationState := negotiationState t;
     negotiateCounter := negotiateCounter t;
     signalStateCheckTimer := signalStateCheckTimer t;
     onNegotiationFailed := onNegotiationFailed t;
     previousAnswer := v;
     preferTCP := preferTCP t;
     currentOfferIceCredential := currentOfferIceCredential t;
     pendingRestartIceOffer := pendingRestartIceOffer t |}.

Definition set_preferTCP (v : bool) (t : PCTransport) : PCTransport :=
  {| pc := pc t;
     pendingCandidates := pendingCandidates t;
     debouncedNegotiate := debouncedNegotiate t;
     negotiationPending := negotiationPending t;
     onOffer := onOffer t;
     onRemoteDescripitonSettled := onRemoteDescripitonSettled t;
     restartAfterGathering := restartAfterGathering t;
     restartAtNextOffer := restartAtNextOffer t;
     negotiationState := negotiationState t;
     negotiateCounter := negotiateCounter t;
     signalStateCheckTimer := signalStateCheckTimer t;
     onNegotiationFailed := onNegotiationFailed t;
     previousAnswer := previousAnswer t;
     preferTCP := v;
     currentOfferIceCredential := currentOfferIceCredential t;
     pendingRestartIceOffer := pendingRestartIceOffer t |}.

Definition set_currentOfferIceCredential (v : string) (t : PCTransport) : PCTransport :=
  {| pc := pc t;
     pendingCandidates := pendingCandidates t;
     debouncedNegotiate := debouncedNegotiate t;
     negotiationPending := negotiationPending t;
     onOffer := onOffer t;
     onRemoteDescripitonSettled := onRemoteDescripitonSettled t;
     restartAfterGathering := restartAfterGathering t;
     restartAtNextOffer := restartAtNextOffer t;
     negotiationState := negotiationState t;
     negotiateCounter := negotiateCounter t;
     signalStateCheckTimer := signalStateCheckTimer t;
     onNegotiationFailed := onNegotiationFailed t;
     previousAnswer := previousAnswer t;
     preferTCP := preferTCP t;
     currentOfferIceCredential := v;
     pendingRestartIceOffer := pendingRestartIceOffer t |}.

Definition set_pendingRestartIceOffer (v : option webrtc.SessionDescription) (t : PCTransport) : PCTransport :=
  {| pc := pc t;
     pendingCandidates := pendingCandidates t;
     debouncedNegotiate := debouncedNegotiate t;
     negotiationPending := negotiationPending t;
     onOffer := onOffer t;
     onRemoteDescripitonSettled := onRemoteDescripitonSettled t;
     restartAfterGathering := restartAfterGathering t;
     restartAtNextOffer := restartAtNextOffer t;
     negotiationState := negotiationState t;
     negotiateCounter := negotiateCounter t;
     signalStateCheckTimer := signalStateCheckTimer t;
     onNegotiationFailed := onNegotiationFailed t;
     previousAnswer := previousAnswer t;
     preferTCP := preferTCP t;
     currentOfferIceCredential := currentOfferIceCredential t;
     pendingRestartIceOffer := v |}.

(** [NewPCTransport] around a freshly created peer connection. *)
Definition NewPCTransport (pc0 : PC) : PCTransport :=
  {| pc := pc0;
     pendingCandidates := [];
     debouncedNegotiate := None;
     negotiationPending := ∅;
     onOffer := false;
     onRemoteDescripitonSettled := None;
     restartAfterGathering := false;
     restartAtNextOffer := false;
     negotiationState := negotiationStateNone;
     negotiateCounter := 0;
     signalStateCheckTimer := None;
     onNegotiationFailed := false;
     previousAnswer := None;
     preferTCP := false;
     currentOfferIceCredential := "";
     pendingRestartIceOffer := None |}.

(** Result of a method: the transport afterwards, what it did, and the Go
    return value. *)
Record Result : Type := mkResult {
  next : PCTransport;
  trace : list Event;
  err : option error
}.

Definition stackErr (e : option webrtc.Error) : option error :=
  StackError <$> e.

(** [AddICECandidate] takes two steps.  It first reads the remote
    description of the connection, without holding the lock.  It then acts
    on what it read: with no remote description it appends the candidate to
    [pendingCandidates] under the lock, otherwise it hands the candidate to
    the connection.  Other calls on the transport can run between the two
    steps, so the second step is a function of what the first one read. *)
Definition AddICECandidate_read (t : PCTransport) : bool :=
  match webrtc.RemoteDescription (pc t) with
  | None => true
  | Some _ => false
  end.

Definition AddICECandidate_act (remoteDescriptionWasNil : bool)
    (candidate : webrtc.ICECandidateInit) (t : PCTransport) : Result :=
  if remoteDescriptionWasNil then
    mkResult (set_pendingCandidates (pendingCandidates t ++ [candidate]) t)
             [] None
  else
    let '(pc1, e) := webrtc.AddICECandidate (pc t) candidate in
    mkResult (set_pc pc1 t) [PcAddICECandidate candidate e] (stackErr e).

(** A call of [AddICECandidate] that no other call interrupts. *)
Definition AddICECandidate (candidate : webrtc.ICECandidateInit)
    (t : PCTransport) : Result :=
  AddICECandidate_act (AddICECandidate_read t) candidate t.

Definition filterCandidates (sd : webrtc.SessionDescription) (t : PCTransport)
  : webrtc.SessionDescription :=
  match webrtc.Unmarshal sd with
  | inr _ => sd
  | inl parsed =>
      match webrtc.Marshal (filterParsed (preferTCP t) parsed) with
      | inr _ => sd
      | inl bytes => {| webrtc.Type_ := webrtc.Type_ sd; webrtc.SDP := bytes |}
      end
  end.

Definition isRemoteOfferRestartICE (sd : webrtc.SessionDescription)
    (t : PCTransport) : (string * bool) + webrtc.Error :=
  match webrtc.Unmarshal sd with
  | inr e => inr e
  | inl parsed =>
      match extractICECredential parsed with
      | inr e => inr e
      | inl (user, pwd) =>
          let credential := user +:+ ":" +:+ pwd in
          let restartICE :=
            negb (String.eqb (currentOfferIceCredential t) "")
            && negb (String.eqb (currentOfferIceCredential t) credential) in
          inl (credential, restartICE)
      end
  end.

Definition optionsICERestart (options : option webrtc.OfferOptions) : bool :=
  match options with
  | Some o => webrtc.ICERestart o
  | None => false
  end.

(** The closure [ensureICERestart]. *)
Definition ensureICERestart (options : option webrtc.OfferOptions)
  : option webrtc.OfferOptions :=
  let options := match options with
                 | None => {| webrtc.ICERestart := false |}
                 | Some o => o
                 end in
  Some {| webrtc.ICERestart := true |}.

(** Steps of [createAndSendOffer] from the [ensureICERestart] closure to the
    end: create the offer, set it locally, record the negotiation. *)
Definition createOfferAndNotify (options : option webrtc.OfferOptions)
    (pre : list Event) (t : PCTransport) : Result :=
  let '(t, options) :=
    match previousAnswer t with
    | Some _ => (set_previousAnswer None t, ensureICERestart options)
    | None => (t, options)
    end in
  let '(t, options) :=
    if restartAtNextOffer t
    then (set_restartAtNextOffer false t, ensureICERestart options)
    else (t, options) in
  let '(pc1, res) := webrtc.CreateOffer (pc t) options in
  let t := set_pc pc1 t in
  match res with
  | inr e => mkResult t (pre ++ [PcCreateOffer options res]) (Some (StackError e))
  | inl offer0 =>
      let offer := filterCandidates offer0 t in
      let '(pc2, e) := webrtc.SetLocalDescription (pc t) offer in
      let t := set_pc pc2 t in
      match e with
      | Some e' =>
          mkResult t (pre ++ [PcCreateOffer options res;
                              PcSetLocalDescription offer e])
                   (Some (StackError e'))
      | None =>
          let t := set_negotiationState negotiationStateClient t in
          let t := set_restartAfterGathering false t in
          let t := set_negotiationPending ∅ t in
          let negotiateVersion := wrapInt32 (negotiateCounter t + 1) in
          let t := set_negotiateCounter negotiateVersion t in
          let t := set_signalStateCheckTimer (Some negotiateVersion) t in
          mkResult t (pre ++ [PcCreateOffer options res;
                              PcSetLocalDescription offer e;
                              GoOnOffer offer])
                   None
      end
  end.

(** [createAndSendOffer] (the lock is held by the caller). *)
Definition createAndSendOffer (options : option webrtc.OfferOptions)
    (t : PCTransport) : Result :=
  if negb (onOffer t) then mkResult t [] None
  else if bool_decide (webrtc.ConnectionState (pc t)
                       = webrtc.PeerConnectionStateClosed)
  then mkResult t [] None
  else
    let iceRestart := optionsICERestart options || restartAtNextOffer t in
    if iceRestart
       && bool_decide (webrtc.ICEGatheringState_of (pc t)
                       = webrtc.ICEGatheringStateGathering)
    then mkResult (set_restartAfterGathering true t) [] None
    else if iceRestart
            && negb (bool_decide (negotiationState t = negotiationStateNone))
    then
      match webrtc.CurrentRemoteDescription (pc t) with
      | None =>
          match webrtc.LocalDescription (pc t) with
          | None => mkResult t [] (Some ErrIceRestartWithoutLocalSDP)
          | Some offer =>
              mkResult (set_restartAtNextOffer true
                          (set_negotiationState negotiationRetry t))
                       [GoOnOffer offer] None
          end
      | Some currentSD =>
          let '(pc1, e) := webrtc.SetRemoteDescription (pc t) currentSD in
          let t := set_pc pc1 t in
          match e with
          | Some e' =>
              mkResult t [PcSetRemoteDescription currentSD e]
                       (Some (StackError e'))
          | None =>
              createOfferAndNotify options
                [PcSetRemoteDescription currentSD e] t
          end
      end
    else
      match negotiationState t with
      | negotiationStateClient =>
          mkResult (set_negotiationState negotiationRetry t) [] None
      | negotiationRetry => mkResult t [] None
      | negotiationStateNone => createOfferAndNotify options [] t
      end.

Definition CreateAndSendOffer (options : option webrtc.OfferOptions)
    (t : PCTransport) : Result :=
  createAndSendOffer options t.

(** The function handed to [time.AfterFunc] in [createAndSendOffer], for the
    [negotiateVersion] it captured. *)
Definition signalStateCheckTimerFired (negotiateVersion : Z) (t : PCTransport)
  : Result :=
  let failed := negb (bool_decide (negotiationState t = negotiationStateNone)) in
  if (negotiateCounter t =? negotiateVersion) && failed
  then if onNegotiationFailed t
       then mkResult t [CallOnNegotiationFailed] None
       else mkResult t [] None
  else mkResult t [] None.

(** The loop of [SetRemoteDescription] over [pendingCandidates]: stops at
    the first error. *)
Fixpoint addPendingCandidates (p : PC) (cs : list webrtc.ICECandidateInit)
  : PC * list Event * option webrtc.Error :=
  match cs with
  | [] => (p, [], None)
  | c :: rest =>
      let '(p1, e) := webrtc.AddICECandidate p c in
      match e with
      | Some _ => (p1, [PcAddICECandidate c e], e)
      | None =>
          let '(p2, evs, r) := addPendingCandidates p1 rest in
          (p2, PcAddICECandidate c e :: evs, r)
      end
  end.

(** [SetRemoteDescription] from the call on the peer connection onwards. *)
Definition applyRemoteDescription (sd : webrtc.SessionDescription)
    (iceCredential : string) (offerRestartICE : bool) (t : PCTransport)
  : Result :=
  let '(pc1, e) := webrtc.SetRemoteDescription (pc t) sd in
  let t := set_pc pc1 t in
  match e with
  | Some e' => mkResult t [PcSetRemoteDescription sd e] (Some (StackError e'))
  | None =>
      let t :=
        if String.eqb (currentOfferIceCredential t) "" || offerRestartICE
        then set_currentOfferIceCredential iceCredential t else t in
      let lastState := negotiationState t in
      let t := set_negotiationState negotiationStateNone t in
      let t := set_signalStateCheckTimer None t in
      let '(pc2, evs, r) := addPendingCandidates (pc t) (pendingCandidates t) in
      let t := set_pc pc2 t in
      match r with
      | Some e' =>
          mkResult t (PcSetRemoteDescription sd e :: evs) (Some (StackError e'))
      | None =>
          let t := set_pendingCandidates [] t in
          let again :=
            if bool_decide (lastState = negotiationRetry)
               && bool_decide (webrtc.Type_ sd = webrtc.SDPTypeAnswer)
            then createAndSendOffer None t
            else mkResult t [] None in
          let t := next again in
          let evs := PcSetRemoteDescription sd e :: evs ++ trace again in
          match onRemoteDescripitonSettled t with
          | Some r => mkResult t (evs ++ [CallOnRemoteDescripitonSettled]) r
          | None => mkResult t evs None
          end
      end
  end.

Definition SetRemoteDescription (sd : webrtc.SessionDescription)
    (t : PCTransport) : Result :=
  let check :=
    if bool_decide (webrtc.Type_ sd = webrtc.SDPTypeOffer)
    then isRemoteOfferRestartICE sd t
    else inl ("", false) in
  match check with
  | inr e => mkResult t [] (Some (StackError e))
  | inl (iceCredential, offerRestartICE) =>
      if offerRestartICE
         && bool_decide (webrtc.ICEGatheringState_of (pc t)
                         = webrtc.ICEGatheringStateGathering)
      then mkResult (set_pendingRestartIceOffer (Some sd) t) [] None
      else applyRemoteDescription sd iceCredential offerRestartICE t
  end.

(** The handler installed by [createPeerConnection] with
    [OnICEGatheringStateChange]; errors of the calls it makes are logged. *)
Definition onICEGatheringStateChange (state : webrtc.ICEGatheringState)
    (t : PCTransport) : Result :=
  if bool_decide (state = webrtc.ICEGatheringStateComplete) then
    if restartAfterGathering t then
      let r := createAndSendOffer (Some {| webrtc.ICERestart := true |}) t in
      mkResult (next r) (trace r) None
    else
      match pendingRestartIceOffer t with
      | Some offer =>
          let r := SetRemoteDescription offer
                     (set_pendingRestartIceOffer None t) in
          mkResult (next r) (trace r) None
      | None => mkResult t [] None
      end
  else mkResult t [] None.

(** [Negotiate]: the debouncer keeps the function of the latest call; a
    forced call replaces it by a no-op and offers at once. *)
Definition Negotiate (force : bool) (t : PCTransport) : Result :=
  if force then
    let r := CreateAndSendOffer None
               (set_debouncedNegotiate (Some DebouncedNoOp) t) in
    mkResult (next r) (trace r) None
  else
    mkResult (set_debouncedNegotiate (Some DebouncedCreateAndSendOffer) t)
             [] None.

(** The debouncer's timer expiring: it runs the function it holds. *)
Definition debouncedNegotiateFired (t : PCTransport) : Result :=
  match debouncedNegotiate t with
  | None => mkResult t [] None
  | Some DebouncedNoOp => mkResult (set_debouncedNegotiate None t) [] None
  | Some DebouncedCreateAndSendOffer =>
      let r := CreateAndSendOffer None (set_debouncedNegotiate None t) in
      mkResult (next r) (trace r) None
  end.

Definition OnOffer (t : PCTransport) : PCTransport := set_onOffer true t.

Definition OnNegotiationFailed (t : PCTransport) : PCTransport :=
  set_onNegotiationFailed true t.

Definition OnRemoteDescripitonSettled (returns : option error)
    (t : PCTransport) : PCTransport :=
  set_onRemoteDescripitonSettled (Some returns) t.

Definition AddNegotiationPending (publisherID : string) (t : PCTransport)
  : PCTransport :=
  set_negotiationPending ({[publisherID]} ∪ negotiationPending t) t.

Definition SetPreferTCP (flag : bool) (t : PCTransport) : PCTransport :=
  set_preferTCP flag t.

(** ** Sequences of calls

    What can happen to a transport whose owner negotiates with [Negotiate]
    and [SetRemoteDescription]: the calls of the signalling layer, the two
    timers and the gathering handler firing, and the peer connection
    changing its own state between calls.  [CallAddICECandidateAct] is the
    second step of an [AddICECandidate] call whose first step, the read,
    was taken earlier. *)
Inductive Call : Type :=
| CallNegotiate (force : bool)
| CallDebouncedNegotiateFired
| CallSetRemoteDescription (sd : webrtc.SessionDescription)
| CallAddICECandidate (candidate : webrtc.ICECandidateInit)
| CallAddICECandidateAct (remoteDescriptionWasNil : bool)
                         (candidate : webrtc.ICECandidateInit)
| CallSignalStateCheckTimerFired (negotiateVersion : Z)
| CallICEGatheringStateChange (state : webrtc.ICEGatheringState)
| CallOnOffer
| CallOnNegotiationFailed_
| CallOnRemoteDescripitonSettled_ (returns : option error)
| CallAddNegotiationPending (publisherID : string)
| CallSetPreferTCP (flag : bool)
| StackChanged (pc1 : PC).

Definition call (c : Call) (t : PCTransport) : Result :=
  match c with
  | CallNegotiate force => Negotiate force t
  | CallDebouncedNegotiateFired => debouncedNegotiateFired t
  | CallSetRemoteDescription sd => SetRemoteDescription sd t
  | CallAddICECandidate candidate => AddICECandidate candidate t
  | CallAddICECandidateAct wasNil candidate =>
      AddICECandidate_act wasNil candidate t
  | CallSignalStateCheckTimerFired n => signalStateCheckTimerFired n t
  | CallICEGatheringStateChange state => onICEGatheringStateChange state t
  | CallOnOffer => mkResult (OnOffer t) [] None
  | CallOnNegotiationFailed_ => mkResult (OnNegotiationFailed t) [] None
  | CallOnRemoteDescripitonSettled_ returns =>
      mkResult (OnRemoteDescripitonSettled returns t) [] None
  | CallAddNegotiationPending publisherID =>
      mkResult (AddNegotiationPending publisherID t) [] None
  | CallSetPreferTCP flag => mkResult (SetPreferTCP flag t) [] None
  | StackChanged pc1 => mkResult (set_pc pc1 t) [] None
  end.

(** The transport after a sequence of calls, and everything it did. *)
Fixpoint run (cs : list Call) (t : PCTransport) : PCTransport * list Event :=
  match cs with
  | [] => (t, [])
  | c :: rest =>
      let r := call c t in
      let '(t', evs) := run rest (next r) in
      (t', trace r ++ evs)
  end.

(** Local offers handed to [onOffer] and not yet followed by a remote
    description that the peer connection accepted. *)
Definition countOutstanding (n : nat) (e : Event) : nat :=
  match e with
  | GoOnOffer _ => S n
  | PcSetRemoteDescription _ None => 0
  | _ => n
  end.

Definition outstandingFrom (n : nat) (evs : list Event) : nat :=
  foldl countOutstanding n evs.

Definition outstandingOffers (evs : list Event) : nat := outstandingFrom 0 evs.

(** A local offer was produced: the peer connection accepted it as its
    local description. *)
Definition isOfferSetLocally (e : Event) : bool :=
  match e with PcSetLocalDescription _ None => true | _ => false end.

Definition producedOffer (evs : list Event) : bool :=
  existsb isOfferSetLocally evs.

Definition isGoOnOffer (e : Event) : bool :=
  match e with GoOnOffer _ => true | _ => false end.

Definition isPcCreateOffer (e : Event) : bool :=
  match e with PcCreateOffer _ _ => true | _ => false end.

Definition isPcAddICECandidate (e : Event) : bool :=
  match e with PcAddICECandidate _ _ => true | _ => false end.

Definition isPcSetRemoteDescription (e : Event) : bool :=
  match e with PcSetRemoteDescription _ _ => true | _ => false end.


(** Two stages of [SetRemoteDescription], named: the transport once the
    connection [pc1] has accepted the description, the credential has been
    stored, the negotiation state reset and the failure timer stopped; and
    the transport once the queued candidates have been applied as well,
    leaving the connection [pc2]. *)
Definition afterAccepted (iceCredential : string) (offerRestartICE : bool)
    (pc1 : PC) (t : PCTransport) : PCTransport :=
  set_signalStateCheckTimer None
    (set_negotiationState negotiationStateNone
       (if String.eqb (currentOfferIceCredential t) "" || offerRestartICE
        then set_currentOfferIceCredential iceCredential (set_pc pc1 t)
        else set_pc pc1 t)).

Definition settled (iceCredential : string) (offerRestartICE : bool)
    (pc1 pc2 : PC) (t : PCTransport) : PCTransport :=
  set_pendingCandidates []
    (set_pc pc2 (afterAccepted iceCredential offerRestartICE pc1 t)).

(** The five ways [SetRemoteDescription] can end. *)
Inductive Outcome (sd : webrtc.SessionDescription) (t : PCTransport)
  : Result → Prop :=
| CheckFailed (e : webrtc.Error) :
    Outcome sd t (mkResult t [] (Some (StackError e)))
| Deferred :
    Outcome sd t (mkResult (set_pendingRestartIceOffer (Some sd) t) [] None)
| Refused (pc1 : PC) (e : webrtc.Error) :
    Outcome sd t (mkResult (set_pc pc1 t)
                           [PcSetRemoteDescription sd (Some e)]
                           (Some (StackError e)))
| CandidateRefused (iceCredential : string) (offerRestartICE : bool)
    (pc1 pc2 : PC) (applied rest : list webrtc.ICECandidateInit)
    (c : webrtc.ICECandidateInit) (e : webrtc.Error) :
    pendingCandidates t = applied ++ c :: rest →
    Outcome sd t
      (mkResult (set_pc pc2 (afterAccepted iceCredential offerRestartICE pc1 t))
                (PcSetRemoteDescription sd None
                 :: map (fun c => PcAddICECandidate c None) applied
                 ++ [PcAddICECandidate c (Some e)])
                (Some (StackError e)))
| Settled (iceCredential : string) (offerRestartICE : bool) (pc1 pc2 : PC)
    (again : Result) (settledEvent : list Event) :
    again = (if bool_decide (negotiationState t = negotiationRetry)
                && bool_decide (webrtc.Type_ sd = webrtc.SDPTypeAnswer)
             then createAndSendOffer None
                    (settled iceCredential offerRestartICE pc1 pc2 t)
             else mkResult (settled iceCredential offerRestartICE pc1 pc2 t)
                           [] None) →
    (settledEvent = [] ∧ onRemoteDescripitonSettled (next again) = None)
    ∨ settledEvent = [CallOnRemoteDescripitonSettled] →
    ∀ ret,
    (settledEvent = [] → ret = None) →
    Outcome sd t
      (mkResult (next again)
                (PcSetRemoteDescription sd None
                 :: map (fun c => PcAddICECandidate c None)
                        (pendingCandidates t)
                 ++ trace again ++ settledEvent)
                ret).

(** [IsNegotiationPending]: the value the map holds for the key, false when
    the key is absent. *)
Definition IsNegotiationPending (publisherID : string) (t : PCTransport)
  : bool :=
  bool_decide (publisherID ∈ negotiationPending t).

(** Number of local offers produced. *)
Definition offersProduced (evs : list Event) : nat :=
  length (List.filter isOfferSetLocally evs).

Definition isCallOnOffer (c : Call) : bool :=
  match c with CallOnOffer => true | _ => false end.

Definition candidateOf (e : Event) : option webrtc.ICECandidateInit :=
  match e with PcAddICECandidate c _ => Some c | _ => None end.

(** What one call does to the negotiation counter and the failure timer. *)
Definition epochStep (t : PCTransport) (r : Result) : Prop :=
  (offersProduced (trace r) = 0%nat
   ∧ negotiateCounter (next r) = negotiateCounter t
   ∧ (signalStateCheckTimer (next r) = signalStateCheckTimer t
      ∨ signalStateCheckTimer (next r) = None))
  ∨ (offersProduced (trace r) = 1%nat
     ∧ negotiateCounter (next r) = wrapInt32 (negotiateCounter t + 1)
     ∧ signalStateCheckTimer (next r) = Some (negotiateCounter (next r))).

(** A trace in which the connection is neither asked for an offer nor
    given a local description, and no offer is handed out. *)
Definition quiet (evs : list Event) : bool :=
  forallb (fun e => negb (isPcCreateOffer e) && negb (isGoOnOffer e)
                    && negb (match e with
                             | PcSetLocalDescription _ _ => true
                             | _ => false
                             end)) evs.

(** No ICE restart is pending: the state in which [Negotiate] and
    [SetRemoteDescription] leave a transport. *)
Definition noRestartPending (t : PCTransport) : Prop :=
  restartAtNextOffer t = false ∧ restartAfterGathering t = false.

(** The negotiation state agrees with the number [n] of outstanding
    offers. *)
Definition stateCounts (t : PCTransport) (n : nat) : Prop :=
  (negotiationState t = negotiationStateNone ∧ n = 0%nat)
  ∨ (negotiationState t ≠ negotiationStateNone ∧ n = 1%nat).


End Transport.

Arguments PCTransport PC : clear implicits.
Arguments Result PC : clear implicits.
Arguments Call PC : clear implicits.

End rtc.

(* ===================================================================== *)
(** * A scripted peer connection, used to run the transport on examples *)
(* ===================================================================== *)

Module TestStack.

(** The connection remembers what it was given.  It rejects an empty SDP
    and an empty candidate, refuses to create offers once closed, and starts
    gathering when it is first given a local description.  Its SDP "parser"
    reads the text of a description as the ICE user fragment of a session
    without media. *)
Record TestPC : Type := mkTestPC {
  remote : option webrtc.SessionDescription;
  current : option webrtc.SessionDescription;
  local_ : option webrtc.SessionDescription;
  connection : webrtc.PeerConnectionState;
  gathering : webrtc.ICEGatheringState;
  candidates : list webrtc.ICECandidateInit;
  offers : nat
}.

Definition setRemote (p : TestPC) (sd : webrtc.SessionDescription)
  : TestPC * option webrtc.Error :=
  if String.eqb (webrtc.SDP sd) ""
  then (p, Some (webrtc.ErrOther "empty SDP"))
  else ({| remote := Some sd; current := Some sd; local_ := local_ p;
           connection := connection p; gathering := gathering p;
           candidates := candidates p; offers := offers p |}, None).

Definition addCandidate (p : TestPC) (c : webrtc.ICECandidateInit)
  : TestPC * option webrtc.Error :=
  if String.eqb (webrtc.Candidate c) ""
  then (p, Some (webrtc.ErrOther "empty candidate"))
  else ({| remote := remote p; current := current p; local_ := local_ p;
           connection := connection p; gathering := gathering p;
           candidates := candidates p ++ [c]; offers := offers p |}, None).

Definition createOffer (p : TestPC) (options : option webrtc.OfferOptions)
  : TestPC * (webrtc.SessionDescription + webrtc.Error) :=
  if bool_decide (connection p = webrtc.PeerConnectionStateClosed)
  then (p, inr (webrtc.ErrOther "connection closed"))
  else ({| remote := remote p; current := current p; local_ := local_ p;
           connection := connection p; gathering := gathering p;
           candidates := candidates p; offers := S (offers p) |},
        inl {| webrtc.Type_ := webrtc.SDPTypeOffer;
               webrtc.SDP := "server-ufrag" |}).

Definition setLocal (p : TestPC) (sd : webrtc.SessionDescription)
  : TestPC * option webrtc.Error :=
  ({| remote := remote p; current := current p; local_ := Some sd;
      connection := connection p;
      gathering := if bool_decide (gathering p = webrtc.ICEGatheringStateNew)
                   then webrtc.ICEGatheringStateGathering else gathering p;
      candidates := candidates p; offers := offers p |}, None).

Definition unmarshal (sd : webrtc.SessionDescription)
  : sdp.SessionDescription + webrtc.Error :=
  if String.eqb (webrtc.SDP sd) ""
  then inr (webrtc.ErrOther "EOF")
  else inl {| sdp.Attributes :=
                [ {| sdp.Key := "ice-ufrag"; sdp.Value := webrtc.SDP sd |};
                  {| sdp.Key := "ice-pwd"; sdp.Value := "pwd" |} ];
              sdp.MediaDescriptions := [] |}.

Definition marshal (desc : sdp.SessionDescription) : string + webrtc.Error :=
  match sdp.Attribute_of desc "ice-ufrag" with
  | Some ufrag => inl ufrag
  | None => inr (webrtc.ErrOther "no origin")
  end.

#[global] Instance TestPC_PeerConnection : webrtc.PeerConnection TestPC :=
  {| webrtc.RemoteDescription := remote;
     webrtc.CurrentRemoteDescription := current;
     webrtc.LocalDescription := local_;
     webrtc.ConnectionState := connection;
     webrtc.ICEGatheringState_of := gathering;
     webrtc.SetRemoteDescription := setRemote;
     webrtc.AddICECandidate := addCandidate;
     webrtc.CreateOffer := createOffer;
     webrtc.SetLocalDescription := setLocal;
     webrtc.Unmarshal := unmarshal;
     webrtc.Marshal := marshal |}.

(** A new connection, and the transport around it with both callbacks
    registered. *)
Definition newPC : TestPC :=
  {| remote := None; current := None; local_ := None;
     connection := webrtc.PeerConnectionStateNew;
     gathering := webrtc.ICEGatheringStateNew;
     candidates := []; offers := 0 |}.

Definition newTransport : rtc.PCTransport TestPC :=
  rtc.OnNegotiationFailed (rtc.OnOffer (rtc.NewPCTransport newPC)).

(** The connection once gathering has finished. *)
Definition completePC (p : TestPC) : TestPC :=
  {| remote := remote p; current := current p; local_ := local_ p;
     connection := connection p;
     gathering := webrtc.ICEGatheringStateComplete;
     candidates := candidates p; offers := offers p |}.

Definition answer (text : string) : webrtc.SessionDescription :=
  {| webrtc.Type_ := webrtc.SDPTypeAnswer; webrtc.SDP := text |}.

Definition remoteOffer (text : string) : webrtc.SessionDescription :=
  {| webrtc.Type_ := webrtc.SDPTypeOffer; webrtc.SDP := text |}.

Definition candidate (text : string) : webrtc.ICECandidateInit :=
  {| webrtc.Candidate := text |}.

(** The server offered, the client answered; the connection is still
    gathering and no remote offer has been seen, so no credential is
    stored. *)
Definition answeredWhileGathering : rtc.PCTransport TestPC :=
  (rtc.run [rtc.CallNegotiate true;
            rtc.CallSetRemoteDescription (answer "a1")]
           newTransport).1.

(** As before, and the client's offer [u1] has been accepted since. *)
Definition restartedWhileGathering : rtc.PCTransport TestPC :=
  (rtc.run [rtc.CallNegotiate true;
            rtc.CallSetRemoteDescription (answer "a1");
            rtc.CallSetRemoteDescription (remoteOffer "u1")]
           newTransport).1.

(** A transport marked as waiting for an answer although its connection has
    no description at all. *)
Definition awaitingAnswerNoLocal : rtc.PCTransport TestPC :=
  rtc.set_negotiationState rtc.negotiationStateClient newTransport.

(** A transport with a second negotiation queued behind the offer it sent,
    and two candidates that arrived before any remote description. *)
Definition retryQueued : rtc.PCTransport TestPC :=
  (rtc.run [rtc.CallAddICECandidate (candidate "c1");
            rtc.CallAddICECandidate (candidate "c2");
            rtc.CallNegotiate true;
            rtc.CallNegotiate true]
           newTransport).1.

(** The client's second offer [u2], with a new credential, arrives while
    the connection is still gathering; then gathering completes. *)
Definition restartOfferThenComplete : list (rtc.Call TestPC) :=
  [rtc.CallSetRemoteDescription (remoteOffer "u2");
   rtc.StackChanged (completePC (rtc.pc restartedWhileGathering));
   rtc.CallICEGatheringStateChange webrtc.ICEGatheringStateComplete].




(** The server has sent its first offer; no remote description yet. *)
Definition offered : rtc.PCTransport TestPC :=
  (rtc.run [rtc.CallNegotiate true] newTransport).1.

(** What the scripted parser makes of the offer [u1]. *)
Definition parsedOffer : sdp.SessionDescription :=
  {| sdp.Attributes := [ {| sdp.Key := "ice-ufrag"; sdp.Value := "u1" |};
                         {| sdp.Key := "ice-pwd"; sdp.Value := "pwd" |} ];
     sdp.MediaDescriptions := [] |}.

(** A transport asked to restart ICE with its next offer. *)
Definition restartRequested : rtc.PCTransport TestPC :=
  rtc.set_restartAtNextOffer true newTransport.

(** After the client's offer [u1] was accepted and gathering finished, the
    server has sent a new offer and waits for the answer. *)
Definition renegotiatingAfterGathering : rtc.PCTransport TestPC :=
  (rtc.run [rtc.StackChanged (completePC (rtc.pc restartedWhileGathering));
            rtc.CallNegotiate true]
           restartedWhileGathering).1.

(** Three candidates arrived before any remote description, the second of
    which the connection will refuse; the server has sent its offer. *)
Definition refusedCandidateQueued : rtc.PCTransport TestPC :=
  (rtc.run [rtc.CallAddICECandidate (candidate "c1");
            rtc.CallAddICECandidate (candidate "");
            rtc.CallAddICECandidate (candidate "c2");
            rtc.CallNegotiate true]
           newTransport).1.

(** The offer the scripted connection creates. *)
Definition serverOffer : webrtc.SessionDescription :=
  {| webrtc.Type_ := webrtc.SDPTypeOffer; webrtc.SDP := "server-ufrag" |}.

End TestStack.

(** Descriptions used as examples. *)
Module SDPExamples.

(** A description carrying one fingerprint at session level and the same in
    its media description. *)
Definition fingerprint_sdp : sdp.SessionDescription :=
  {| sdp.Attributes := [ {| sdp.Key := "fingerprint";
                            sdp.Value := "sha-256 AB:CD" |} ];
     sdp.MediaDescriptions :=
       [ {| sdp.Media := "audio";
            sdp.MediaAttributes := [ {| sdp.Key := "fingerprint";
                                        sdp.Value := "sha-256 AB:CD" |} ] |} ] |}.

(** A UDP host candidate whose address happens to contain "tcp". *)
Definition udp_candidate : sdp.Attribute :=
  {| sdp.Key := "candidate";
     sdp.Value := "1 1 udp 2130706431 tcp-gw.example.org 3478 typ host" |}.

Definition udp_candidate_sdp : sdp.SessionDescription :=
  {| sdp.Attributes := [];
     sdp.MediaDescriptions :=
       [ {| sdp.Media := "video";
            sdp.MediaAttributes := [ {| sdp.Key := "mid"; sdp.Value := "0" |};
                                     udp_candidate ] |} ] |}.

(** A description with another fingerprint, in a media description that
    takes the passive role. *)
Definition other_fingerprint_sdp : sdp.SessionDescription :=
  {| sdp.Attributes := [];
     sdp.MediaDescriptions :=
       [ {| sdp.Media := "video";
            sdp.MediaAttributes := [ {| sdp.Key := "mid"; sdp.Value := "0" |};
                                     {| sdp.Key := "fingerprint";
                                        sdp.Value := "sha-256 11:22" |};
                                     {| sdp.Key := "setup";
                                        sdp.Value := "passive" |} ] |} ] |}.
(** A media description carrying two [mid] attributes. *)
Definition two_mids : sdp.MediaDescription :=
  {| sdp.Media := "audio";
     sdp.MediaAttributes := [ {| sdp.Key := "setup"; sdp.Value := "active" |};
                              {| sdp.Key := "mid"; sdp.Value := "1" |};
                              {| sdp.Key := "mid"; sdp.Value := "2" |} ] |}.

End SDPExamples.

(* ===================================================================== *)
(** * Properties of the dynacast quality aggregator *)
(* ===================================================================== *)

Section DynacastFacts.
Import Dynacast.

(** The loop body picks the larger of its two arguments in the order
    OFF < LOW < MEDIUM < HIGH, although OFF carries the largest number. *)
Lemma qualityStep_rank (m q : VideoQuality) :
  qualityStep m q = if (quality_rank m <? quality_rank q)%nat then q else m.
Proof. destruct m, q; reflexivity. Qed.

Lemma qualityStep_cases (m q : VideoQuality) :
  (qualityStep m q = m ∧ (quality_rank q ≤ quality_rank m)%nat)
  ∨ (qualityStep m q = q ∧ (quality_rank m ≤ quality_rank q)%nat).
Proof. destruct m, q; cbn; auto with lia. Qed.

Lemma quality_rank_inj (a b : VideoQuality) :
  quality_rank a = quality_rank b → a = b.
Proof. destruct a, b; cbn; congruence. Qed.

Lemma rangeLoop_bounds (l : list VideoQuality) (start : VideoQuality) :
  (rangeLoop start l = start ∨ rangeLoop start l ∈ l)
  ∧ (quality_rank start ≤ quality_rank (rangeLoop start l))%nat
  ∧ ∀ q, q ∈ l → (quality_rank q ≤ quality_rank (rangeLoop start l))%nat.
Proof.
  revert start. induction l as [|x l IH]; intros start; cbn.
  - split; [by left|]. split; [lia|]. intros q Hq. by apply elem_of_nil in Hq.
  - destruct (IH (qualityStep start x)) as (Hin & Hge & Hall).
    fold (rangeLoop (qualityStep start x) l) in *.
    destruct (qualityStep_cases start x) as [[E Hr]|[E Hr]]; rewrite E in *.
    + split; [destruct Hin; [by left|right; by apply elem_of_cons; right]|].
      split; [done|]. intros q [->|Hq]%elem_of_cons; [lia|by apply Hall].
    + split; [right; apply elem_of_cons; destruct Hin as [->|?]; auto|].
      split; [lia|]. intros q [->|Hq]%elem_of_cons; [lia|by apply Hall].
Qed.

Lemma elem_of_values (m : gmap string VideoQuality) (q : VideoQuality) :
  q ∈ values m ↔ ∃ k, m !! k = Some q.
Proof.
  unfold values. rewrite list_elem_of_fmap. split.
  - intros ([k v] & -> & Hkv). exists k. by apply elem_of_map_to_list in Hkv.
  - intros (k & Hk). exists (k, q). split; [done|]. by apply elem_of_map_to_list.
Qed.

Lemma values_empty_inv (m : gmap string VideoQuality) :
  values m = [] → m = ∅.
Proof.
  unfold values. intros H. apply fmap_nil_inv in H.
  by apply map_to_list_empty_iff.
Qed.

(** The two loops, run over any enumeration of the two maps, end on a
    maximum of the stored values. *)
Lemma loops_max (d : DynacastQuality) (ls ln : list VideoQuality) :
  ls ≡ₚ values (maxSubscriberQuality d) →
  ln ≡ₚ values (maxSubscriberNodeQuality d) →
  is_max_quality d (rangeLoop (rangeLoop VideoQuality_OFF ls) ln).
Proof.
  intros Hs Hn.
  assert (Hmem : ∀ q, q ∈ ls ++ ln ↔ stored d q).
  { intros q. rewrite elem_of_app, Hs, Hn, !elem_of_values. done. }
  assert (Hloop : rangeLoop (rangeLoop VideoQuality_OFF ls) ln
                  = rangeLoop VideoQuality_OFF (ls ++ ln)).
  { unfold rangeLoop. by rewrite foldl_app. }
  rewrite Hloop.
  destruct (rangeLoop_bounds (ls ++ ln) VideoQuality_OFF) as (Hin & _ & Hall).
  set (a := rangeLoop VideoQuality_OFF (ls ++ ln)) in *.
  destruct (ls ++ ln) as [|x l] eqn:El.
  - left. apply app_eq_nil in El as [-> ->].
    apply Permutation_nil_l in Hs, Hn.
    split; [by apply values_empty_inv|]. split; [by apply values_empty_inv|].
    done.
  - right. split.
    + apply Hmem. destruct Hin as [Ha|Ha]; [|done].
      assert (Hx : (quality_rank x ≤ quality_rank a)%nat)
        by (apply Hall, elem_of_cons; by left).
      rewrite Ha in Hx. assert (x = VideoQuality_OFF) as ->
        by (apply quality_rank_inj; cbn in *; lia).
      rewrite Ha. apply elem_of_cons; by left.
    + intros q Hq. apply Hall, Hmem, Hq.
Qed.

Lemma is_max_quality_unique (d : DynacastQuality) (a b : VideoQuality) :
  is_max_quality d a → is_max_quality d b → a = b.
Proof.
  intros [(Es & En & ->)|(Ha & Hamax)] [(Es' & En' & ->)|(Hb & Hbmax)].
  - done.
  - destruct Hb as [(k & Hk)|(k & Hk)].
    + rewrite Es in Hk. by rewrite lookup_empty in Hk.
    + rewrite En in Hk. by rewrite lookup_empty in Hk.
  - destruct Ha as [(k & Hk)|(k & Hk)].
    + rewrite Es' in Hk. by rewrite lookup_empty in Hk.
    + rewrite En' in Hk. by rewrite lookup_empty in Hk.
  - apply quality_rank_inj. specialize (Hamax b Hb). specialize (Hbmax a Ha). lia.
Qed.

(** Enumeration order of the maps is irrelevant to the loops. *)
Lemma rangeLoop_order (d : DynacastQuality) (ls ln : list VideoQuality) :
  ls ≡ₚ values (maxSubscriberQuality d) →
  ln ≡ₚ values (maxSubscriberNodeQuality d) →
  rangeLoop (rangeLoop VideoQuality_OFF ls) ln = recompute d.
Proof.
  intros Hs Hn. apply (is_max_quality_unique d).
  - by apply loops_max.
  - by apply loops_max.
Qed.

Lemma recompute_max (d : DynacastQuality) : is_max_quality d (recompute d).
Proof. by apply loops_max. Qed.

Lemma updateQualityChange_maps (d : DynacastQuality) :
  maxSubscriberQuality (updateQualityChange d).1 = maxSubscriberQuality d
  ∧ maxSubscriberNodeQuality (updateQualityChange d).1 = maxSubscriberNodeQuality d.
Proof. unfold updateQualityChange. by case_match. Qed.

(** After a recompute the stored aggregate is the recomputed one. *)
Lemma updateQualityChange_stored (d : DynacastQuality) :
  maxSubscribedQuality (updateQualityChange d).1 = recompute d
  ∧ recompute (updateQualityChange d).1 = recompute d.
Proof.
  unfold updateQualityChange.
  destruct (bool_decide (recompute d = maxSubscribedQuality d) && initialized d) eqn:E; cbn.
  - apply andb_true_iff in E as [E _]. apply bool_decide_eq_true in E. done.
  - done.
Qed.

Lemma call_never_stores_OFF (c : Call) (d : DynacastQuality) :
  never_stores_OFF d → never_stores_OFF (call c d).1.
Proof.
  intros [Hs Hn]. unfold never_stores_OFF.
  destruct c as [k q|k q| | | | |]; cbn;
    unfold NotifySubscriberMaxQuality, NotifySubscriberNodeMaxQuality,
      maxQualityTimerFired;
    try (destruct (updateQualityChange_maps
                 (stopMaxQualityTimer d)) as [-> ->]; done);
    try done.
  - match goal with |- context [updateQualityChange ?x] =>
      destruct (updateQualityChange_maps x) as [-> ->] end; cbn.
    split; [|done]. intros k'. case_bool_decide as Hq.
    + destruct (decide (k = k')) as [->|Hne];
        [by rewrite lookup_delete_eq|by rewrite lookup_delete_ne].
    + destruct (decide (k = k')) as [->|Hne];
        [rewrite lookup_insert_eq; congruence|by rewrite lookup_insert_ne].
  - match goal with |- context [updateQualityChange ?x] =>
      destruct (updateQualityChange_maps x) as [-> ->] end; cbn.
    split; [done|]. intros k'. case_bool_decide as Hq.
    + destruct (decide (k = k')) as [->|Hne];
        [by rewrite lookup_delete_eq|by rewrite lookup_delete_ne].
    + destruct (decide (k = k')) as [->|Hne];
        [rewrite lookup_insert_eq; congruence|by rewrite lookup_insert_ne].
Qed.

Lemma after_snoc (cs : list Call) (c : Call) :
  after (cs ++ [c]) = (call c (after cs)).1.
Proof. unfold after. by rewrite foldl_app. Qed.

Lemma after_never_stores_OFF (cs : list Call) : never_stores_OFF (after cs).
Proof.
  induction cs as [|c cs IH] using rev_ind.
  - split; intros k; cbn; by rewrite lookup_empty.
  - rewrite after_snoc. by apply call_never_stores_OFF.
Qed.

Lemma notify_stored (d : DynacastQuality) :
  let r := updateQualityChange d in
  maxSubscribedQuality r.1 = recompute r.1
  ∧ is_max_quality r.1 (recompute r.1)
  ∧ ∀ a, r.2 = Some a → a = recompute r.1.
Proof.
  cbn. destruct (updateQualityChange_stored d) as [Hst Hre].
  split; [congruence|]. split; [apply recompute_max|].
  intros a Ha. rewrite Hre. unfold updateQualityChange in Ha.
  destruct (bool_decide (recompute d = maxSubscribedQuality d) && initialized d);
    cbn in Ha; [done|]. destruct (onSubscribedMaxQualityChange d); congruence.
Qed.

(** C7.  Whatever calls were made on a fresh aggregator: neither map holds
    OFF (reporting OFF for a key leaves that key absent); the value a
    recompute arrives at is the maximum, in the order OFF < LOW < MEDIUM <
    HIGH, over the union of both maps and OFF when both are empty, in
    whichever order the maps are enumerated; and after either notification
    the stored aggregate, and the value handed to the callback if it is
    invoked, is that maximum over the updated maps. *)
Theorem aggregate_is_max_over_both_maps (cs : list Call) :
  let d := after cs in
  never_stores_OFF d
  ∧ is_max_quality d (recompute d)
  ∧ (∀ ls ln : list VideoQuality,
       ls ≡ₚ values (maxSubscriberQuality d) →
       ln ≡ₚ values (maxSubscriberNodeQuality d) →
       rangeLoop (rangeLoop VideoQuality_OFF ls) ln = recompute d)
  ∧ (∀ k, maxSubscriberQuality
            (NotifySubscriberMaxQuality k VideoQuality_OFF d).1 !! k = None)
  ∧ (∀ k, maxSubscriberNodeQuality
            (NotifySubscriberNodeMaxQuality k VideoQuality_OFF d).1 !! k = None)
  ∧ (∀ k q, let r := NotifySubscriberMaxQuality k q d in
            maxSubscribedQuality r.1 = recompute r.1
            ∧ is_max_quality r.1 (recompute r.1)
            ∧ ∀ a, r.2 = Some a → a = recompute r.1)
  ∧ (∀ k q, let r := NotifySubscriberNodeMaxQuality k q d in
            maxSubscribedQuality r.1 = recompute r.1
            ∧ is_max_quality r.1 (recompute r.1)
            ∧ ∀ a, r.2 = Some a → a = recompute r.1).
Proof.
  cbn. split; [apply after_never_stores_OFF|].
  split; [apply recompute_max|].
  split; [apply rangeLoop_order|].
  split; [|split; [|split]].
  - intros k. unfold NotifySubscriberMaxQuality.
    match goal with |- context [updateQualityChange ?x] =>
      destruct (updateQualityChange_maps x) as [-> _] end; cbn.
    apply lookup_delete_eq.
  - intros k. unfold NotifySubscriberNodeMaxQuality.
    match goal with |- context [updateQualityChange ?x] =>
      destruct (updateQualityChange_maps x) as [_ ->] end; cbn.
    apply lookup_delete_eq.
  - intros k q. apply notify_stored.
  - intros k q. apply notify_stored.
Qed.

(** C8.  With a callback registered, a recompute invokes it, passing the
    recomputed aggregate, exactly when that aggregate differs from the
    stored one or [initialized] is false; when it does not invoke it the
    aggregator is left as it was; and whenever the callback is invoked
    [initialized] is true afterwards and the aggregate passed is the one
    stored. *)
Theorem updateQualityChange_notifies (d : DynacastQuality)
    (Hcb : onSubscribedMaxQualityChange d = true) :
  let r := updateQualityChange d in
  (r.2 = Some (recompute d)
   ↔ recompute d ≠ maxSubscribedQuality d ∨ initialized d = false)
  ∧ (r.2 = None
     ↔ recompute d = maxSubscribedQuality d ∧ initialized d = true)
  ∧ (r.2 = None → r.1 = d)
  ∧ (∀ a, r.2 = Some a →
          a = recompute d
          ∧ initialized r.1 = true
          ∧ maxSubscribedQuality r.1 = a).
Proof.
  cbn. unfold updateQualityChange. rewrite Hcb.
  destruct (decide (recompute d = maxSubscribedQuality d)) as [E|E].
  - rewrite (bool_decide_eq_true_2 _ E). destruct (initialized d); cbn.
    + split; [split; [done|intros [?|?]; done]|].
      split; [done|]. split; [done|]. intros a Ha. done.
    + split; [split; [by right|done]|].
      split; [split; [done|intros [_ ?]; done]|].
      split; [done|]. intros a [= <-]. done.
  - rewrite (bool_decide_eq_false_2 _ E); cbn.
    split; [split; [by left|done]|].
    split; [split; [done|intros [? _]; done]|].
    split; [done|]. intros a [= <-]. done.
Qed.

Lemma updateQualityChange_notifies_witness :
  onSubscribedMaxQualityChange one_medium_subscriber = true
  ∧ ∀ a, (updateQualityChange one_medium_subscriber).2 = Some a →
         a = recompute one_medium_subscriber
         ∧ initialized (updateQualityChange one_medium_subscriber).1 = true
         ∧ maxSubscribedQuality (updateQualityChange one_medium_subscriber).1 = a.
Proof.
  split; [reflexivity|].
  apply (updateQualityChange_notifies one_medium_subscriber). reflexivity.
Defined.

End DynacastFacts.

Section DynacastMore.
Import Dynacast.

Lemma recompute_same_maps (d d' : DynacastQuality) :
  maxSubscriberQuality d' = maxSubscriberQuality d →
  maxSubscriberNodeQuality d' = maxSubscriberNodeQuality d →
  recompute d' = recompute d.
Proof. unfold recompute. by intros -> ->. Qed.

Lemma updateQualityChange_twice (d : DynacastQuality) :
  updateQualityChange (updateQualityChange d).1
  = ((updateQualityChange d).1, None).
Proof.
  destruct (updateQualityChange_stored d) as [Hstored Hre].
  assert (Hinit : initialized (updateQualityChange d).1 = true).
  { unfold updateQualityChange.
    destruct (bool_decide _ && initialized d) eqn:E; cbn; [|done].
    by apply andb_true_iff in E as [_ E]. }
  unfold updateQualityChange at 1.
  rewrite Hinit, Hstored, Hre, bool_decide_eq_true_2; done.
Qed.

(** X17.  A recompute brings the aggregator to rest: recomputing again
    with the maps unchanged invokes nothing and changes nothing.  [Start]
    and [Restart] leave the maps alone, store HIGH as the aggregate, clear
    [initialized] and arm the timer; the first recompute after them invokes
    a registered callback whatever the aggregate is.  When the timer fires
    it is disarmed and a recompute is made, which is silent if a
    notification has been processed since the start. *)
Theorem recompute_settles (d : DynacastQuality) :
  updateQualityChange (updateQualityChange d).1
  = ((updateQualityChange d).1, None)
  ∧ (MaxSubscribedQuality (Start d) = VideoQuality_HIGH
     ∧ initialized (Start d) = false
     ∧ maxQualityTimer (Start d) = true
     ∧ maxSubscriberQuality (Start d) = maxSubscriberQuality d
     ∧ maxSubscriberNodeQuality (Start d) = maxSubscriberNodeQuality d
     ∧ Restart d = Start d)
  ∧ (onSubscribedMaxQualityChange d = true →
     (updateQualityChange (Start d)).2 = Some (recompute d))
  ∧ (maxQualityTimer (maxQualityTimerFired d).1 = false
     ∧ maxQualityTimer (Stop d) = false)
  ∧ (∀ k q,
       (maxQualityTimerFired (NotifySubscriberMaxQuality k q (Start d)).1).2
       = None
       ∧ (maxQualityTimerFired
            (NotifySubscriberNodeMaxQuality k q (Start d)).1).2 = None).
Proof.
  split; [apply updateQualityChange_twice|].
  split; [done|].
  split.
  { intros Hcb. unfold updateQualityChange, Start, reset; cbn.
    rewrite andb_false_r, Hcb. done. }
  split.
  { split; [|done]. unfold maxQualityTimerFired, updateQualityChange.
    by case_match. }
  assert (Hsilent : ∀ x, (maxQualityTimerFired (updateQualityChange x).1).2
                         = None).
  { intros x. unfold maxQualityTimerFired.
    destruct (updateQualityChange_stored x) as [Hstored Hre].
    assert (Hinit : initialized (updateQualityChange x).1 = true).
    { unfold updateQualityChange.
      destruct (bool_decide _ && initialized x) eqn:E; cbn; [|done].
      by apply andb_true_iff in E as [_ E]. }
    unfold updateQualityChange at 1. cbn.
    assert (recompute (stopMaxQualityTimer (updateQualityChange x).1)
            = recompute (updateQualityChange x).1) as ->
      by (by apply recompute_same_maps).
    rewrite Hinit, Hstored, bool_decide_eq_true_2; done. }
  intros k q. split; apply Hsilent.
Qed.

Lemma is_max_quality_same_maps (d d' : DynacastQuality) (a : VideoQuality) :
  maxSubscriberQuality d' = maxSubscriberQuality d →
  maxSubscriberNodeQuality d' = maxSubscriberNodeQuality d →
  is_max_quality d a → is_max_quality d' a.
Proof. unfold is_max_quality, stored. by intros -> ->. Qed.

Lemma stored_dec_empty (d : DynacastQuality) (a : VideoQuality) :
  is_max_quality d a →
  ∀ q, stored d q → (quality_rank q ≤ quality_rank a)%nat.
Proof.
  intros [(Es & En & ->)|(_ & Hmax)] q Hq; [|by apply Hmax].
  destruct Hq as [(k & Hk)|(k & Hk)].
  - rewrite Es in Hk. by rewrite lookup_empty in Hk.
  - rewrite En in Hk. by rewrite lookup_empty in Hk.
Qed.

Lemma is_max_quality_stored_or_OFF (d : DynacastQuality) (a : VideoQuality) :
  is_max_quality d a → a = VideoQuality_OFF ∨ stored d a.
Proof. intros [(_ & _ & ->)|(Ha & _)]; auto. Qed.

(** X18.  Take an aggregator whose stored aggregate is up to date with
    its maps, as every recompute leaves it (right after [Start] or
    [Restart] it is not: HIGH is stored whatever the maps hold).  A
    subscriber that was not yet known and reports a quality other than OFF
    raises the stored aggregate to the larger of the aggregate stored
    before and its quality (in the order OFF < LOW < MEDIUM < HIGH) and
    leaves the node map alone; when it then reports OFF, the subscriber map
    and the stored aggregate are what they were before it joined. *)
Theorem subscriber_joins_and_leaves (d : DynacastQuality) (k : string)
    (q : VideoQuality)
    (Hsync : MaxSubscribedQuality d = recompute d)
    (Hnew : maxSubscriberQuality d !! k = None)
    (Hq : q ≠ VideoQuality_OFF) :
  let d1 := (NotifySubscriberMaxQuality k q d).1 in
  let d2 := (NotifySubscriberMaxQuality k VideoQuality_OFF d1).1 in
  maxSubscriberQuality d1 !! k = Some q
  ∧ maxSubscriberNodeQuality d1 = maxSubscriberNodeQuality d
  ∧ quality_rank (MaxSubscribedQuality d1)
    = (quality_rank (MaxSubscribedQuality d) `max` quality_rank q)%nat
  ∧ MaxSubscribedQuality d1 = recompute d1
  ∧ maxSubscriberQuality d2 = maxSubscriberQuality d
  ∧ maxSubscriberNodeQuality d2 = maxSubscriberNodeQuality d
  ∧ MaxSubscribedQuality d2 = MaxSubscribedQuality d
  ∧ MaxSubscribedQuality d2 = recompute d2
  ∧ (∀ d0, MaxSubscribedQuality (updateQualityChange d0).1
           = recompute (updateQualityChange d0).1).
Proof.
  cbn. unfold NotifySubscriberMaxQuality, MaxSubscribedQuality in *.
  rewrite (bool_decide_eq_false_2 _ Hq), (bool_decide_eq_true_2 _ eq_refl).
  set (x1 := mkDynacastQuality _ (<[k:=q]> _) _ _ _ _).
  destruct (updateQualityChange_maps x1) as [Hs1 Hn1].
  destruct (updateQualityChange_stored x1) as [Hst1 Hre1].
  set (d1 := (updateQualityChange x1).1) in *.
  set (x2 := mkDynacastQuality _ (delete k _) _ _ _ _).
  destruct (updateQualityChange_maps x2) as [Hs2 Hn2].
  destruct (updateQualityChange_stored x2) as [Hst2 Hre2].
  assert (Es2 : maxSubscriberQuality x2 = maxSubscriberQuality d).
  { subst x2; cbn. rewrite Hs1. subst x1; cbn.
    rewrite delete_insert_eq. by apply delete_id. }
  assert (En2 : maxSubscriberNodeQuality x2 = maxSubscriberNodeQuality d).
  { subst x2; cbn. by rewrite Hn1. }
  split; [rewrite Hs1; subst x1; cbn; apply lookup_insert_eq|].
  split; [by rewrite Hn1|].
  split.
  { rewrite Hst1, Hsync.
    pose proof (recompute_max d) as Ha. pose proof (recompute_max x1) as Hb.
    assert (Hstored : ∀ v, stored x1 v ↔ stored d v ∨ v = q).
    { intros v. unfold stored; subst x1; cbn. split.
      - intros [(k' & Hk')|Hn]; [|by left; right].
        destruct (decide (k = k')) as [->|Hne].
        + rewrite lookup_insert_eq in Hk'. right. congruence.
        + rewrite lookup_insert_ne in Hk' by done. left; left. by exists k'.
      - intros [[(k' & Hk')|Hn]| ->]; [|by right|].
        + left. exists k'. rewrite lookup_insert_ne; [done|]. congruence.
        + left. exists k. apply lookup_insert_eq. }
    assert (Hqb : (quality_rank q ≤ quality_rank (recompute x1))%nat).
    { apply (stored_dec_empty x1); [done|]. apply Hstored. by right. }
    assert (Hab : (quality_rank (recompute d)
                   ≤ quality_rank (recompute x1))%nat).
    { destruct (is_max_quality_stored_or_OFF _ _ Ha) as [->|Hsa];
        [cbn; lia|].
      apply (stored_dec_empty x1); [done|]. apply Hstored. by left. }
    assert (Hba : (quality_rank (recompute x1)
                   ≤ quality_rank (recompute d) `max` quality_rank q)%nat).
    { destruct (is_max_quality_stored_or_OFF _ _ Hb) as [->|Hsb];
        [cbn; lia|].
      apply Hstored in Hsb as [Hsb| ->]; [|lia].
      pose proof (stored_dec_empty d _ Ha _ Hsb). lia. }
    lia. }
  split; [by rewrite Hst1, Hre1|].
  split; [by rewrite Hs2|]. split; [by rewrite Hn2|].
  split; [rewrite Hst2, Hsync; by apply recompute_same_maps|].
  split; [by rewrite Hst2, Hre2|].
  intros d0. destruct (updateQualityChange_stored d0) as [-> ->]. done.
Qed.

Lemma subscriber_joins_and_leaves_witness :
  let d := (updateQualityChange one_medium_subscriber).1 in
  let d1 := (NotifySubscriberMaxQuality "PA_bob" VideoQuality_HIGH d).1 in
  let d2 := (NotifySubscriberMaxQuality "PA_bob" VideoQuality_OFF d1).1 in
  MaxSubscribedQuality d = VideoQuality_MEDIUM
  ∧ quality_rank (MaxSubscribedQuality d1)
    = (quality_rank (MaxSubscribedQuality d)
       `max` quality_rank VideoQuality_HIGH)%nat
  ∧ maxSubscriberQuality d2 = maxSubscriberQuality d
  ∧ MaxSubscribedQuality d2 = MaxSubscribedQuality d.
Proof.
  cbn zeta. split; [reflexivity|].
  destruct (subscriber_joins_and_leaves
              (updateQualityChange one_medium_subscriber).1 "PA_bob"
              VideoQuality_HIGH)
    as (_ & _ & Hjoin & _ & Hmap & _ & Hleave & _);
    [reflexivity|reflexivity|discriminate|].
  split; [exact Hjoin|]. split; [exact Hmap|exact Hleave].
Defined.

End DynacastMore.

(* ===================================================================== *)
(** * Properties of the SDP helpers *)
(* ===================================================================== *)

Section SDPFacts.
Import rtc SDPExamples.

Lemma Split1_noSpace (s : string) :
  noSpace s → strings.Split1 " " s = [s].
Proof.
  induction s as [|c s IH]; intros Hs; [done|].
  cbn. destruct (Ascii.eqb c " ") eqn:E.
  - apply Ascii.eqb_eq in E. exfalso. apply (Hs c); [|done].
    cbn. apply elem_of_cons; by left.
  - rewrite IH; [done|]. intros c' Hc'. apply Hs. cbn.
    apply elem_of_cons; by right.
Qed.

(** A value made of two fields around one space splits into those two. *)
Lemma Split_space_two (algorithm hash : string) :
  noSpace algorithm → noSpace hash →
  strings.Split_space (algorithm +:+ " " +:+ hash) = [algorithm; hash].
Proof.
  unfold strings.Split_space. intros Ha Hh.
  induction algorithm as [|c a IH].
  - change ("" +:+ " " +:+ hash) with (String " " hash). cbn.
    rewrite Split1_noSpace; [reflexivity|exact Hh].
  - change (String c a +:+ " " +:+ hash) with (String c (a +:+ " " +:+ hash)).
    cbn. destruct (Ascii.eqb c " ") eqn:E.
    + apply Ascii.eqb_eq in E. exfalso. apply (Ha c); [|done].
      cbn. apply elem_of_cons; by left.
    + rewrite IH; [done|]. intros c' Hc'. apply Ha. cbn.
      apply elem_of_cons; by right.
Qed.

Lemma forallb_eqb_true (first : string) (l : list string) :
  forallb (fun m => String.eqb m first) l = true ↔ ∀ f, f ∈ l → f = first.
Proof.
  rewrite forallb_forall. split.
  - intros H f Hf. apply String.eqb_eq, H. by apply list_elem_of_In.
  - intros H f Hf. apply String.eqb_eq, H. by apply list_elem_of_In.
Qed.

(** C9, as stated, fails: for the fingerprint attribute [sha-256 AB:CD] the
    function returns the hash first and the algorithm second, not the pair
    (algorithm, hash). *)
Lemma extractFingerprint_hash_comes_first :
  collectFingerprints fingerprint_sdp = ["sha-256 AB:CD"; "sha-256 AB:CD"]
  ∧ extractFingerprint fingerprint_sdp = inl ("AB:CD", "sha-256")
  ∧ extractFingerprint fingerprint_sdp ≠ inl ("sha-256", "AB:CD").
Proof. split; [reflexivity|]. split; [reflexivity|]. discriminate. Qed.

(** C9, amended.  [extractFingerprint] collects the first fingerprint
    attribute of the session level and of every media description.  With
    none collected it fails with NoFingerprint; when a collected value
    differs from the first it fails with ConflictingFingerprints; when all
    agree and the value does not split at spaces into exactly two fields it
    fails with InvalidFingerprint; when all agree on [algorithm hash] it
    returns the pair (hash, algorithm). *)
Theorem extractFingerprint_spec (desc : sdp.SessionDescription) :
  (collectFingerprints desc = [] →
   extractFingerprint desc = inr webrtc.ErrSessionDescriptionNoFingerprint)
  ∧ (∀ first rest, collectFingerprints desc = first :: rest →
       (∃ f, f ∈ rest ∧ f ≠ first) →
       extractFingerprint desc
       = inr webrtc.ErrSessionDescriptionConflictingFingerprints)
  ∧ (∀ first rest, collectFingerprints desc = first :: rest →
       (∀ f, f ∈ rest → f = first) →
       length (strings.Split_space first) ≠ 2%nat →
       extractFingerprint desc
       = inr webrtc.ErrSessionDescriptionInvalidFingerprint)
  ∧ (∀ first rest algorithm hash, collectFingerprints desc = first :: rest →
       (∀ f, f ∈ rest → f = first) →
       strings.Split_space first = [algorithm; hash] →
       extractFingerprint desc = inl (hash, algorithm))
  ∧ (∀ first rest algorithm hash, collectFingerprints desc = first :: rest →
       (∀ f, f ∈ rest → f = first) →
       noSpace algorithm → noSpace hash →
       first = algorithm +:+ " " +:+ hash →
       extractFingerprint desc = inl (hash, algorithm)).
Proof.
  assert (Hagree : ∀ first rest algorithm hash,
             collectFingerprints desc = first :: rest →
             (∀ f, f ∈ rest → f = first) →
             strings.Split_space first = [algorithm; hash] →
             extractFingerprint desc = inl (hash, algorithm)).
  { intros first rest algorithm hash E Hall Hsplit.
    unfold extractFingerprint. rewrite E.
    assert (forallb (fun m => String.eqb m first) (first :: rest) = true) as ->.
    { apply forallb_eqb_true. intros f [->|Hf]%elem_of_cons; auto. }
    by rewrite Hsplit. }
  split; [|split; [|split; [|split]]].
  - intros E. unfold extractFingerprint. by rewrite E.
  - intros first rest E (f & Hf & Hne). unfold extractFingerprint. rewrite E.
    destruct (forallb (fun m => String.eqb m first) (first :: rest)) eqn:Hall;
      [|done].
    exfalso. apply Hne. rewrite forallb_eqb_true in Hall. apply Hall.
    apply elem_of_cons; by right.
  - intros first rest E Hall Hlen. unfold extractFingerprint. rewrite E.
    assert (forallb (fun m => String.eqb m first) (first :: rest) = true) as ->.
    { apply forallb_eqb_true. intros f [->|Hf]%elem_of_cons; auto. }
    destruct (strings.Split_space first) as [|p0 [|p1 [|p2 ps]]]; cbn in Hlen;
      done.
  - exact Hagree.
  - intros first rest algorithm hash E Hall Ha Hh ->.
    apply (Hagree (algorithm +:+ " " +:+ hash) rest); [done|done|].
    by apply Split_space_two.
Qed.

Lemma extractFingerprint_spec_witness :
  collectFingerprints fingerprint_sdp = ["sha-256 AB:CD"; "sha-256 AB:CD"]
  ∧ extractFingerprint fingerprint_sdp = inl ("AB:CD", "sha-256").
Proof.
  split; [reflexivity|].
  refine (proj1 (proj2 (proj2 (proj2 (extractFingerprint_spec fingerprint_sdp))))
            "sha-256 AB:CD" ["sha-256 AB:CD"] "sha-256" "AB:CD" _ _ _).
  - reflexivity.
  - intros f Hf. apply list_elem_of_singleton in Hf. exact Hf.
  - reflexivity.
Defined.

End SDPFacts.

Section FilterCandidatesFacts.
Import rtc SDPExamples.
Context {PC : Type} {stack : webrtc.PeerConnection PC}.

Lemma filterAttributes_false (attrs : list sdp.Attribute) :
  filterAttributes false attrs = attrs.
Proof.
  induction attrs as [|a attrs IH]; cbn; [done|].
  rewrite IH. by destruct (String.eqb (sdp.Key a) sdp.AttrKeyCandidate).
Qed.

Lemma filterAttributes_true (attrs : list sdp.Attribute) :
  filterAttributes true attrs = List.filter keptWhenPreferTCP attrs.
Proof.
  induction attrs as [|a attrs IH]; cbn; [done|].
  unfold keptWhenPreferTCP at 1. rewrite IH.
  destruct (String.eqb (sdp.Key a) sdp.AttrKeyCandidate); cbn; [|done].
  by destruct (strings.Contains (sdp.Value a) "tcp").
Qed.

Lemma filterAttributes_notCandidate (preferTCP : bool)
    (attrs : list sdp.Attribute) :
  List.filter notCandidate (filterAttributes preferTCP attrs)
  = List.filter notCandidate attrs.
Proof.
  induction attrs as [|a attrs IH]; cbn; [done|].
  unfold notCandidate at 2.
  destruct (String.eqb (sdp.Key a) sdp.AttrKeyCandidate) eqn:E; cbn.
  - destruct preferTCP; [destruct (strings.Contains (sdp.Value a) "tcp")|];
      cbn; unfold notCandidate at 1; rewrite ?E; cbn; exact IH.
  - unfold notCandidate at 1. rewrite E. cbn. by rewrite IH.
Qed.

Lemma filterParsed_false (parsed : sdp.SessionDescription) :
  filterParsed false parsed = parsed.
Proof.
  destruct parsed as [attrs mds]. unfold filterParsed; cbn.
  rewrite filterAttributes_false. f_equal.
  induction mds as [|[name mattrs] mds IH]; cbn; [done|].
  by rewrite filterAttributes_false, IH.
Qed.

(** C10, as stated, fails: with TCP preferred a candidate whose transport is
    UDP is kept when the text "tcp" occurs elsewhere in its value. *)
Lemma filterCandidates_keeps_udp_candidate :
  candidateTransport (sdp.Value udp_candidate) = Some "udp"
  ∧ transportIsTCP (sdp.Value udp_candidate) = false
  ∧ filter_candidates_spec true [udp_candidate] = []
  ∧ filterAttributes true [udp_candidate] = [udp_candidate]
  ∧ filterParsed true udp_candidate_sdp = udp_candidate_sdp.
Proof. repeat split; reflexivity. Qed.

(** C10, amended.  On a parsed SDP, [filterCandidates] without the TCP
    preference leaves the description as it is; with the preference it
    keeps, at session level and in every media description, exactly the
    attributes that are not candidates or whose value contains the text
    "tcp", keeping media descriptions and their order; in both cases the
    attributes that are not candidates are preserved verbatim and in order.
    On the serialized description the result is the marshalled filtered
    description, and the input itself when parsing or marshalling fails. *)
Theorem filterCandidates_spec (parsed : sdp.SessionDescription) :
  filterParsed false parsed = parsed
  ∧ sdp.Attributes (filterParsed true parsed)
    = List.filter keptWhenPreferTCP (sdp.Attributes parsed)
  ∧ sdp.MediaDescriptions (filterParsed true parsed)
    = map (fun m => {| sdp.Media := sdp.Media m;
                       sdp.MediaAttributes :=
                         List.filter keptWhenPreferTCP (sdp.MediaAttributes m) |})
          (sdp.MediaDescriptions parsed)
  ∧ (∀ preferTCP,
       List.filter notCandidate (sdp.Attributes (filterParsed preferTCP parsed))
       = List.filter notCandidate (sdp.Attributes parsed)
       ∧ map (fun m => (sdp.Media m,
                        List.filter notCandidate (sdp.MediaAttributes m)))
             (sdp.MediaDescriptions (filterParsed preferTCP parsed))
         = map (fun m => (sdp.Media m,
                          List.filter notCandidate (sdp.MediaAttributes m)))
               (sdp.MediaDescriptions parsed))
  ∧ (∀ (t : PCTransport PC) (sd : webrtc.SessionDescription),
       webrtc.Unmarshal sd = inl parsed →
       filterCandidates sd t
       = match webrtc.Marshal (filterParsed (preferTCP t) parsed) with
         | inl bytes => {| webrtc.Type_ := webrtc.Type_ sd;
                           webrtc.SDP := bytes |}
         | inr _ => sd
         end).
Proof.
  split; [apply filterParsed_false|].
  split; [cbn; apply filterAttributes_true|].
  split.
  { cbn. apply map_ext. intros m. by rewrite filterAttributes_true. }
  split.
  - intros preferTCP. split; [cbn; apply filterAttributes_notCandidate|].
    cbn. rewrite map_map. apply map_ext. intros m; cbn.
    by rewrite filterAttributes_notCandidate.
  - intros t sd E. unfold filterCandidates. rewrite E.
    by destruct (webrtc.Marshal _).
Qed.

End FilterCandidatesFacts.

(* ===================================================================== *)
(** * Further properties of the SDP helpers *)
(* ===================================================================== *)

Section SDPHelperFacts.
Import rtc.

(** X1.  [extractICECredential] reports, in this order of precedence: a
    missing user fragment when no level carries one (whatever the
    passwords); a missing password when no level carries one (even if the
    user fragments disagree); conflicting user fragments; conflicting
    passwords; and otherwise returns the one user fragment and the one
    password on which all levels agree. *)
Theorem extractICECredential_spec (desc : sdp.SessionDescription) :
  (collectAttribute "ice-ufrag" desc = [] →
   extractICECredential desc = inr webrtc.ErrSessionDescriptionMissingIceUfrag)
  ∧ (collectAttribute "ice-ufrag" desc ≠ [] →
     collectAttribute "ice-pwd" desc = [] →
     extractICECredential desc = inr webrtc.ErrSessionDescriptionMissingIcePwd)
  ∧ (∀ ufrag ufrags pwd pwds,
       collectAttribute "ice-ufrag" desc = ufrag :: ufrags →
       collectAttribute "ice-pwd" desc = pwd :: pwds →
       ((∃ u, u ∈ ufrags ∧ u ≠ ufrag) →
        extractICECredential desc
        = inr webrtc.ErrSessionDescriptionConflictingIceUfrag)
       ∧ ((∀ u, u ∈ ufrags → u = ufrag) →
          (∃ p, p ∈ pwds ∧ p ≠ pwd) →
          extractICECredential desc
          = inr webrtc.ErrSessionDescriptionConflictingIcePwd)
       ∧ ((∀ u, u ∈ ufrags → u = ufrag) →
          (∀ p, p ∈ pwds → p = pwd) →
          extractICECredential desc = inl (ufrag, pwd))).
Proof.
  unfold extractICECredential.
  split; [by intros ->|].
  split.
  { intros Hu ->. by destruct (collectAttribute "ice-ufrag" desc). }
  intros ufrag ufrags pwd pwds -> ->.
  assert (Hall : ∀ (x : string) l,
            (∀ y, y ∈ l → y = x) →
            forallb (fun m => String.eqb m x) (x :: l) = true).
  { intros x l Hl. apply forallb_eqb_true.
    intros y [->|Hy]%elem_of_cons; auto. }
  assert (Hnot : ∀ (x : string) l,
            (∃ y, y ∈ l ∧ y ≠ x) →
            forallb (fun m => String.eqb m x) (x :: l) = false).
  { intros x l (y & Hy & Hne).
    destruct (forallb (fun m => String.eqb m x) (x :: l)) eqn:E; [|done].
    exfalso. apply Hne. rewrite forallb_eqb_true in E. apply E.
    apply elem_of_cons; by right. }
  split; [|split].
  - intros Hc. by rewrite (Hnot _ _ Hc).
  - intros Hu Hp. by rewrite (Hall _ _ Hu), (Hnot _ _ Hp).
  - intros Hu Hp. by rewrite (Hall _ _ Hu), (Hall _ _ Hp).
Qed.

(** X2.  [extractDTLSRole] never answers with the automatic role.  It
    answers with the server role exactly when some media description has
    [setup:passive] and none before it has [setup:active]; in particular a
    description without a passive media description (no [setup] at all, or
    only [setup:active], or only other values) gives the client role. *)
Theorem extractDTLSRole_spec (desc : sdp.SessionDescription) :
  extractDTLSRole desc ≠ webrtc.DTLSRoleAuto
  ∧ (extractDTLSRole desc = webrtc.DTLSRoleServer
     ↔ ∃ before md after,
         sdp.MediaDescriptions desc = before ++ md :: after
         ∧ sdp.MediaAttribute_of md "setup" = Some "passive"
         ∧ ∀ m, m ∈ before → sdp.MediaAttribute_of m "setup" ≠ Some "active")
  ∧ ((∀ m, m ∈ sdp.MediaDescriptions desc →
           sdp.MediaAttribute_of m "setup" ≠ Some "passive") →
     extractDTLSRole desc = webrtc.DTLSRoleClient).
Proof.
  unfold extractDTLSRole. generalize (sdp.MediaDescriptions desc) as mds.
  assert (Hserver : ∀ mds,
    extractDTLSRole_loop mds = webrtc.DTLSRoleServer
    ↔ ∃ before md after,
        mds = before ++ md :: after
        ∧ sdp.MediaAttribute_of md "setup" = Some "passive"
        ∧ ∀ m, m ∈ before → sdp.MediaAttribute_of m "setup" ≠ Some "active").
  { induction mds as [|md mds IH]; cbn.
    - split; [done|]. intros (before & m & after & E & _).
      by destruct before.
    - change sdp.AttrKeyConnectionSetup with "setup".
      assert (Hcons : (∃ before m after,
                 md :: mds = before ++ m :: after
                 ∧ sdp.MediaAttribute_of m "setup" = Some "passive"
                 ∧ ∀ m', m' ∈ before →
                         sdp.MediaAttribute_of m' "setup" ≠ Some "active")
               ↔ sdp.MediaAttribute_of md "setup" = Some "passive"
                 ∨ (sdp.MediaAttribute_of md "setup" ≠ Some "active"
                    ∧ ∃ before m after,
                        mds = before ++ m :: after
                        ∧ sdp.MediaAttribute_of m "setup" = Some "passive"
                        ∧ ∀ m', m' ∈ before →
                                sdp.MediaAttribute_of m' "setup"
                                ≠ Some "active")).
      { split.
        - intros (before & m & after & E & Hp & Hbefore).
          destruct before as [|m0 before]; cbn in E; injection E as <- ->.
          + by left.
          + right. split; [apply Hbefore, elem_of_cons; by left|].
            exists before, m, after. split; [done|]. split; [done|].
            intros m' Hm'. apply Hbefore, elem_of_cons. by right.
        - intros [Hp|(Ha & before & m & after & -> & Hp & Hbefore)].
          + exists [], md, mds. split; [done|]. split; [done|].
            intros m' Hm'. by apply elem_of_nil in Hm'.
          + exists (md :: before), m, after. split; [done|]. split; [done|].
            intros m' [->|Hm']%elem_of_cons; auto. }
      rewrite Hcons, <- IH. clear Hcons IH.
      destruct (sdp.MediaAttribute_of md "setup") as [setup|] eqn:Hsetup.
      + destruct (String.eqb setup sdp.ConnectionRoleActive_String) eqn:Ea.
        * apply String.eqb_eq in Ea. subst setup. split; [done|].
          intros [Hp|[Ha _]]; done.
        * destruct (String.eqb setup sdp.ConnectionRolePassive_String) eqn:Ep.
          -- apply String.eqb_eq in Ep. subst setup. split; [by left|done].
          -- apply String.eqb_neq in Ea, Ep. split.
             ++ intros Hs. right. split; [|done]. intros [= ->]. done.
             ++ intros [[= ->]|[_ Hs]]; done.
      + split.
        * intros Hs. by right.
        * intros [?|[_ Hs]]; done. }
  assert (Hauto : ∀ mds, extractDTLSRole_loop mds ≠ webrtc.DTLSRoleAuto).
  { induction mds as [|md mds IH]; cbn; [done|]. by repeat case_match. }
  intros mds. split; [apply Hauto|]. split; [apply Hserver|].
  intros Hnone.
  destruct (extractDTLSRole_loop mds) eqn:E; [by apply Hauto in E|done|].
  apply Hserver in E as (before & md & after & -> & Hp & _).
  exfalso. apply (Hnone md); [|done].
  apply elem_of_app. right. apply elem_of_cons. by left.
Qed.

Lemma Split1_not_nil (sep : Ascii.ascii) (s : string) :
  strings.Split1 sep s ≠ [].
Proof.
  destruct s as [|c s]; cbn; [done|].
  destruct (Ascii.eqb c sep); [done|]. by destruct (strings.Split1 sep s).
Qed.

Lemma Split1_single (s b : string) : strings.Split1 " " s = [b] → s = b.
Proof.
  revert b. induction s as [|c s IH]; intros b; cbn.
  - by intros [= <-].
  - destruct (Ascii.eqb c " ").
    + intros [= _ E]. by apply Split1_not_nil in E.
    + destruct (strings.Split1 " " s) as [|hd tl] eqn:E;
        [by apply Split1_not_nil in E|].
      intros [= <- ->]. by rewrite (IH hd).
Qed.

(** Splitting at spaces into two fields means being those two fields with
    one space between. *)
Lemma Split_space_join (s a b : string) :
  strings.Split_space s = [a; b] → s = a +:+ " " +:+ b.
Proof.
  unfold strings.Split_space. revert a.
  induction s as [|c s IH]; intros a; cbn; [done|].
  destruct (Ascii.eqb c " ") eqn:Ec.
  - apply Ascii.eqb_eq in Ec. subst c. intros [= <- E].
    by rewrite (Split1_single _ _ E).
  - destruct (strings.Split1 " " s) as [|hd tl] eqn:E; [done|].
    intros [= <- ->]. by rewrite (IH hd).
Qed.

Lemma lookupAttribute_replaceFP (attrs : list sdp.Attribute) (fpLine : string) :
  sdp.lookupAttribute (replaceFP attrs fpLine) "fingerprint"
  = match sdp.lookupAttribute attrs "fingerprint" with
    | Some _ => Some fpLine
    | None => None
    end.
Proof.
  induction attrs as [|a attrs IH]; cbn; [done|].
  destruct (String.eqb (sdp.Key a) "fingerprint") eqn:E; cbn; rewrite E; done.
Qed.

Lemma collectFingerprints_replaceFingerprints (ans : sdp.SessionDescription)
    (fp fpHahs : string) :
  collectFingerprints (replaceFingerprints ans fp fpHahs)
  = map (fun _ => fpHahs +:+ " " +:+ fp) (collectFingerprints ans).
Proof.
  unfold collectFingerprints, replaceFingerprints, sdp.Attribute_of,
    sdp.MediaAttribute_of. cbn.
  rewrite lookupAttribute_replaceFP, map_app. f_equal.
  - by destruct (sdp.lookupAttribute (sdp.Attributes ans) "fingerprint").
  - induction (sdp.MediaDescriptions ans) as [|m ms IH]; cbn; [done|].
    rewrite lookupAttribute_replaceFP, map_app, IH. f_equal.
    by destruct (sdp.lookupAttribute (sdp.MediaAttributes m) "fingerprint").
Qed.

Lemma replaceFP_values (attrs : list sdp.Attribute) (fpLine : string) :
  map sdp.Key (replaceFP attrs fpLine) = map sdp.Key attrs
  ∧ ∀ i a, replaceFP attrs fpLine !! i = Some a →
      (sdp.Key a = "fingerprint" ∧ sdp.Value a = fpLine)
      ∨ (sdp.Key a ≠ "fingerprint" ∧ attrs !! i = Some a).
Proof.
  induction attrs as [|a0 attrs [IHk IHv]]; cbn.
  - split; [done|]. intros i a Hi. by rewrite lookup_nil in Hi.
  - split.
    + rewrite IHk. by destruct (String.eqb (sdp.Key a0) "fingerprint").
    + intros [|i] a; cbn; [|apply IHv].
      destruct (String.eqb (sdp.Key a0) "fingerprint") eqn:E; intros [= <-].
      * left. by apply String.eqb_eq in E.
      * right. by apply String.eqb_neq in E.
Qed.

(** X3.  The fingerprint rewriting of [preparePC] carries the fingerprint of
    the previous answer over: with [fp], [fpHahs] extracted from the
    previous answer, the rewritten description yields the same pair on
    extraction whenever it has a fingerprint attribute at some level, and
    still has none otherwise (rewriting adds no attribute).  At every level
    the keys are unchanged, every fingerprint attribute, not only the first
    of a level, has the previous answer's value, and every other attribute
    is left as it was. *)
Theorem replaceFingerprints_extractFingerprint
    (previousAnswer ans : sdp.SessionDescription) (fp fpHahs : string) :
  extractFingerprint previousAnswer = inl (fp, fpHahs) →
  (collectFingerprints ans ≠ [] →
   extractFingerprint (replaceFingerprints ans fp fpHahs) = inl (fp, fpHahs))
  ∧ (collectFingerprints ans = [] →
     extractFingerprint (replaceFingerprints ans fp fpHahs)
     = inr webrtc.ErrSessionDescriptionNoFingerprint)
  ∧ (∃ first rest, collectFingerprints previousAnswer = first :: rest
                   ∧ first = fpHahs +:+ " " +:+ fp)
  ∧ (∀ attrs : list sdp.Attribute,
       map sdp.Key (replaceFP attrs (fpHahs +:+ " " +:+ fp)) = map sdp.Key attrs
       ∧ ∀ i a, replaceFP attrs (fpHahs +:+ " " +:+ fp) !! i = Some a →
           (sdp.Key a = "fingerprint"
            ∧ sdp.Value a = fpHahs +:+ " " +:+ fp)
           ∨ (sdp.Key a ≠ "fingerprint" ∧ attrs !! i = Some a)).
Proof.
  intros Hprev.
  assert (Hline : ∃ first rest,
             collectFingerprints previousAnswer = first :: rest
             ∧ first = fpHahs +:+ " " +:+ fp
             ∧ strings.Split_space first = [fpHahs; fp]).
  { revert Hprev. unfold extractFingerprint.
    destruct (collectFingerprints previousAnswer) as [|first rest]; [done|].
    destruct (forallb _ _); [|done].
    destruct (strings.Split_space first) as [|p0 [|p1 [|p2 ps]]] eqn:E;
      try done.
    intros [= <- <-]. exists first, rest.
    split; [done|]. split; [by apply Split_space_join|done]. }
  destruct Hline as (first & rest & Hcollect & Hfirst & Hsplit).
  split; [|split; [|split]].
  - intros Hsome. unfold extractFingerprint.
    rewrite collectFingerprints_replaceFingerprints.
    destruct (collectFingerprints ans) as [|f fs]; [done|]. cbn [map].
    rewrite <- Hfirst.
    assert (forallb (fun m => String.eqb m first)
                    (first :: map (fun _ => first) fs) = true) as ->.
    { apply forallb_eqb_true. intros x [->|Hx]%elem_of_cons; [done|].
      apply list_elem_of_fmap in Hx as (? & -> & _). done. }
    by rewrite Hsplit.
  - intros Hnone. unfold extractFingerprint.
    by rewrite collectFingerprints_replaceFingerprints, Hnone.
  - by exists first, rest.
  - intros attrs. apply replaceFP_values.
Qed.

Lemma filterAttributes_idempotent (preferTCP : bool)
    (attrs : list sdp.Attribute) :
  filterAttributes preferTCP (filterAttributes preferTCP attrs)
  = filterAttributes preferTCP attrs.
Proof.
  induction attrs as [|a attrs IH]; cbn; [done|].
  destruct (String.eqb (sdp.Key a) sdp.AttrKeyCandidate) eqn:E;
    [destruct preferTCP;
     [destruct (strings.Contains (sdp.Value a) "tcp") eqn:Ec|]|];
    cbn; rewrite ?E, ?Ec, ?IH; done.
Qed.

Lemma filterAttributes_sublist (preferTCP : bool)
    (attrs : list sdp.Attribute) :
  filterAttributes preferTCP attrs `sublist_of` attrs.
Proof.
  induction attrs as [|a attrs IH]; cbn; [done|].
  repeat case_match; by constructor.
Qed.

End SDPHelperFacts.

Section FilterCandidatesMore.
Import rtc.
Context {PC : Type} {stack : webrtc.PeerConnection PC}.

(** X4.  [filterCandidates] never changes the type of a description and
    returns the description itself when it cannot be parsed or the filtered
    description cannot be marshalled.  On the parsed description it only
    removes attributes (at each level the result is a sub-sequence of the
    input, with as many media descriptions as before, under the same names)
    and filtering a second time changes nothing. *)
Theorem filterCandidates_only_removes (sd : webrtc.SessionDescription)
    (t : PCTransport PC) (parsed : sdp.SessionDescription) (preferTCP : bool) :
  webrtc.Type_ (filterCandidates sd t) = webrtc.Type_ sd
  ∧ ((∃ e, webrtc.Unmarshal sd = inr e) → filterCandidates sd t = sd)
  ∧ (∀ p e, webrtc.Unmarshal sd = inl p →
            webrtc.Marshal (filterParsed (rtc.preferTCP t) p) = inr e →
            filterCandidates sd t = sd)
  ∧ sdp.Attributes (filterParsed preferTCP parsed)
    `sublist_of` sdp.Attributes parsed
  ∧ map sdp.Media (sdp.MediaDescriptions (filterParsed preferTCP parsed))
    = map sdp.Media (sdp.MediaDescriptions parsed)
  ∧ (∀ i m, sdp.MediaDescriptions (filterParsed preferTCP parsed) !! i = Some m →
       ∃ m0, sdp.MediaDescriptions parsed !! i = Some m0
             ∧ sdp.MediaAttributes m `sublist_of` sdp.MediaAttributes m0)
  ∧ filterParsed preferTCP (filterParsed preferTCP parsed)
    = filterParsed preferTCP parsed.
Proof.
  split; [unfold filterCandidates; by repeat case_match|].
  split; [intros (e & He); unfold filterCandidates; by rewrite He|].
  split; [intros p e Hp He; unfold filterCandidates; by rewrite Hp, He|].
  split; [apply filterAttributes_sublist|].
  split; [cbn; rewrite map_map; by apply map_ext|].
  split.
  - intros i m. cbn. rewrite list_lookup_fmap.
    destruct (sdp.MediaDescriptions parsed !! i) as [m0|]; [|done].
    cbn. intros [= <-]. exists m0. split; [done|]. cbn.
    apply filterAttributes_sublist.
  - unfold filterParsed; cbn. rewrite filterAttributes_idempotent. f_equal.
    rewrite map_map. apply map_ext. intros m; cbn.
    by rewrite filterAttributes_idempotent.
Qed.

End FilterCandidatesMore.

Section MidValueFacts.
Import rtc.

Lemma getMidValue_loop_lookup (attrs : list sdp.Attribute) :
  getMidValue_loop attrs = default "" (sdp.lookupAttribute attrs "mid").
Proof.
  induction attrs as [|a attrs IH]; cbn; [done|].
  change sdp.AttrKeyMID with "mid". by destruct (String.eqb (sdp.Key a) "mid").
Qed.

Lemma getMidValue_loop_first (attrs : list sdp.Attribute) :
  getMidValue_loop attrs ≠ "" →
  ∃ before attr after,
    attrs = before ++ attr :: after
    ∧ sdp.Key attr = "mid"
    ∧ sdp.Value attr = getMidValue_loop attrs
    ∧ ∀ a, a ∈ before → sdp.Key a ≠ "mid".
Proof.
  induction attrs as [|a attrs IH]; cbn; [done|].
  change sdp.AttrKeyMID with "mid".
  destruct (String.eqb (sdp.Key a) "mid") eqn:E.
  - intros _. apply String.eqb_eq in E. exists [], a, attrs.
    split; [done|]. split; [done|]. split; [done|].
    intros a' Ha'. by apply elem_of_nil in Ha'.
  - intros Hne. destruct (IH Hne) as (before & attr & after & -> & Hk & Hv & Hb).
    apply String.eqb_neq in E.
    exists (a :: before), attr, after.
    split; [done|]. split; [done|]. split; [done|].
    intros a' [->|Ha']%elem_of_cons; auto.
Qed.

(** X19.  [getMidValue] gives the value of the first [mid] attribute of a
    media description, which is what the description's own attribute lookup
    finds, and the empty string when there is none; so that a media
    description without [mid] and one whose first [mid] is empty are not
    told apart. *)
Theorem getMidValue_spec (media : sdp.MediaDescription) :
  getMidValue media = default "" (sdp.MediaAttribute_of media "mid")
  ∧ (getMidValue media ≠ "" →
     ∃ before attr after,
       sdp.MediaAttributes media = before ++ attr :: after
       ∧ sdp.Key attr = "mid"
       ∧ sdp.Value attr = getMidValue media
       ∧ ∀ a, a ∈ before → sdp.Key a ≠ "mid")
  ∧ (getMidValue media = ""
     ↔ sdp.MediaAttribute_of media "mid" = None
       ∨ sdp.MediaAttribute_of media "mid" = Some "")
  ∧ ((∀ a, a ∈ sdp.MediaAttributes media → sdp.Key a ≠ "mid") →
     getMidValue media = "").
Proof.
  unfold getMidValue, sdp.MediaAttribute_of.
  split; [apply getMidValue_loop_lookup|].
  split; [apply getMidValue_loop_first|].
  split.
  - rewrite getMidValue_loop_lookup.
    destruct (sdp.lookupAttribute _ _) as [v|]; cbn.
    + split; [intros ->; by right|]. by intros [?|[= ->]].
    + split; [by left|done].
  - intros Hnone.
    destruct (decide (getMidValue_loop (sdp.MediaAttributes media) = ""))
      as [E|E]; [done|].
    destruct (getMidValue_loop_first _ E) as (before & attr & after & Hs & Hk & _).
    exfalso. apply (Hnone attr); [|done].
    rewrite Hs. apply elem_of_app. right. apply elem_of_cons. by left.
Qed.

End MidValueFacts.

(* ===================================================================== *)
(** * Properties of the transport controller *)
(* ===================================================================== *)

Section TransportFacts.
Import rtc.
Context {PC : Type} {stack : webrtc.PeerConnection PC}.

Implicit Types (t : PCTransport PC) (sd offer : webrtc.SessionDescription).
Implicit Types (options : option webrtc.OfferOptions).

(** C6.  Once past its entry checks (a callback for offers is registered,
    the connection is not closed, gathering is not in progress), the offer
    algorithm returns [ErrIceRestartWithoutLocalSDP] exactly when an ICE
    restart is requested, the negotiation state is not idle, and the
    connection has neither a current remote description nor a local
    description; it then leaves the transport untouched.  With a local
    description in that situation it hands that description to the offer
    callback again, moves to the retry state, sets [restartAtNextOffer] and
    returns success. *)
Theorem createAndSendOffer_restart_without_local (options : option webrtc.OfferOptions)
    (t : PCTransport PC)
    (Hcb : onOffer t = true)
    (Hopen : webrtc.ConnectionState (pc t) ≠ webrtc.PeerConnectionStateClosed)
    (Hgather : webrtc.ICEGatheringState_of (pc t)
               ≠ webrtc.ICEGatheringStateGathering) :
  let r := createAndSendOffer options t in
  let iceRestart := optionsICERestart options || restartAtNextOffer t in
  (err r = Some ErrIceRestartWithoutLocalSDP
   ↔ iceRestart = true
     ∧ negotiationState t ≠ negotiationStateNone
     ∧ webrtc.CurrentRemoteDescription (pc t) = None
     ∧ webrtc.LocalDescription (pc t) = None)
  ∧ (err r = Some ErrIceRestartWithoutLocalSDP → next r = t ∧ trace r = [])
  ∧ (∀ offer,
       iceRestart = true →
       negotiationState t ≠ negotiationStateNone →
       webrtc.CurrentRemoteDescription (pc t) = None →
       webrtc.LocalDescription (pc t) = Some offer →
       trace r = [GoOnOffer offer]
       ∧ negotiationState (next r) = negotiationRetry
       ∧ restartAtNextOffer (next r) = true
       ∧ err r = None
       ∧ next r = set_restartAtNextOffer true
                    (set_negotiationState negotiationRetry t)).
Proof.
  cbn zeta. unfold createAndSendOffer. rewrite Hcb; cbn [negb].
  rewrite (bool_decide_eq_false_2 _ Hopen), (bool_decide_eq_false_2 _ Hgather).
  rewrite andb_false_r.
  destruct (optionsICERestart options || restartAtNextOffer t) eqn:Hrestart;
    cbn [andb].
  - destruct (decide (negotiationState t = negotiationStateNone)) as [Hs|Hs].
    + rewrite (bool_decide_eq_true_2 _ Hs); cbn [negb].
      rewrite Hs.
      split; [|split].
      * split; [|intros (_ & ? & _); done].
        unfold createOfferAndNotify. repeat case_match; cbn; intros; simplify_eq.
      * unfold createOfferAndNotify. repeat case_match; cbn; intros; simplify_eq.
      * intros; done.
    + rewrite (bool_decide_eq_false_2 _ Hs); cbn [negb].
      destruct (webrtc.CurrentRemoteDescription (pc t)) as [cur|] eqn:Hcur.
      * split; [|split].
        -- split; [|intros (_ & _ & ? & _); done].
           unfold createOfferAndNotify. repeat case_match; cbn; intros; simplify_eq.
        -- unfold createOfferAndNotify. repeat case_match; cbn; intros; simplify_eq.
        -- intros; done.
      * destruct (webrtc.LocalDescription (pc t)) as [loc|] eqn:Hloc; cbn.
        -- split; [split; [done|intros (_ & _ & _ & ?); done]|].
           split; [done|]. intros offer _ _ _ [= <-]. done.
        -- split; [done|]. split; [done|]. intros; done.
  - split; [|split].
    + split; [|intros (? & _); done].
      unfold createOfferAndNotify. repeat case_match; cbn; intros; simplify_eq.
    + unfold createOfferAndNotify. repeat case_match; cbn; intros; simplify_eq.
    + intros; done.
Qed.

Lemma wrapInt32_in_range (z : Z) :
  -2^31 ≤ z < 2^31 - 1 → wrapInt32 (z + 1) = z + 1.
Proof.
  intros Hz. unfold wrapInt32.
  rewrite Z.mod_small; lia.
Qed.

Lemma wrapInt32_at_max : wrapInt32 (2147483647 + 1) = -2147483648.
Proof. reflexivity. Qed.

(** C2.  Whenever the offer algorithm produces a local offer (the peer
    connection accepts it as local description) the negotiation counter
    becomes its old value plus one, in 32-bit arithmetic (so exactly one
    more below the largest 32-bit value), the transport awaits the answer,
    and the failure timer is armed with the new counter value; a run that
    produces no offer leaves the counter alone.  The failure timer armed for
    version [n], when it fires, changes nothing; it invokes
    [onNegotiationFailed] only if the counter still equals [n] and the
    negotiation state is not idle, and does so then if the callback is
    registered; otherwise it does nothing at all. *)
Theorem negotiation_epoch_and_failure_timer (options : option webrtc.OfferOptions)
    (t : PCTransport PC) :
  let r := createAndSendOffer options t in
  (producedOffer (trace r) = true →
     negotiateCounter (next r) = wrapInt32 (negotiateCounter t + 1)
     ∧ (-2^31 ≤ negotiateCounter t < 2^31 - 1 →
        negotiateCounter (next r) = negotiateCounter t + 1)
     ∧ signalStateCheckTimer (next r) = Some (negotiateCounter (next r))
     ∧ negotiationState (next r) = negotiationStateClient)
  ∧ (producedOffer (trace r) = false →
     negotiateCounter (next r) = negotiateCounter t)
  ∧ (∀ (n : Z) (t' : PCTransport PC),
       let f := signalStateCheckTimerFired n t' in
       next f = t'
       ∧ err f = None
       ∧ (CallOnNegotiationFailed ∈ trace f →
          negotiateCounter t' = n ∧ negotiationState t' ≠ negotiationStateNone)
       ∧ (onNegotiationFailed t' = true → negotiateCounter t' = n →
          negotiationState t' ≠ negotiationStateNone →
          trace f = [CallOnNegotiationFailed])
       ∧ (negotiateCounter t' ≠ n ∨ negotiationState t' = negotiationStateNone →
          trace f = [])).
Proof.
  cbn zeta. split; [|split].
  - intros Hp.
    assert (negotiateCounter (next (createAndSendOffer options t))
            = wrapInt32 (negotiateCounter t + 1)
            ∧ signalStateCheckTimer (next (createAndSendOffer options t))
              = Some (negotiateCounter (next (createAndSendOffer options t)))
            ∧ negotiationState (next (createAndSendOffer options t))
              = negotiationStateClient) as (Hc & Ht & Hs).
    { revert Hp. unfold createAndSendOffer, createOfferAndNotify.
      repeat case_match; simplify_eq; cbn; intros; simplify_eq; done. }
    split; [done|]. split; [|done].
    intros Hr. rewrite Hc. by apply wrapInt32_in_range.
  - unfold createAndSendOffer, createOfferAndNotify.
    repeat case_match; simplify_eq; cbn; intros; simplify_eq; done.
  - intros n t'. unfold signalStateCheckTimerFired.
    destruct (decide (negotiationState t' = negotiationStateNone)) as [Hs|Hs].
    + rewrite (bool_decide_eq_true_2 _ Hs), andb_false_r; cbn.
      split; [done|]. split; [done|]. split; [|split; [done|done]].
      intros Hin; by apply elem_of_nil in Hin.
    + rewrite (bool_decide_eq_false_2 _ Hs), andb_true_r; cbn.
      destruct (negotiateCounter t' =? n) eqn:En.
      * apply Z.eqb_eq in En.
        destruct (onNegotiationFailed t'); cbn.
        -- split; [done|]. split; [done|]. split; [done|].
           split; [done|]. intros [?|?]; done.
        -- split; [done|]. split; [done|]. split; [done|].
           split; [done|]. intros [?|?]; done.
      * apply Z.eqb_neq in En. cbn.
        split; [done|]. split; [done|]. split; [|split; [done|done]].
        intros Hin; by apply elem_of_nil in Hin.
Qed.

Lemma addPendingCandidates_ok (p p' : PC) (cs : list webrtc.ICECandidateInit)
    (evs : list Event) :
  addPendingCandidates p cs = (p', evs, None) →
  evs = map (fun c => PcAddICECandidate c None) cs.
Proof.
  revert p evs. induction cs as [|c cs IH]; intros p evs; cbn.
  - by intros [= _ <-].
  - destruct (webrtc.AddICECandidate p c) as [p1 [e|]]; [done|].
    destruct (addPendingCandidates p1 cs) as [[p2 evs'] r] eqn:E.
    intros [= -> <- ->]. by rewrite (IH _ _ E).
Qed.

Lemma addPendingCandidates_events (p : PC) (cs : list webrtc.ICECandidateInit) :
  forallb isPcAddICECandidate (addPendingCandidates p cs).1.2 = true.
Proof.
  revert p. induction cs as [|c cs IH]; intros p; cbn; [done|].
  destruct (webrtc.AddICECandidate p c) as [p1 [e|]]; [done|].
  specialize (IH p1).
  destruct (addPendingCandidates p1 cs) as [[p2 evs'] r]. cbn in *. done.
Qed.

Lemma createAndSendOffer_no_candidates options t :
  forallb (fun ev => negb (isPcAddICECandidate ev))
          (trace (createAndSendOffer options t)) = true.
Proof.
  unfold createAndSendOffer, createOfferAndNotify.
  repeat case_match; simplify_eq; cbn; done.
Qed.



Lemma createAndSendOffer_offers options t :
  (length (List.filter isGoOnOffer (trace (createAndSendOffer options t))) ≤ 1)%nat
  ∧ (length (List.filter isPcCreateOffer
               (trace (createAndSendOffer options t))) ≤ 1)%nat.
Proof.
  unfold createAndSendOffer, createOfferAndNotify.
  repeat case_match; simplify_eq; cbn; lia.
Qed.

Lemma addPendingCandidates_no_offer (p : PC) (cs : list webrtc.ICECandidateInit) :
  List.filter isGoOnOffer (addPendingCandidates p cs).1.2 = []
  ∧ List.filter isPcCreateOffer (addPendingCandidates p cs).1.2 = [].
Proof.
  revert p. induction cs as [|c cs IH]; intros p; cbn; [done|].
  destruct (webrtc.AddICECandidate p c) as [p1 [e|]]; [done|].
  specialize (IH p1).
  destruct (addPendingCandidates p1 cs) as [[p2 evs'] r]. cbn in *. done.
Qed.

(** The shape of what [SetRemoteDescription] does once the connection has
    accepted the description and the queued candidates. *)
Lemma applyRemoteDescription_accepted sd (iceCredential : string)
    (offerRestartICE : bool) t (pc1 pc2 : PC) (evs : list Event) :
  webrtc.SetRemoteDescription (pc t) sd = (pc1, None) →
  addPendingCandidates pc1 (pendingCandidates t) = (pc2, evs, None) →
  ∃ mid : PCTransport PC,
    let again :=
      if bool_decide (negotiationState t = negotiationRetry)
         && bool_decide (webrtc.Type_ sd = webrtc.SDPTypeAnswer)
      then createAndSendOffer None mid else mkResult mid [] None in
    let r := applyRemoteDescription sd iceCredential offerRestartICE t in
    next r = next again
    ∧ (trace r = PcSetRemoteDescription sd None :: evs ++ trace again
       ∨ trace r = (PcSetRemoteDescription sd None :: evs ++ trace again)
                   ++ [CallOnRemoteDescripitonSettled])
    ∧ pc mid = pc2
    ∧ pendingCandidates mid = []
    ∧ negotiationState mid = negotiationStateNone
    ∧ signalStateCheckTimer mid = None
    ∧ onOffer mid = onOffer t
    ∧ restartAtNextOffer mid = restartAtNextOffer t
    ∧ restartAfterGathering mid = restartAfterGathering t
    ∧ previousAnswer mid = previousAnswer t
    ∧ preferTCP mid = preferTCP t
    ∧ negotiateCounter mid = negotiateCounter t
    ∧ pendingRestartIceOffer mid = pendingRestartIceOffer t.
Proof.
  intros Hset Hadd. unfold applyRemoteDescription. rewrite Hset. cbn.
  destruct (String.eqb (currentOfferIceCredential t) "" || offerRestartICE);
    cbn; rewrite Hadd; cbn;
    (match goal with |- context [createAndSendOffer None ?m] => exists m end;
     cbn zeta; split; [by case_match|]; split;
     [case_match; [right|left]; reflexivity|];
     cbn; repeat split; reflexivity).
Qed.

Lemma filterCandidates_preferTCP sd t t' :
  preferTCP t = preferTCP t' → filterCandidates sd t = filterCandidates sd t'.
Proof. unfold filterCandidates. by intros ->. Qed.

(** The offer algorithm on an idle transport when nothing stands in the
    way: one offer is created, set locally and handed to the callback. *)
Lemma createAndSendOffer_idle options t (pc3 pc4 : PC) offer0 :
  onOffer t = true →
  webrtc.ConnectionState (pc t) ≠ webrtc.PeerConnectionStateClosed →
  negotiationState t = negotiationStateNone →
  (optionsICERestart options || restartAtNextOffer t = true →
   webrtc.ICEGatheringState_of (pc t) ≠ webrtc.ICEGatheringStateGathering) →
  let options' :=
    if bool_decide (previousAnswer t = None) && negb (restartAtNextOffer t)
    then options else Some {| webrtc.ICERestart := true |} in
  webrtc.CreateOffer (pc t) options' = (pc3, inl offer0) →
  webrtc.SetLocalDescription pc3 (filterCandidates offer0 t) = (pc4, None) →
  trace (createAndSendOffer options t)
  = [PcCreateOffer options' (inl offer0);
     PcSetLocalDescription (filterCandidates offer0 t) None;
     GoOnOffer (filterCandidates offer0 t)]
  ∧ negotiationState (next (createAndSendOffer options t))
    = negotiationStateClient
  ∧ err (createAndSendOffer options t) = None.
Proof.
  intros Hcb Hopen Hidle Hgather. cbn zeta. intros Hcreate Hlocal.
  unfold createAndSendOffer. rewrite Hcb; cbn [negb].
  rewrite (bool_decide_eq_false_2 _ Hopen).
  assert ((optionsICERestart options || restartAtNextOffer t)
          && bool_decide (webrtc.ICEGatheringState_of (pc t)
                          = webrtc.ICEGatheringStateGathering) = false) as ->.
  { destruct (optionsICERestart options || restartAtNextOffer t); [|done].
    cbn. by rewrite (bool_decide_eq_false_2 _ (Hgather eq_refl)). }
  rewrite (bool_decide_eq_true_2 _ Hidle), andb_false_r, Hidle.
  destruct (previousAnswer t) as [prev|] eqn:Hprev;
    destruct (restartAtNextOffer t) eqn:Hnext; cbn in Hcreate;
    unfold createOfferAndNotify, ensureICERestart; rewrite Hprev; cbn;
    rewrite ?Hnext; cbn; rewrite Hcreate; cbn;
    rewrite (filterCandidates_preferTCP offer0 _ t) by reflexivity;
    rewrite Hlocal; cbn; done.
Qed.

(** The three ways [SetRemoteDescription] can go. *)
Lemma SetRemoteDescription_cases sd t :
  let r := SetRemoteDescription sd t in
  ((trace r = [] ∨ ∃ e, trace r = [PcSetRemoteDescription sd (Some e)])
   ∧ negotiationState (next r) = negotiationState t
   ∧ restartAtNextOffer (next r) = restartAtNextOffer t
   ∧ restartAfterGathering (next r) = restartAfterGathering t)
  ∨ (∃ evs, trace r = PcSetRemoteDescription sd None :: evs
            ∧ forallb isPcAddICECandidate evs = true
            ∧ negotiationState (next r) = negotiationStateNone
            ∧ restartAtNextOffer (next r) = restartAtNextOffer t
            ∧ restartAfterGathering (next r) = restartAfterGathering t)
  ∨ (∃ (iceCredential : string) (offerRestartICE : bool) (pc1 pc2 : PC)
       (evs : list Event),
       r = applyRemoteDescription sd iceCredential offerRestartICE t
       ∧ webrtc.SetRemoteDescription (pc t) sd = (pc1, None)
       ∧ addPendingCandidates pc1 (pendingCandidates t) = (pc2, evs, None)).
Proof.
  cbn zeta. unfold SetRemoteDescription.
  destruct (if bool_decide (webrtc.Type_ sd = webrtc.SDPTypeOffer)
            then isRemoteOfferRestartICE sd t else inl ("", false))
    as [[iceCredential offerRestartICE]|e]; cbn; [|left; auto].
  destruct (offerRestartICE && bool_decide _); cbn; [left; auto|].
  destruct (webrtc.SetRemoteDescription (pc t) sd) as [pc1 [e|]] eqn:Hset.
  { left. unfold applyRemoteDescription. rewrite Hset. cbn. eauto 10. }
  destruct (addPendingCandidates pc1 (pendingCandidates t))
    as [[pc2 evs] [e|]] eqn:Hadd.
  - right; left. unfold applyRemoteDescription. rewrite Hset. cbn.
    pose proof (addPendingCandidates_events pc1 (pendingCandidates t)) as Hev.
    rewrite Hadd in Hev. cbn in Hev.
    destruct (String.eqb (currentOfferIceCredential t) "" || offerRestartICE);
      cbn; rewrite Hadd; cbn; eauto 10.
  - right; right. eauto 10.
Qed.

(** C5.  A description that is not an answer, or one arriving in a state
    other than retry, triggers no offer: [SetRemoteDescription] neither
    asks the connection for an offer nor invokes the offer callback.  In
    every case at most one offer follows.  When an answer arrives in the
    retry state, the connection accepts it and the queued candidates, an
    offer callback is registered, the connection is not closed, no ICE
    restart is held back by gathering, and the connection creates the offer
    and accepts it as local description, then exactly one new offer is
    generated within the call, right after the candidates, and the state is
    back at waiting for the client's answer. *)
Theorem renegotiate_after_answer (sd : webrtc.SessionDescription)
    (t : PCTransport PC) :
  let r := SetRemoteDescription sd t in
  (negotiationState t ≠ negotiationRetry
   ∨ webrtc.Type_ sd ≠ webrtc.SDPTypeAnswer →
   List.filter isGoOnOffer (trace r) = []
   ∧ List.filter isPcCreateOffer (trace r) = [])
  ∧ (length (List.filter isGoOnOffer (trace r)) ≤ 1)%nat
  ∧ (∀ (pc1 pc2 pc3 pc4 : PC) (evs : list Event)
       (offer0 : webrtc.SessionDescription),
       webrtc.Type_ sd = webrtc.SDPTypeAnswer →
       negotiationState t = negotiationRetry →
       webrtc.SetRemoteDescription (pc t) sd = (pc1, None) →
       addPendingCandidates pc1 (pendingCandidates t) = (pc2, evs, None) →
       onOffer t = true →
       webrtc.ConnectionState pc2 ≠ webrtc.PeerConnectionStateClosed →
       (restartAtNextOffer t = true →
        webrtc.ICEGatheringState_of pc2 ≠ webrtc.ICEGatheringStateGathering) →
       let options :=
         if bool_decide (previousAnswer t = None) && negb (restartAtNextOffer t)
         then None else Some {| webrtc.ICERestart := true |} in
       webrtc.CreateOffer pc2 options = (pc3, inl offer0) →
       let offer := filterCandidates offer0 t in
       webrtc.SetLocalDescription pc3 offer = (pc4, None) →
       List.filter isGoOnOffer (trace r) = [GoOnOffer offer]
       ∧ negotiationState (next r) = negotiationStateClient
       ∧ ∃ settled,
           trace r = PcSetRemoteDescription sd None :: evs
                     ++ [PcCreateOffer options (inl offer0);
                         PcSetLocalDescription offer None;
                         GoOnOffer offer]
                     ++ settled
           ∧ (settled = [] ∨ settled = [CallOnRemoteDescripitonSettled])).
Proof.
  cbn zeta.
  pose proof (SetRemoteDescription_cases sd t) as Hcases. cbn zeta in Hcases.
  split; [|split].
  - intros Hno.
    destruct Hcases as [([->|(e & ->)] & _)|[(evs & -> & Hev & _)|Hacc]];
      [done|done| |].
    + cbn. clear -Hev. induction evs as [|[] evs IH]; cbn in *; try done.
      auto.
    + destruct Hacc as (cred & restart & pc1 & pc2 & evs & -> & Hset & Hadd).
      destruct (applyRemoteDescription_accepted sd cred restart t pc1 pc2 evs
                  Hset Hadd) as (mid & _ & Htrace & _).
      cbn zeta in Htrace.
      assert (bool_decide (negotiationState t = negotiationRetry)
              && bool_decide (webrtc.Type_ sd = webrtc.SDPTypeAnswer) = false)
        as Hb.
      { destruct Hno as [Hno|Hno];
          [rewrite (bool_decide_eq_false_2 _ Hno)
          |rewrite (bool_decide_eq_false_2 _ Hno), andb_false_r]; done. }
      rewrite Hb in Htrace. cbn in Htrace. rewrite app_nil_r in Htrace.
      pose proof (addPendingCandidates_no_offer pc1 (pendingCandidates t)) as Hq.
      rewrite Hadd in Hq. cbn in Hq. destruct Hq as [Hq1 Hq2].
      destruct Htrace as [->| ->]; cbn; rewrite ?List.filter_app; cbn;
        rewrite Hq1, Hq2; done.
  - destruct Hcases as [([->|(e & ->)] & _)|[(evs & -> & Hev & _)|Hacc]];
      [cbn; lia|cbn; lia| |].
    + cbn. clear -Hev. induction evs as [|[] evs IH]; cbn in *; try done.
      * lia.
      * auto.
    + destruct Hacc as (cred & restart & pc1 & pc2 & evs & -> & Hset & Hadd).
      destruct (applyRemoteDescription_accepted sd cred restart t pc1 pc2 evs
                  Hset Hadd) as (mid & _ & Htrace & _).
      cbn zeta in Htrace.
      pose proof (addPendingCandidates_no_offer pc1 (pendingCandidates t)) as Hq.
      rewrite Hadd in Hq. cbn in Hq. destruct Hq as [Hq1 _].
      assert (length (List.filter isGoOnOffer
                (trace (if bool_decide (negotiationState t = negotiationRetry)
                           && bool_decide (webrtc.Type_ sd = webrtc.SDPTypeAnswer)
                        then createAndSendOffer None mid
                        else mkResult mid [] None))) ≤ 1)%nat as Hle.
      { case_match; [apply createAndSendOffer_offers|cbn; lia]. }
      destruct Htrace as [->| ->]; cbn; rewrite ?List.filter_app; cbn;
        rewrite Hq1, ?length_app; cbn in *; lia.
  - intros pc1 pc2 pc3 pc4 evs offer0 Hans Hretry Hset Hadd Hcb Hopen Hgather
      Hcreate Hlocal.
    assert (SetRemoteDescription sd t = applyRemoteDescription sd "" false t)
      as ->.
    { unfold SetRemoteDescription. rewrite Hans.
      by rewrite bool_decide_eq_false_2 by done. }
    destruct (applyRemoteDescription_accepted sd "" false t pc1 pc2 evs
                Hset Hadd)
      as (mid & Hnext & Htrace & Hpc & _ & Hidle & _ & Hcb' & Hnx & _ & Hprev
          & Htcp & _).
    cbn zeta in Hnext, Htrace.
    rewrite (bool_decide_eq_true_2 _ Hretry), (bool_decide_eq_true_2 _ Hans)
      in Hnext, Htrace. cbn [andb] in Hnext, Htrace.
    destruct (createAndSendOffer_idle None mid pc3 pc4 offer0)
      as (Hoffer & Hstate & _).
    { congruence. }
    { by rewrite Hpc. }
    { done. }
    { cbn. rewrite Hnx, Hpc. done. }
    { by rewrite Hpc, Hprev, Hnx. }
    { by rewrite (filterCandidates_preferTCP offer0 mid t). }
    rewrite Hprev, Hnx, (filterCandidates_preferTCP offer0 mid t) in Hoffer
      by done.
    rewrite Hoffer in Htrace. rewrite Hnext, Hstate.
    pose proof (addPendingCandidates_no_offer pc1 (pendingCandidates t)) as Hq.
    rewrite Hadd in Hq. cbn in Hq. destruct Hq as [Hq1 _].
    destruct Htrace as [->| ->].
    + split; [cbn; rewrite List.filter_app, Hq1; done|].
      split; [done|]. exists []. split; [|by left]. by rewrite app_nil_r.
    + split; [cbn; rewrite !List.filter_app, Hq1; done|].
      split; [done|]. exists [CallOnRemoteDescripitonSettled].
      split; [|by right]. cbn. by rewrite <- !app_assoc.
Qed.

(** ** One outstanding offer *)

Lemma outstandingFrom_app (n : nat) (evs evs' : list Event) :
  outstandingFrom n (evs ++ evs') = outstandingFrom (outstandingFrom n evs) evs'.
Proof. unfold outstandingFrom. apply foldl_app. Qed.

Lemma outstandingFrom_candidates (n : nat) (evs : list Event) :
  forallb isPcAddICECandidate evs = true → outstandingFrom n evs = n.
Proof.
  induction evs as [|[] evs IH]; cbn; done.
Qed.

Lemma createAndSendOffer_None_busy t :
  noRestartPending t →
  negotiationState t ≠ negotiationStateNone →
  trace (createAndSendOffer None t) = []
  ∧ negotiationState (next (createAndSendOffer None t)) ≠ negotiationStateNone
  ∧ noRestartPending (next (createAndSendOffer None t)).
Proof.
  intros [Hr Hg] Hs. unfold noRestartPending, createAndSendOffer.
  rewrite Hr. cbn.
  destruct (negotiationState t) eqn:E; [done| |];
    repeat case_match; cbn; rewrite ?E; done.
Qed.

Lemma createAndSendOffer_None_idle t :
  noRestartPending t →
  negotiationState t = negotiationStateNone →
  let r := createAndSendOffer None t in
  noRestartPending (next r)
  ∧ ((negotiationState (next r) = negotiationStateNone
      ∧ ∀ n, outstandingFrom n (trace r) = n)
     ∨ (negotiationState (next r) = negotiationStateClient
        ∧ ∀ n, outstandingFrom n (trace r) = S n)).
Proof.
  intros [Hr Hg] Hs. cbn zeta. unfold noRestartPending, createAndSendOffer.
  rewrite Hr. cbn. rewrite Hs. cbn.
  destruct (onOffer t); cbn; [|rewrite Hr, Hg, Hs; split; [done|by left]].
  case_bool_decide; cbn; [rewrite Hr, Hg, Hs; split; [done|by left]|].
  unfold createOfferAndNotify.
  destruct (previousAnswer t); cbn; rewrite Hr;
    repeat case_match; simplify_eq; cbn; rewrite ?Hs, ?Hr, ?Hg;
    first [ split; [done|]; left; done | split; [done|]; right; done ].
Qed.

Lemma createAndSendOffer_None_counts t (n : nat) :
  noRestartPending t → stateCounts t n →
  noRestartPending (next (createAndSendOffer None t))
  ∧ stateCounts (next (createAndSendOffer None t))
                (outstandingFrom n (trace (createAndSendOffer None t))).
Proof.
  intros Hno [[Hs ->]|[Hs ->]].
  - destruct (createAndSendOffer_None_idle t Hno Hs) as (Hno' & [[Hs' Hn]|[Hs' Hn]]);
      (split; [done|]); rewrite Hn; [left; done|right]. split; [|done].
    by rewrite Hs'.
  - destruct (createAndSendOffer_None_busy t Hno Hs) as (Htr & Hs' & Hno').
    split; [done|]. rewrite Htr. right. done.
Qed.

Lemma SetRemoteDescription_counts sd t (n : nat) :
  noRestartPending t → stateCounts t n →
  noRestartPending (next (SetRemoteDescription sd t))
  ∧ stateCounts (next (SetRemoteDescription sd t))
                (outstandingFrom n (trace (SetRemoteDescription sd t))).
Proof.
  intros [Hr Hg] Hcount.
  destruct (SetRemoteDescription_cases sd t)
    as [(Htr & Hs & Hr' & Hg')|[(evs & Htr & Hev & Hs & Hr' & Hg')|Hacc]].
  - split; [split; congruence|].
    assert (outstandingFrom n (trace (SetRemoteDescription sd t)) = n) as ->
      by (destruct Htr as [->|(e & ->)]; done).
    destruct Hcount as [[? ?]|[? ?]]; [left|right]; split; congruence.
  - split; [split; congruence|]. rewrite Htr. left. split; [done|].
    cbn. by apply outstandingFrom_candidates.
  - destruct Hacc as (cred & restart & pc1 & pc2 & evs & -> & Hset & Hadd).
    destruct (applyRemoteDescription_accepted sd cred restart t pc1 pc2 evs
                Hset Hadd)
      as (mid & Hnext & Htrace & _ & _ & Hidle & _ & _ & Hnx & Hga & _).
    cbn zeta in Hnext, Htrace.
    pose proof (addPendingCandidates_events pc1 (pendingCandidates t)) as Hev.
    rewrite Hadd in Hev. cbn in Hev.
    assert (Hmid : noRestartPending mid) by (split; congruence).
    set (again := if bool_decide (negotiationState t = negotiationRetry)
                     && bool_decide (webrtc.Type_ sd = webrtc.SDPTypeAnswer)
                  then createAndSendOffer None mid else mkResult mid [] None)
      in *.
    assert (noRestartPending (next again)
            ∧ stateCounts (next again) (outstandingFrom 0 (trace again)))
      as [Hno' Hc'].
    { subst again. case_match.
      - apply createAndSendOffer_None_counts; [done|by left].
      - cbn. split; [done|by left]. }
    rewrite Hnext. split; [done|].
    assert (outstandingFrom n (PcSetRemoteDescription sd None :: evs ++ trace again)
            = outstandingFrom 0 (trace again)) as Hout.
    { cbn. rewrite outstandingFrom_app.
      by rewrite (outstandingFrom_candidates _ _ Hev). }
    destruct Htrace as [->| ->].
    + by rewrite Hout.
    + rewrite outstandingFrom_app, Hout. done.
Qed.

Lemma call_counts (c : Call PC) t (n : nat) :
  noRestartPending t → stateCounts t n →
  noRestartPending (next (call c t))
  ∧ stateCounts (next (call c t)) (outstandingFrom n (trace (call c t))).
Proof.
  intros Hno Hcount. destruct c; cbn.
  - (* Negotiate *)
    unfold Negotiate, CreateAndSendOffer. destruct force; cbn; [|done].
    apply createAndSendOffer_None_counts; done.
  - (* the debouncer fires *)
    unfold debouncedNegotiateFired, CreateAndSendOffer.
    destruct (debouncedNegotiate t) as [[]|]; cbn; [done| |done].
    apply createAndSendOffer_None_counts; done.
  - by apply SetRemoteDescription_counts.
  - (* AddICECandidate *)
    unfold AddICECandidate, AddICECandidate_act. repeat case_match; cbn; done.
  - (* AddICECandidate, second step *)
    unfold AddICECandidate_act. repeat case_match; cbn; done.
  - (* the failure timer fires *)
    unfold signalStateCheckTimerFired. repeat case_match; done.
  - (* gathering state changes *)
    unfold onICEGatheringStateChange. destruct Hno as [Hr Hg].
    case_match; [|done]. rewrite Hg.
    destruct (pendingRestartIceOffer t) as [offer|]; [|done]. cbn.
    apply SetRemoteDescription_counts; done.
  - done.
  - done.
  - done.
  - done.
  - done.
  - done.
Qed.

Lemma run_counts (cs : list (Call PC)) t (n : nat) :
  noRestartPending t → stateCounts t n →
  noRestartPending (run cs t).1
  ∧ stateCounts (run cs t).1 (outstandingFrom n (run cs t).2).
Proof.
  revert t n. induction cs as [|c cs IH]; intros t n Hno Hcount; cbn; [done|].
  destruct (call_counts c t n Hno Hcount) as [Hno' Hcount'].
  specialize (IH _ _ Hno' Hcount').
  destruct (run cs (next (call c t))) as [t' evs]. cbn in *.
  by rewrite outstandingFrom_app.
Qed.

Lemma SetRemoteDescription_offer_after_apply sd t offer :
  GoOnOffer offer ∈ trace (SetRemoteDescription sd t) →
  ∃ rest, trace (SetRemoteDescription sd t)
          = PcSetRemoteDescription sd None :: rest.
Proof.
  destruct (SetRemoteDescription_cases sd t)
    as [(Htr & _)|[(evs & Htr & _)|Hacc]].
  - destruct Htr as [->|(e & ->)]; intros Hin.
    + by apply elem_of_nil in Hin.
    + apply list_elem_of_singleton in Hin. done.
  - rewrite Htr. eauto.
  - destruct Hacc as (cred & restart & pc1 & pc2 & evs & -> & Hset & Hadd).
    destruct (applyRemoteDescription_accepted sd cred restart t pc1 pc2 evs
                Hset Hadd) as (mid & _ & [-> | ->] & _); cbn; eauto.
Qed.

(** C1.  Take any sequence of calls to [Negotiate] and
    [SetRemoteDescription] on a new transport, interleaved in any way with
    candidates arriving, callbacks being registered, the debouncer, the
    failure timer and the gathering handler firing, and the peer connection
    changing state.  At every point at most one local offer is outstanding
    (handed to the offer callback and not yet followed by a remote
    description the connection accepted), and one is outstanding exactly
    when the negotiation state is not idle.  While the state is not idle,
    [Negotiate], the debouncer and the offer algorithm make no call at all,
    the failure timer firing hands out no offer and leaves the transport as
    it is, and any call that does hand out an offer has first applied a
    remote description. *)
Theorem one_outstanding_offer (pc0 : PC) (cs : list (Call PC)) :
  let t := (run cs (NewPCTransport pc0)).1 in
  let evs := (run cs (NewPCTransport pc0)).2 in
  (outstandingOffers evs ≤ 1)%nat
  ∧ (negotiationState t = negotiationStateNone ↔ outstandingOffers evs = 0%nat)
  ∧ (negotiationState t ≠ negotiationStateNone →
     (∀ force, trace (Negotiate force t) = [])
     ∧ trace (debouncedNegotiateFired t) = []
     ∧ trace (createAndSendOffer None t) = []
     ∧ (∀ n, List.filter isGoOnOffer (trace (signalStateCheckTimerFired n t)) = []
             ∧ next (signalStateCheckTimerFired n t) = t)
     ∧ (∀ (c : Call PC) offer,
          GoOnOffer offer ∈ trace (call c t) →
          ∃ sd rest, trace (call c t) = PcSetRemoteDescription sd None :: rest)).
Proof.
  cbn zeta.
  destruct (run_counts cs (NewPCTransport pc0) 0) as [Hno Hcount];
    [done|by left|].
  fold (outstandingOffers (run cs (NewPCTransport pc0)).2) in Hcount.
  set (t := (run cs (NewPCTransport pc0)).1) in *.
  set (evs := (run cs (NewPCTransport pc0)).2) in *.
  split; [destruct Hcount as [[_ ->]|[_ ->]]; lia|].
  split; [destruct Hcount as [[? ->]|[? ->]]; split; intros; done|].
  intros Hbusy.
  assert (Hquiet : ∀ t', noRestartPending t' →
            negotiationState t' ≠ negotiationStateNone →
            trace (createAndSendOffer None t') = [])
    by (intros t' ? ?; by apply createAndSendOffer_None_busy).
  split; [|split; [|split; [|split]]].
  - intros [|]; cbn; [|done]. by apply Hquiet.
  - unfold debouncedNegotiateFired, CreateAndSendOffer.
    destruct (debouncedNegotiate t) as [[]|]; cbn; [done| |done].
    by apply Hquiet.
  - by apply Hquiet.
  - intros n. unfold signalStateCheckTimerFired. by repeat case_match.
  - intros c offer. destruct c; cbn.
    + destruct force; cbn; [|intros Hin; by apply elem_of_nil in Hin].
      unfold CreateAndSendOffer. rewrite Hquiet by done.
      intros Hin; by apply elem_of_nil in Hin.
    + unfold debouncedNegotiateFired, CreateAndSendOffer.
      destruct (debouncedNegotiate t) as [[]|]; cbn;
        rewrite ?Hquiet by done; intros Hin; by apply elem_of_nil in Hin.
    + intros Hin. exists sd. by apply (SetRemoteDescription_offer_after_apply _ _ offer).
    + unfold AddICECandidate, AddICECandidate_act.
      repeat case_match; cbn; intros Hin;
        first [apply list_elem_of_singleton in Hin; done
              |by apply elem_of_nil in Hin].
    + unfold AddICECandidate_act.
      repeat case_match; cbn; intros Hin;
        first [apply list_elem_of_singleton in Hin; done
              |by apply elem_of_nil in Hin].
    + unfold signalStateCheckTimerFired. repeat case_match; cbn; intros Hin;
        first [apply list_elem_of_singleton in Hin; done
              |by apply elem_of_nil in Hin].
    + unfold onICEGatheringStateChange. destruct Hno as [_ Hg]. rewrite Hg.
      case_match; [|intros Hin; by apply elem_of_nil in Hin].
      destruct (pendingRestartIceOffer t) as [pending|]; cbn;
        [|intros Hin; by apply elem_of_nil in Hin].
      intros Hin. exists pending.
      by apply (SetRemoteDescription_offer_after_apply _ _ offer).
    + intros Hin; by apply elem_of_nil in Hin.
    + intros Hin; by apply elem_of_nil in Hin.
    + intros Hin; by apply elem_of_nil in Hin.
    + intros Hin; by apply elem_of_nil in Hin.
    + intros Hin; by apply elem_of_nil in Hin.
    + intros Hin; by apply elem_of_nil in Hin.
Qed.

(** ** The deferred remote restart offer *)

Lemma createAndSendOffer_ignores_pending options t
    (x : option webrtc.SessionDescription) :
  createAndSendOffer options (set_pendingRestartIceOffer x t)
  = mkResult (set_pendingRestartIceOffer x (next (createAndSendOffer options t)))
             (trace (createAndSendOffer options t))
             (err (createAndSendOffer options t)).
Proof.
  unfold createAndSendOffer, createOfferAndNotify, filterCandidates.
  repeat (cbn; case_match; simplify_eq); cbn; reflexivity.
Qed.

Local Arguments createAndSendOffer : simpl never.






End TransportFacts.

(* ===================================================================== *)
(** * Further properties of the transport controller *)
(* ===================================================================== *)

Section TransportMore.
Import rtc.
Context {PC : Type} {stack : webrtc.PeerConnection PC}.

Implicit Types (t : PCTransport PC) (sd offer : webrtc.SessionDescription).
Implicit Types (options : option webrtc.OfferOptions).

Local Arguments createAndSendOffer : simpl never.

(** What a run of the offer algorithm leaves alone, and the two ways it can
    end as far as the negotiation record goes: no offer produced and the
    record untouched, or one offer produced and a new negotiation
    recorded. *)
Lemma createAndSendOffer_record options t :
  let r := createAndSendOffer options t in
  debouncedNegotiate (next r) = debouncedNegotiate t
  ∧ pendingCandidates (next r) = pendingCandidates t
  ∧ currentOfferIceCredential (next r) = currentOfferIceCredential t
  ∧ onOffer (next r) = onOffer t
  ∧ onNegotiationFailed (next r) = onNegotiationFailed t
  ∧ onRemoteDescripitonSettled (next r) = onRemoteDescripitonSettled t
  ∧ preferTCP (next r) = preferTCP t
  ∧ ((producedOffer (trace r) = false
      ∧ offersProduced (trace r) = 0%nat
      ∧ negotiateCounter (next r) = negotiateCounter t
      ∧ signalStateCheckTimer (next r) = signalStateCheckTimer t
      ∧ negotiationPending (next r) = negotiationPending t
      ∧ (restartAfterGathering t = true →
         restartAfterGathering (next r) = true))
     ∨ (producedOffer (trace r) = true
        ∧ offersProduced (trace r) = 1%nat
        ∧ negotiateCounter (next r) = wrapInt32 (negotiateCounter t + 1)
        ∧ signalStateCheckTimer (next r) = Some (negotiateCounter (next r))
        ∧ negotiationPending (next r) = ∅
        ∧ restartAfterGathering (next r) = false
        ∧ negotiationState (next r) = negotiationStateClient
        ∧ err r = None)).
Proof.
  cbn zeta. unfold createAndSendOffer, createOfferAndNotify.
  destruct t; cbn.
  repeat (case_match; simplify_eq; cbn);
    repeat (split; [reflexivity|]);
    first [ left; repeat split; done | right; repeat split; done ].
Qed.

(** X5.  A publisher added with [AddNegotiationPending] is reported pending
    and no other publisher's status changes; a new transport has none
    pending.  The whole set is emptied by a run of the offer algorithm that
    produces an offer, and left as it is by a run that produces none. *)
Theorem negotiationPending_until_offer (publisherID : string)
    (options : option webrtc.OfferOptions) (t : PCTransport PC) :
  IsNegotiationPending publisherID (AddNegotiationPending publisherID t) = true
  ∧ (∀ other, other ≠ publisherID →
       IsNegotiationPending other (AddNegotiationPending publisherID t)
       = IsNegotiationPending other t)
  ∧ (∀ (pc0 : PC) id, IsNegotiationPending id (NewPCTransport pc0) = false)
  ∧ (producedOffer (trace (createAndSendOffer options t)) = true →
     ∀ id, IsNegotiationPending id (next (createAndSendOffer options t)) = false)
  ∧ (producedOffer (trace (createAndSendOffer options t)) = false →
     ∀ id, IsNegotiationPending id (next (createAndSendOffer options t))
           = IsNegotiationPending id t).
Proof.
  unfold IsNegotiationPending, AddNegotiationPending.
  split.
  { destruct t; cbn. apply bool_decide_eq_true_2, elem_of_union. left.
    by apply elem_of_singleton. }
  split.
  { intros other Hne. destruct t; cbn. apply bool_decide_ext.
    rewrite elem_of_union, elem_of_singleton.
    split; [intros [?|?]; done|by right]. }
  split.
  { intros pc0 id; cbn. apply bool_decide_eq_false_2, not_elem_of_empty. }
  destruct (createAndSendOffer_record options t)
    as (_ & _ & _ & _ & _ & _ & _ & [(Hp & _ & _ & _ & Hset & _)
                                    |(Hp & _ & _ & _ & Hset & _)]);
    cbn zeta in *; rewrite Hp, Hset.
  - split; [done|]. done.
  - split; [|done]. intros _ id.
    apply bool_decide_eq_false_2, not_elem_of_empty.
Qed.

Lemma set_debouncedNegotiate_twice (x y : option DebouncedFunc) t :
  set_debouncedNegotiate x (set_debouncedNegotiate y t)
  = set_debouncedNegotiate x t.
Proof. by destruct t. Qed.

Lemma Negotiate_burst (n : nat) t :
  run (replicate (S n) (CallNegotiate false)) t
  = (set_debouncedNegotiate (Some DebouncedCreateAndSendOffer) t, []).
Proof.
  revert t. induction n as [|n IH]; intros t.
  - reflexivity.
  - change (replicate (S (S n)) (CallNegotiate (PC:=PC) false))
      with (CallNegotiate (PC:=PC) false
            :: replicate (S n) (CallNegotiate false)).
    cbn [run call Negotiate next trace]. rewrite IH.
    by rewrite set_debouncedNegotiate_twice.
Qed.

(** X6.  Any number of unforced [Negotiate] calls, whatever the debouncer
    held before, makes no call on the connection and leaves the transport
    as one such call does; when the debouncer then fires, the offer
    algorithm runs once, and a second firing does nothing.  A forced
    [Negotiate] runs the offer algorithm at once and replaces what the
    debouncer held, so that its later firing does nothing. *)
Theorem Negotiate_debounced (n : nat) (t : PCTransport PC) :
  let burst := run (replicate (S n) (CallNegotiate false)) t in
  burst.2 = []
  ∧ burst.1 = next (Negotiate false t)
  ∧ trace (debouncedNegotiateFired burst.1) = trace (createAndSendOffer None t)
  ∧ next (debouncedNegotiateFired burst.1)
    = set_debouncedNegotiate None (next (createAndSendOffer None t))
  ∧ trace (debouncedNegotiateFired (next (debouncedNegotiateFired burst.1))) = []
  ∧ trace (Negotiate true burst.1) = trace (createAndSendOffer None t)
  ∧ trace (debouncedNegotiateFired (next (Negotiate true burst.1))) = [].
Proof.
  cbn zeta. rewrite Negotiate_burst. cbn [fst snd].
  assert (Hframe : ∀ (x : option DebouncedFunc) u,
            createAndSendOffer None (set_debouncedNegotiate x u)
            = mkResult (set_debouncedNegotiate x
                          (next (createAndSendOffer None u)))
                       (trace (createAndSendOffer None u))
                       (err (createAndSendOffer None u))).
  { intros x u. unfold createAndSendOffer, createOfferAndNotify,
      filterCandidates. destruct u; cbn.
    repeat (case_match; simplify_eq; cbn); reflexivity. }
  split; [done|]. split; [done|].
  unfold debouncedNegotiateFired, Negotiate, CreateAndSendOffer.
  cbn [debouncedNegotiate set_debouncedNegotiate next trace].
  rewrite !set_debouncedNegotiate_twice, !Hframe. cbn [next trace].
  split; [done|]. split; [done|].
  split; [by destruct (next (createAndSendOffer None t))|].
  split; [done|]. by destruct (next (createAndSendOffer None t)).
Qed.

(** X7.  An ICE restart requested (by option or by [restartAtNextOffer])
    while the connection is gathering makes no call on the connection and
    only sets [restartAfterGathering].  A run of the offer algorithm that
    produces an offer clears that flag, and one that produces none never
    clears it.  With the flag set, the gathering handler seeing Complete
    runs the offer algorithm with [ICERestart] set and leaves a deferred
    remote offer where it is. *)
Theorem ice_restart_waits_for_gathering (options : option webrtc.OfferOptions)
    (t : PCTransport PC) :
  (onOffer t = true →
   webrtc.ConnectionState (pc t) ≠ webrtc.PeerConnectionStateClosed →
   optionsICERestart options || restartAtNextOffer t = true →
   webrtc.ICEGatheringState_of (pc t) = webrtc.ICEGatheringStateGathering →
   createAndSendOffer options t
   = mkResult (set_restartAfterGathering true t) [] None)
  ∧ (producedOffer (trace (createAndSendOffer options t)) = true →
     restartAfterGathering (next (createAndSendOffer options t)) = false)
  ∧ (producedOffer (trace (createAndSendOffer options t)) = false →
     restartAfterGathering t = true →
     restartAfterGathering (next (createAndSendOffer options t)) = true)
  ∧ (restartAfterGathering t = true →
     let h := onICEGatheringStateChange webrtc.ICEGatheringStateComplete t in
     let r := createAndSendOffer (Some {| webrtc.ICERestart := true |}) t in
     next h = next r
     ∧ trace h = trace r
     ∧ err h = None
     ∧ pendingRestartIceOffer (next h) = pendingRestartIceOffer t).
Proof.
  split.
  { intros Hcb Hopen Hrestart Hgathering. unfold createAndSendOffer.
    rewrite Hcb, (bool_decide_eq_false_2 _ Hopen), Hrestart,
      (bool_decide_eq_true_2 _ Hgathering). reflexivity. }
  destruct (createAndSendOffer_record options t)
    as (_ & _ & _ & _ & _ & _ & _ & [(Hp & _ & _ & _ & _ & Hkeep)
                                    |(Hp & _ & _ & _ & _ & Hclear & _)]);
    cbn zeta in *; rewrite Hp.
  - split; [done|]. split; [auto|]. intros Hset.
    unfold onICEGatheringStateChange. rewrite bool_decide_eq_true_2 by done.
    rewrite Hset. cbn. split; [done|]. split; [done|]. split; [done|].
    pose proof (createAndSendOffer_ignores_pending
                  (Some {| webrtc.ICERestart := true |})
                  (set_pendingRestartIceOffer None t)
                  (pendingRestartIceOffer t)) as Hpending.
    assert (set_pendingRestartIceOffer (pendingRestartIceOffer t)
              (set_pendingRestartIceOffer None t) = t) as Heta
      by (by destruct t).
    rewrite Heta in Hpending. rewrite Hpending. cbn.
    by destruct (next _).
  - split; [done|]. split; [done|]. intros Hset.
    unfold onICEGatheringStateChange. rewrite bool_decide_eq_true_2 by done.
    rewrite Hset. cbn. split; [done|]. split; [done|]. split; [done|].
    pose proof (createAndSendOffer_ignores_pending
                  (Some {| webrtc.ICERestart := true |})
                  (set_pendingRestartIceOffer None t)
                  (pendingRestartIceOffer t)) as Hpending.
    assert (set_pendingRestartIceOffer (pendingRestartIceOffer t)
              (set_pendingRestartIceOffer None t) = t) as Heta
      by (by destruct t).
    rewrite Heta in Hpending. rewrite Hpending. cbn.
    by destruct (next _).
Qed.

(** X8.  Whenever the offer algorithm asks the connection for an offer, the
    one-shot marks [previousAnswer] and [restartAtNextOffer] are cleared
    afterwards, also when the connection then fails to create or to accept
    the offer.  The options passed ask for an ICE restart if either mark was
    set or the caller asked for one; with neither mark set they are the
    caller's options. *)
Theorem ice_restart_marks_one_shot (options : option webrtc.OfferOptions)
    (t : PCTransport PC)
    (passed : option webrtc.OfferOptions)
    (res : webrtc.SessionDescription + webrtc.Error) :
  PcCreateOffer passed res ∈ trace (createAndSendOffer options t) →
  previousAnswer (next (createAndSendOffer options t)) = None
  ∧ restartAtNextOffer (next (createAndSendOffer options t)) = false
  ∧ (previousAnswer t ≠ None ∨ restartAtNextOffer t = true
     ∨ optionsICERestart options = true →
     optionsICERestart passed = true)
  ∧ (previousAnswer t = None → restartAtNextOffer t = false →
     passed = options).
Proof.
  unfold createAndSendOffer, createOfferAndNotify, ensureICERestart.
  destruct t; cbn.
  repeat (case_match; simplify_eq; cbn);
    rewrite ?list_elem_of_In; cbn; intros Hin;
    repeat (destruct Hin as [Hin|Hin]; simplify_eq); try done;
    (split; [done|]; split; [done|]; split;
     [intros [?|[?|?]]; done|intros; done]).
Qed.

(** X9.  An ICE restart requested while a negotiation is under way, on a
    connection that has a current remote description, first applies that
    description again.  If the connection refuses it, its error is
    returned, no offer is asked for and the negotiation record is left as it
    was; if it accepts, the algorithm goes on to ask for an offer. *)
Theorem ice_restart_recovers_with_current_remote
    (options : option webrtc.OfferOptions) (t : PCTransport PC)
    (currentSD : webrtc.SessionDescription)
    (Hcb : onOffer t = true)
    (Hopen : webrtc.ConnectionState (pc t) ≠ webrtc.PeerConnectionStateClosed)
    (Hgather : webrtc.ICEGatheringState_of (pc t)
               ≠ webrtc.ICEGatheringStateGathering)
    (Hrestart : optionsICERestart options || restartAtNextOffer t = true)
    (Hbusy : negotiationState t ≠ negotiationStateNone)
    (Hcurrent : webrtc.CurrentRemoteDescription (pc t) = Some currentSD) :
  let r := createAndSendOffer options t in
  (∀ e, (webrtc.SetRemoteDescription (pc t) currentSD).2 = Some e →
        trace r = [PcSetRemoteDescription currentSD (Some e)]
        ∧ err r = Some (StackError e)
        ∧ next r = set_pc (webrtc.SetRemoteDescription (pc t) currentSD).1 t)
  ∧ ((webrtc.SetRemoteDescription (pc t) currentSD).2 = None →
     ∃ passed res rest,
       trace r = PcSetRemoteDescription currentSD None
                 :: PcCreateOffer passed res :: rest
       ∧ optionsICERestart passed = true).
Proof.
  cbn zeta. unfold createAndSendOffer.
  rewrite Hcb, (bool_decide_eq_false_2 _ Hopen), Hrestart,
    (bool_decide_eq_false_2 _ Hgather), (bool_decide_eq_false_2 _ Hbusy),
    Hcurrent.
  cbn [negb andb].
  destruct (webrtc.SetRemoteDescription (pc t) currentSD) as [pc1 [e|]];
    cbn [fst snd].
  - split; [|done]. intros e' [= <-]. done.
  - split; [done|]. intros _.
    unfold createOfferAndNotify, ensureICERestart. destruct t; cbn in *.
    repeat (case_match; simplify_eq; cbn); eexists _, _, _;
      (split; [reflexivity|]); cbn; try done;
      by rewrite orb_false_r in Hrestart.
Qed.

(** X10.  The offer callback only ever receives a description the
    connection holds as local description: an offer the connection has just
    accepted as local description, in which case it is the last thing the
    algorithm does, or, on the recovery path, the local description the
    connection already had, in which case nothing else is done.  Conversely
    every offer the connection accepts is handed to the callback. *)
Theorem offers_are_local_descriptions (options : option webrtc.OfferOptions)
    (t : PCTransport PC) (offer : webrtc.SessionDescription) :
  let r := createAndSendOffer options t in
  (GoOnOffer offer ∈ trace r →
   (∃ before, trace r = before ++ [PcSetLocalDescription offer None;
                                   GoOnOffer offer]
              ∧ List.filter isGoOnOffer before = [])
   ∨ (webrtc.LocalDescription (pc t) = Some offer
      ∧ trace r = [GoOnOffer offer]
      ∧ negotiateCounter (next r) = negotiateCounter t))
  ∧ (PcSetLocalDescription offer None ∈ trace r → GoOnOffer offer ∈ trace r).
Proof.
  cbn zeta. unfold createAndSendOffer, createOfferAndNotify.
  destruct t; cbn.
  repeat (case_match; simplify_eq; cbn);
    rewrite ?list_elem_of_In; cbn;
    (split; intros Hin;
     repeat (destruct Hin as [Hin|Hin]; simplify_eq); try done);
    first [ by right
          | left; by eexists [_]
          | left; by eexists [_; _]
          | by auto 10 ].
Qed.

(** The three outcomes of [applyRemoteDescription], with the transport
    each leaves. *)
Lemma applyRemoteDescription_refused sd (iceCredential : string)
    (offerRestartICE : bool) t (pc1 : PC) (e : webrtc.Error) :
  webrtc.SetRemoteDescription (pc t) sd = (pc1, Some e) →
  applyRemoteDescription sd iceCredential offerRestartICE t
  = mkResult (set_pc pc1 t) [PcSetRemoteDescription sd (Some e)]
             (Some (StackError e)).
Proof. intros Hset. unfold applyRemoteDescription. by rewrite Hset. Qed.

Lemma applyRemoteDescription_candidate_refused sd (iceCredential : string)
    (offerRestartICE : bool) t (pc1 pc2 : PC) (evs : list Event)
    (e : webrtc.Error) :
  webrtc.SetRemoteDescription (pc t) sd = (pc1, None) →
  addPendingCandidates pc1 (pendingCandidates t) = (pc2, evs, Some e) →
  applyRemoteDescription sd iceCredential offerRestartICE t
  = mkResult (set_pc pc2 (afterAccepted iceCredential offerRestartICE pc1 t))
             (PcSetRemoteDescription sd None :: evs)
             (Some (StackError e)).
Proof.
  intros Hset Hadd. unfold applyRemoteDescription, afterAccepted.
  rewrite Hset. destruct t; cbn in *.
  destruct (String.eqb _ "" || offerRestartICE); cbn; by rewrite Hadd.
Qed.

Lemma applyRemoteDescription_settled sd (iceCredential : string)
    (offerRestartICE : bool) t (pc1 pc2 : PC) (evs : list Event) :
  webrtc.SetRemoteDescription (pc t) sd = (pc1, None) →
  addPendingCandidates pc1 (pendingCandidates t) = (pc2, evs, None) →
  let mid := settled iceCredential offerRestartICE pc1 pc2 t in
  let again :=
    if bool_decide (negotiationState t = negotiationRetry)
       && bool_decide (webrtc.Type_ sd = webrtc.SDPTypeAnswer)
    then createAndSendOffer None mid else mkResult mid [] None in
  applyRemoteDescription sd iceCredential offerRestartICE t
  = match onRemoteDescripitonSettled (next again) with
    | Some r =>
        mkResult (next again)
                 ((PcSetRemoteDescription sd None :: evs ++ trace again)
                  ++ [CallOnRemoteDescripitonSettled]) r
    | None =>
        mkResult (next again)
                 (PcSetRemoteDescription sd None :: evs ++ trace again) None
    end.
Proof.
  intros Hset Hadd. unfold applyRemoteDescription, settled, afterAccepted.
  rewrite Hset. destruct t; cbn in *.
  destruct (String.eqb _ "" || offerRestartICE); cbn; rewrite Hadd; cbn;
    by destruct (bool_decide _ && bool_decide _).
Qed.

Lemma afterAccepted_fields (iceCredential : string) (offerRestartICE : bool)
    (pc1 : PC) t :
  let u := afterAccepted iceCredential offerRestartICE pc1 t in
  pc u = pc1
  ∧ negotiationState u = negotiationStateNone
  ∧ signalStateCheckTimer u = None
  ∧ currentOfferIceCredential u
    = (if String.eqb (currentOfferIceCredential t) "" || offerRestartICE
       then iceCredential else currentOfferIceCredential t)
  ∧ pendingCandidates u = pendingCandidates t
  ∧ negotiateCounter u = negotiateCounter t
  ∧ pendingRestartIceOffer u = pendingRestartIceOffer t
  ∧ onOffer u = onOffer t
  ∧ onNegotiationFailed u = onNegotiationFailed t
  ∧ onRemoteDescripitonSettled u = onRemoteDescripitonSettled t
  ∧ restartAtNextOffer u = restartAtNextOffer t
  ∧ restartAfterGathering u = restartAfterGathering t
  ∧ previousAnswer u = previousAnswer t
  ∧ negotiationPending u = negotiationPending t
  ∧ debouncedNegotiate u = debouncedNegotiate t
  ∧ preferTCP u = preferTCP t.
Proof.
  cbn zeta. unfold afterAccepted. destruct t; cbn.
  by destruct (String.eqb _ "" || offerRestartICE).
Qed.

Lemma settled_fields (iceCredential : string) (offerRestartICE : bool)
    (pc1 pc2 : PC) t :
  let u := settled iceCredential offerRestartICE pc1 pc2 t in
  pc u = pc2
  ∧ negotiationState u = negotiationStateNone
  ∧ signalStateCheckTimer u = None
  ∧ currentOfferIceCredential u
    = (if String.eqb (currentOfferIceCredential t) "" || offerRestartICE
       then iceCredential else currentOfferIceCredential t)
  ∧ pendingCandidates u = []
  ∧ negotiateCounter u = negotiateCounter t
  ∧ pendingRestartIceOffer u = pendingRestartIceOffer t
  ∧ onOffer u = onOffer t
  ∧ onNegotiationFailed u = onNegotiationFailed t
  ∧ onRemoteDescripitonSettled u = onRemoteDescripitonSettled t
  ∧ restartAtNextOffer u = restartAtNextOffer t
  ∧ restartAfterGathering u = restartAfterGathering t
  ∧ previousAnswer u = previousAnswer t
  ∧ negotiationPending u = negotiationPending t
  ∧ debouncedNegotiate u = debouncedNegotiate t
  ∧ preferTCP u = preferTCP t.
Proof.
  cbn zeta. unfold settled, afterAccepted. destruct t; cbn.
  by destruct (String.eqb _ "" || offerRestartICE).
Qed.

Lemma applyRemoteDescription_credential sd (iceCredential : string)
    (offerRestartICE : bool) t :
  let r := applyRemoteDescription sd iceCredential offerRestartICE t in
  ((PcSetRemoteDescription sd None ∉ trace r)
   ∧ currentOfferIceCredential (next r) = currentOfferIceCredential t)
  ∨ (PcSetRemoteDescription sd None ∈ trace r
     ∧ currentOfferIceCredential (next r)
       = (if String.eqb (currentOfferIceCredential t) "" || offerRestartICE
          then iceCredential else currentOfferIceCredential t)).
Proof.
  cbn zeta.
  destruct (webrtc.SetRemoteDescription (pc t) sd) as [pc1 [e|]] eqn:Hset.
  { left. rewrite (applyRemoteDescription_refused _ _ _ _ _ _ Hset). cbn.
    split; [|by destruct t]. intros Hin%list_elem_of_singleton. done. }
  right.
  destruct (addPendingCandidates pc1 (pendingCandidates t))
    as [[pc2 evs] [e|]] eqn:Hadd.
  - rewrite (applyRemoteDescription_candidate_refused _ _ _ _ _ _ _ _ Hset Hadd).
    cbn [next trace]. split; [apply elem_of_cons; by left|].
    destruct (afterAccepted_fields iceCredential offerRestartICE pc1 t)
      as (_ & _ & _ & <- & _).
    by destruct (afterAccepted _ _ _ _).
  - rewrite (applyRemoteDescription_settled _ _ _ _ _ _ _ Hset Hadd).
    destruct (settled_fields iceCredential offerRestartICE pc1 pc2 t)
      as (_ & _ & _ & <- & _).
    set (mid := settled iceCredential offerRestartICE pc1 pc2 t).
    assert (Hagain : currentOfferIceCredential
              (next (if bool_decide (negotiationState t = negotiationRetry)
                        && bool_decide (webrtc.Type_ sd = webrtc.SDPTypeAnswer)
                     then createAndSendOffer None mid
                     else mkResult mid [] None))
              = currentOfferIceCredential mid).
    { case_match; [|done].
      by destruct (createAndSendOffer_record None mid) as (_ & _ & -> & _). }
    destruct (bool_decide (negotiationState t = negotiationRetry)
              && bool_decide (webrtc.Type_ sd = webrtc.SDPTypeAnswer));
      cbn [next trace] in *;
      destruct (onRemoteDescripitonSettled _); cbn [next trace];
      (split; [apply elem_of_cons; by left|done]).
Qed.

(** X11.  [SetRemoteDescription] keeps [currentOfferIceCredential] up to
    date with the remote offers the connection accepted.  A description
    that is not an offer never changes it.  An offer that cannot be parsed,
    or from which no single credential can be extracted, is refused with
    that error before anything is touched.  For an offer with credential
    [user:pwd], the stored credential is that credential once the
    connection has accepted the offer, whether or not the queued candidates
    and the follow-up succeed, and is unchanged as long as the connection
    has not accepted it. *)
Theorem SetRemoteDescription_credential (sd : webrtc.SessionDescription)
    (t : PCTransport PC) :
  let r := SetRemoteDescription sd t in
  (webrtc.Type_ sd ≠ webrtc.SDPTypeOffer →
   currentOfferIceCredential (next r) = currentOfferIceCredential t)
  ∧ (webrtc.Type_ sd = webrtc.SDPTypeOffer →
     (∀ e, webrtc.Unmarshal sd = inr e →
           r = mkResult t [] (Some (StackError e)))
     ∧ (∀ parsed e, webrtc.Unmarshal sd = inl parsed →
          extractICECredential parsed = inr e →
          r = mkResult t [] (Some (StackError e)))
     ∧ (∀ parsed user pwd, webrtc.Unmarshal sd = inl parsed →
          extractICECredential parsed = inl (user, pwd) →
          (PcSetRemoteDescription sd None ∈ trace r →
           currentOfferIceCredential (next r) = user +:+ ":" +:+ pwd)
          ∧ (PcSetRemoteDescription sd None ∉ trace r →
             currentOfferIceCredential (next r) = currentOfferIceCredential t))).
Proof.
  cbn zeta. unfold SetRemoteDescription. split.
  - intros Htype. rewrite (bool_decide_eq_false_2 _ Htype). cbn [andb].
    destruct (applyRemoteDescription_credential sd "" false t)
      as [[_ ->]|[_ ->]]; [done|].
    rewrite orb_false_r.
    destruct (String.eqb (currentOfferIceCredential t) "") eqn:E; [|done].
    by apply String.eqb_eq in E.
  - intros Htype. rewrite (bool_decide_eq_true_2 _ Htype).
    unfold isRemoteOfferRestartICE.
    split; [by intros e ->|]. split; [by intros parsed e -> ->|].
    intros parsed user pwd -> ->.
    set (credential := user +:+ ":" +:+ pwd).
    set (restart := negb (String.eqb (currentOfferIceCredential t) "")
                    && negb (String.eqb (currentOfferIceCredential t) credential)).
    destruct (restart && bool_decide _).
    + cbn. split; [intros Hin; by apply elem_of_nil in Hin|].
      intros _. by destruct t.
    + destruct (applyRemoteDescription_credential sd credential restart t)
        as [[Hnot ->]|[Hin ->]]; [done|].
      split; [|done]. intros _. subst restart.
      destruct (String.eqb (currentOfferIceCredential t) "") eqn:E1; [done|].
      destruct (String.eqb (currentOfferIceCredential t) credential) eqn:E2;
        [|done].
      cbn. by apply String.eqb_eq in E2.
Qed.

(** The loop over the queued candidates either accepts them all or stops at
    the first one refused. *)
Lemma addPendingCandidates_stops (p : PC) (cs : list webrtc.ICECandidateInit) :
  (∃ p', addPendingCandidates p cs
         = (p', map (fun c => PcAddICECandidate c None) cs, None))
  ∨ (∃ p' applied c e rest,
       addPendingCandidates p cs
       = (p', map (fun c => PcAddICECandidate c None) applied
              ++ [PcAddICECandidate c (Some e)], Some e)
       ∧ cs = applied ++ c :: rest).
Proof.
  revert p. induction cs as [|c cs IH]; intros p; cbn.
  - left. by eexists.
  - destruct (webrtc.AddICECandidate p c) as [p1 [e|]].
    + right. by exists p1, [], c, e, cs.
    + destruct (IH p1) as [(p' & ->)|(p' & applied & c' & e & rest & -> & ->)].
      * left. by eexists.
      * right. by exists p', (c :: applied), c', e, rest.
Qed.

Lemma SetRemoteDescription_outcome sd t :
  Outcome sd t (SetRemoteDescription sd t).
Proof.
  unfold SetRemoteDescription.
  destruct (if bool_decide (webrtc.Type_ sd = webrtc.SDPTypeOffer)
            then isRemoteOfferRestartICE sd t else inl ("", false))
    as [[iceCredential offerRestartICE]|e]; [|constructor].
  destruct (offerRestartICE && bool_decide _); [constructor|].
  destruct (webrtc.SetRemoteDescription (pc t) sd) as [pc1 [e|]] eqn:Hset.
  { rewrite (applyRemoteDescription_refused _ _ _ _ _ _ Hset). constructor. }
  destruct (addPendingCandidates_stops pc1 (pendingCandidates t))
    as [(pc2 & Hadd)|(pc2 & applied & c & e & rest & Hadd & Hq)].
  - rewrite (applyRemoteDescription_settled _ _ _ _ _ _ _ Hset Hadd).
    cbn zeta.
    destruct (onRemoteDescripitonSettled _) as [ret|] eqn:Hcb.
    + rewrite <- app_comm_cons, <- app_assoc.
      eapply Settled; [reflexivity|by right|done].
    + replace (PcSetRemoteDescription sd None
               :: map (fun c => PcAddICECandidate c None) (pendingCandidates t)
               ++ trace _)
        with (PcSetRemoteDescription sd None
              :: map (fun c => PcAddICECandidate c None) (pendingCandidates t)
              ++ trace (if bool_decide (negotiationState t = negotiationRetry)
                           && bool_decide (webrtc.Type_ sd = webrtc.SDPTypeAnswer)
                        then createAndSendOffer None
                               (settled iceCredential offerRestartICE pc1 pc2 t)
                        else mkResult
                               (settled iceCredential offerRestartICE pc1 pc2 t)
                               [] None) ++ [])
        by (by rewrite app_nil_r).
      eapply Settled; [reflexivity|by left|done].
  - rewrite (applyRemoteDescription_candidate_refused _ _ _ _ _ _ _ _ Hset Hadd).
    by eapply CandidateRefused.
Qed.

Lemma createAndSendOffer_from_idle options t :
  negotiationState t = negotiationStateNone →
  let r := createAndSendOffer options t in
  List.filter isPcSetRemoteDescription (trace r) = []
  ∧ ((producedOffer (trace r) = false
      ∧ negotiationState (next r) = negotiationStateNone
      ∧ List.filter isGoOnOffer (trace r) = [])
     ∨ (producedOffer (trace r) = true
        ∧ negotiationState (next r) = negotiationStateClient)).
Proof.
  intros Hidle. cbn zeta. unfold createAndSendOffer, createOfferAndNotify.
  destruct t; cbn in *. subst.
  rewrite (bool_decide_eq_true_2 (negotiationStateNone = negotiationStateNone))
    by done.
  cbn [negb]. rewrite andb_false_r.
  repeat (case_match; simplify_eq; cbn);
    (split; [reflexivity|]);
    first [ left; repeat split; done | right; repeat split; done ].
Qed.

Lemma filter_candidate_events (f : Event → bool)
    (cs : list webrtc.ICECandidateInit) :
  (∀ c, f (PcAddICECandidate c None) = false) →
  List.filter f (map (fun c => PcAddICECandidate c None) cs) = [].
Proof.
  intros Hf. induction cs as [|c cs IH]; cbn; [done|]. by rewrite Hf.
Qed.

(** X12.  When the connection refuses the description,
    [SetRemoteDescription] returns its error having done nothing else: the
    transport differs at most in the connection.  When the connection
    accepts the description but then refuses one of the queued candidates,
    the error of that candidate is returned after the candidates before it
    were applied; the queue is left whole, those already applied included;
    the negotiation state is idle and the failure timer stopped all the
    same; no offer follows and the settled callback is not invoked. *)
Theorem SetRemoteDescription_failures (sd : webrtc.SessionDescription)
    (t : PCTransport PC) :
  let r := SetRemoteDescription sd t in
  (∀ e, PcSetRemoteDescription sd (Some e) ∈ trace r →
        trace r = [PcSetRemoteDescription sd (Some e)]
        ∧ err r = Some (StackError e)
        ∧ next r = set_pc (pc (next r)) t)
  ∧ (∀ c e, PcAddICECandidate c (Some e) ∈ trace r →
        err r = Some (StackError e)
        ∧ pendingCandidates (next r) = pendingCandidates t
        ∧ negotiationState (next r) = negotiationStateNone
        ∧ signalStateCheckTimer (next r) = None
        ∧ ∃ applied rest,
            pendingCandidates t = applied ++ c :: rest
            ∧ trace r = PcSetRemoteDescription sd None
                        :: map (fun c => PcAddICECandidate c None) applied
                        ++ [PcAddICECandidate c (Some e)]).
Proof.
  cbn zeta.
  destruct (SetRemoteDescription_outcome sd t)
    as [e0| |pc1 e0|cred restart pc1 pc2 applied rest c0 e0 Hq
       |cred restart pc1 pc2 again settledEvent Hagain Hsettled ret Hret];
    cbn [next trace err].
  - split; [intros e Hin|intros c e Hin]; by apply elem_of_nil in Hin.
  - split; [intros e Hin|intros c e Hin]; by apply elem_of_nil in Hin.
  - split.
    + intros e Hin%list_elem_of_singleton. simplify_eq.
      split; [done|]. split; [done|]. by destruct t.
    + intros c e Hin%list_elem_of_singleton. done.
  - split.
    + intros e [Hin|Hin]%elem_of_cons; [done|].
      apply elem_of_app in Hin as [Hin|Hin%list_elem_of_singleton]; [|done].
      apply list_elem_of_fmap in Hin as (? & ? & _). done.
    + intros c e [Hin|Hin]%elem_of_cons; [done|].
      apply elem_of_app in Hin as [Hin|Hin%list_elem_of_singleton].
      { apply list_elem_of_fmap in Hin as (? & ? & _). done. }
      simplify_eq.
      destruct (afterAccepted_fields cred restart pc1 t)
        as (_ & Hs & Ht & _ & Hp & _).
      cbn zeta in *. split; [done|].
      split; [by destruct (afterAccepted cred restart pc1 t)|].
      split; [by destruct (afterAccepted cred restart pc1 t)|].
      split; [by destruct (afterAccepted cred restart pc1 t)|].
      by exists applied, rest.
  - assert (Hidle : negotiationState (settled cred restart pc1 pc2 t)
                    = negotiationStateNone)
      by apply settled_fields.
    assert (Hnone : List.filter isPcSetRemoteDescription (trace again) = []
                    ∧ forallb (fun ev => negb (isPcAddICECandidate ev))
                              (trace again) = true).
    { subst again. case_match; [|done].
      split; [by apply createAndSendOffer_from_idle
             |apply createAndSendOffer_no_candidates]. }
    destruct Hnone as [Hnoset Hnocand].
    split.
    + intros e [Hin|Hin]%elem_of_cons; [done|]. exfalso.
      apply elem_of_app in Hin as [Hin|Hin].
      { apply list_elem_of_fmap in Hin as (? & ? & _). done. }
      apply elem_of_app in Hin as [Hin|Hin].
      * assert (PcSetRemoteDescription sd (Some e)
                ∈ List.filter isPcSetRemoteDescription (trace again)) as Hf
          by (apply list_elem_of_In, filter_In; split;
              [by apply list_elem_of_In|done]).
        rewrite Hnoset in Hf. by apply elem_of_nil in Hf.
      * destruct Hsettled as [[-> _]| ->];
          [by apply elem_of_nil in Hin
          |by apply list_elem_of_singleton in Hin].
    + intros c e [Hin|Hin]%elem_of_cons; [done|]. exfalso.
      apply elem_of_app in Hin as [Hin|Hin].
      { apply list_elem_of_fmap in Hin as (? & ? & _). done. }
      apply elem_of_app in Hin as [Hin|Hin].
      * rewrite forallb_forall in Hnocand.
        apply list_elem_of_In, Hnocand in Hin. done.
      * destruct Hsettled as [[-> _]| ->];
          [by apply elem_of_nil in Hin
          |by apply list_elem_of_singleton in Hin].
Qed.

Lemma wrapInt32_succ_ne (z : Z) : wrapInt32 (z + 1) ≠ z.
Proof.
  unfold wrapInt32. intros Heq.
  pose proof (Z.mod_pos_bound (z + 1 + 2^31) (2^32) eq_refl) as Hb.
  destruct (decide (z + 1 + 2^31 < 2^32)) as [Hlt|Hge].
  - rewrite Z.mod_small in Heq by lia. lia.
  - assert (z + 1 + 2^31 = 2^32) as Hz by lia.
    rewrite Hz in Heq. rewrite Z.mod_same in Heq by lia. lia.
Qed.

(** X13.  The version check keeps stale failure timers quiet.  Once the
    offer algorithm has produced a new offer, the timer armed for the
    version before it does nothing when it fires, although a negotiation is
    under way; the timer armed for the new version reports the failure if
    it fires while the callback is registered.  Once [SetRemoteDescription]
    has had a description accepted by the connection without a new offer
    following, a failure timer of any version does nothing when it fires. *)
Theorem stale_failure_timer_is_quiet (options : option webrtc.OfferOptions)
    (sd : webrtc.SessionDescription) (t : PCTransport PC) :
  (producedOffer (trace (createAndSendOffer options t)) = true →
   trace (signalStateCheckTimerFired (negotiateCounter t)
            (next (createAndSendOffer options t))) = []
   ∧ (onNegotiationFailed t = true →
      ∃ n, signalStateCheckTimer (next (createAndSendOffer options t)) = Some n
           ∧ trace (signalStateCheckTimerFired n
                      (next (createAndSendOffer options t)))
             = [CallOnNegotiationFailed]))
  ∧ (PcSetRemoteDescription sd None ∈ trace (SetRemoteDescription sd t) →
     producedOffer (trace (SetRemoteDescription sd t)) = false →
     signalStateCheckTimer (next (SetRemoteDescription sd t)) = None
     ∧ ∀ n, trace (signalStateCheckTimerFired n
                     (next (SetRemoteDescription sd t))) = []).
Proof.
  split.
  - intros Hp.
    destruct (createAndSendOffer_record options t)
      as (_ & _ & _ & _ & Hfail & _ & _ & [(Hno & _)|(_ & _ & Hc & Ht & _ & _ & Hs & _)]);
      cbn zeta in *; [congruence|].
    unfold signalStateCheckTimerFired. rewrite Hc, Hs, Hfail.
    split.
    + assert ((wrapInt32 (negotiateCounter t + 1) =? negotiateCounter t) = false)
        as -> by (apply Z.eqb_neq, wrapInt32_succ_ne).
      done.
    + intros ->. exists (wrapInt32 (negotiateCounter t + 1)).
      rewrite Ht, Hc. split; [done|]. by rewrite Z.eqb_refl.
  - assert (Hquiet : ∀ u : PCTransport PC,
              negotiationState u = negotiationStateNone →
              ∀ n, trace (signalStateCheckTimerFired n u) = []).
    { intros u Hu n. unfold signalStateCheckTimerFired.
      rewrite (bool_decide_eq_true_2 _ Hu), andb_false_r. done. }
    destruct (SetRemoteDescription_outcome sd t)
      as [e0| |pc1 e0|cred restart pc1 pc2 applied rest c0 e0 Hq
         |cred restart pc1 pc2 again settledEvent Hagain Hsettled ret Hret];
      cbn [next trace err].
    + intros Hin; by apply elem_of_nil in Hin.
    + intros Hin; by apply elem_of_nil in Hin.
    + intros Hin%list_elem_of_singleton. done.
    + intros _ _.
      destruct (afterAccepted_fields cred restart pc1 t) as (_ & Hs & Ht & _).
      cbn zeta in *.
      split; [by destruct (afterAccepted cred restart pc1 t)|].
      apply Hquiet. by destruct (afterAccepted cred restart pc1 t).
    + intros _ Hp.
      destruct (settled_fields cred restart pc1 pc2 t) as (_ & Hs & Ht & _).
      cbn zeta in *.
      assert (producedOffer (trace again) = false) as Hp'.
      { revert Hp. unfold producedOffer. cbn.
        rewrite !existsb_app. by destruct (existsb isOfferSetLocally (trace again));
          [rewrite orb_true_r|]. }
      assert (negotiationState (next again) = negotiationStateNone
              ∧ signalStateCheckTimer (next again) = None) as [Hs' Ht'].
      { subst again. case_match; [|done].
        destruct (createAndSendOffer_from_idle None _ Hs)
          as (_ & [(_ & Hidle & _)|(Hyes & _)]); cbn zeta in *;
          [|congruence].
        split; [done|].
        destruct (createAndSendOffer_record None
                    (settled cred restart pc1 pc2 t))
          as (_ & _ & _ & _ & _ & _ & _ & [(_ & _ & _ & -> & _)|(Hyes & _)]);
          cbn zeta in *; [done|congruence]. }
      split; [done|]. by apply Hquiet.
Qed.

Lemma offersProduced_app (evs evs' : list Event) :
  offersProduced (evs ++ evs') = (offersProduced evs + offersProduced evs')%nat.
Proof. unfold offersProduced. by rewrite List.filter_app, length_app. Qed.

Lemma offersProduced_candidates (cs : list webrtc.ICECandidateInit) :
  offersProduced (map (fun c => PcAddICECandidate c None) cs) = 0%nat.
Proof. unfold offersProduced. by rewrite filter_candidate_events. Qed.

Lemma createAndSendOffer_epochStep options t :
  epochStep t (createAndSendOffer options t).
Proof.
  destruct (createAndSendOffer_record options t)
    as (_ & _ & _ & _ & _ & _ & _ & [(_ & Hn & Hc & Ht & _)|(_ & Hn & Hc & Ht & _)]);
    cbn zeta in *; [left|right]; auto.
Qed.

Lemma SetRemoteDescription_epochStep sd t :
  epochStep t (SetRemoteDescription sd t).
Proof.
  destruct (SetRemoteDescription_outcome sd t)
    as [e0| |pc1 e0|cred restart pc1 pc2 applied rest c0 e0 Hq
       |cred restart pc1 pc2 again settledEvent Hagain Hsettled ret Hret].
  - left. cbn. auto.
  - left. cbn. split; [done|]. split; by destruct t; auto.
  - left. cbn. split; [done|]. split; by destruct t; auto.
  - left. cbn [next trace].
    destruct (afterAccepted_fields cred restart pc1 t)
      as (_ & _ & Ht & _ & _ & Hc & _). cbn zeta in *.
    split.
    { change (PcSetRemoteDescription sd None
              :: map (fun c => PcAddICECandidate c None) applied
              ++ [PcAddICECandidate c0 (Some e0)])
        with ([PcSetRemoteDescription sd None]
              ++ map (fun c => PcAddICECandidate c None) applied
              ++ [PcAddICECandidate c0 (Some e0)]).
      by rewrite !offersProduced_app, offersProduced_candidates. }
    split; [by destruct (afterAccepted cred restart pc1 t)|].
    right. by destruct (afterAccepted cred restart pc1 t).
  - destruct (settled_fields cred restart pc1 pc2 t)
      as (_ & _ & Ht & _ & _ & Hc & _). cbn zeta in *.
    assert (Hstep : epochStep (settled cred restart pc1 pc2 t) again).
    { subst again. case_match; [apply createAndSendOffer_epochStep|].
      left. cbn. auto. }
    assert (offersProduced
              (PcSetRemoteDescription sd None
               :: map (fun c => PcAddICECandidate c None) (pendingCandidates t)
               ++ trace again ++ settledEvent)
            = offersProduced (trace again)) as Hn.
    { change (PcSetRemoteDescription sd None
              :: map (fun c => PcAddICECandidate c None) (pendingCandidates t)
              ++ trace again ++ settledEvent)
        with ([PcSetRemoteDescription sd None]
              ++ map (fun c => PcAddICECandidate c None) (pendingCandidates t)
              ++ trace again ++ settledEvent).
      rewrite !offersProduced_app, offersProduced_candidates.
      destruct Hsettled as [[-> _]| ->]; cbn; lia. }
    unfold epochStep in *. cbn [next trace]. rewrite Hn, <- Hc.
    destruct Hstep as [(H0 & Hc' & [Ht'|Ht'])|(H1 & Hc' & Ht')].
    + left. split; [done|]. split; [done|]. right. congruence.
    + left. split; [done|]. split; [done|]. by right.
    + right. done.
Qed.

Lemma call_epochStep (c : Call PC) t : epochStep t (call c t).
Proof.
  destruct c; cbn [call].
  - unfold Negotiate, CreateAndSendOffer. destruct force.
    + pose proof (createAndSendOffer_epochStep None
                    (set_debouncedNegotiate (Some DebouncedNoOp) t)) as Hs.
      unfold epochStep in *. cbn [next trace]. by destruct t.
    + left. cbn. split; [done|]. split; by destruct t; auto.
  - unfold debouncedNegotiateFired, CreateAndSendOffer.
    destruct (debouncedNegotiate t) as [[]|].
    + left. cbn. split; [done|]. split; by destruct t; auto.
    + pose proof (createAndSendOffer_epochStep None
                    (set_debouncedNegotiate None t)) as Hs.
      unfold epochStep in *. cbn [next trace]. by destruct t.
    + left. cbn. auto.
  - apply SetRemoteDescription_epochStep.
  - left. unfold AddICECandidate, AddICECandidate_act, AddICECandidate_read.
    destruct t; cbn. repeat (case_match; cbn); auto.
  - left. unfold AddICECandidate_act. destruct t; cbn.
    repeat (case_match; cbn); auto.
  - left. unfold signalStateCheckTimerFired. repeat (case_match; cbn); auto.
  - unfold onICEGatheringStateChange. case_match; [|left; cbn; auto].
    destruct (restartAfterGathering t).
    + pose proof (createAndSendOffer_epochStep
                    (Some {| webrtc.ICERestart := true |}) t) as Hs.
      exact Hs.
    + destruct (pendingRestartIceOffer t) as [offer|]; [|left; cbn; auto].
      pose proof (SetRemoteDescription_epochStep offer
                    (set_pendingRestartIceOffer None t)) as Hs.
      unfold epochStep in *. cbn [next trace]. by destruct t.
  - left. cbn. split; [done|]. split; by destruct t; auto.
  - left. cbn. split; [done|]. split; by destruct t; auto.
  - left. cbn. split; [done|]. split; by destruct t; auto.
  - left. cbn. split; [done|]. split; by destruct t; auto.
  - left. cbn. split; [done|]. split; by destruct t; auto.
  - left. cbn. split; [done|]. split; by destruct t; auto.
Qed.

Lemma wrapInt32_succ (z : Z) : wrapInt32 (wrapInt32 z + 1) = wrapInt32 (z + 1).
Proof.
  unfold wrapInt32.
  replace ((z + 2^31) mod 2^32 - 2^31 + 1 + 2^31)
    with ((z + 2^31) mod 2^32 + 1) by lia.
  rewrite Zplus_mod_idemp_l. f_equal. f_equal. lia.
Qed.

Lemma wrapInt32_small (z : Z) : -2^31 ≤ z < 2^31 → wrapInt32 z = z.
Proof. intros Hz. unfold wrapInt32. rewrite Z.mod_small; lia. Qed.

Lemma wrapInt32_range (z : Z) : -2^31 ≤ wrapInt32 z < 2^31.
Proof.
  unfold wrapInt32.
  pose proof (Z.mod_pos_bound (z + 2^31) (2^32) eq_refl). lia.
Qed.

Lemma run_epoch (cs : list (Call PC)) t (n : nat) :
  negotiateCounter t = wrapInt32 (Z.of_nat n) →
  (signalStateCheckTimer t = None
   ∨ signalStateCheckTimer t = Some (negotiateCounter t)) →
  negotiateCounter (run cs t).1
  = wrapInt32 (Z.of_nat (n + offersProduced (run cs t).2))
  ∧ (signalStateCheckTimer (run cs t).1 = None
     ∨ signalStateCheckTimer (run cs t).1 = Some (negotiateCounter (run cs t).1)).
Proof.
  revert t n. induction cs as [|c cs IH]; intros t n Hc Ht; cbn [run].
  - cbn. by rewrite Nat.add_0_r.
  - pose proof (call_epochStep c t) as Hstep.
    destruct (run cs (next (call c t))) as [t' evs] eqn:Hrun. cbn [fst snd].
    rewrite offersProduced_app.
    destruct Hstep as [(H0 & Hc' & Ht')|(H1 & Hc' & Ht')].
    + specialize (IH (next (call c t)) n). rewrite Hrun in IH.
      cbn [fst snd] in IH.
      rewrite H0. cbn [Nat.add]. apply IH; [congruence|].
      destruct Ht' as [->| ->]; [|by left]. by rewrite Hc'.
    + specialize (IH (next (call c t)) (S n)). rewrite Hrun in IH.
      cbn [fst snd] in IH.
      rewrite H1. replace (n + (1 + offersProduced evs))%nat
        with (S n + offersProduced evs)%nat by lia.
      apply IH; [|by right].
      rewrite Hc', Hc, wrapInt32_succ. f_equal. lia.
Qed.

(** X14.  Along any sequence of calls on a new transport the negotiation
    counter is the number of local offers produced so far, as a 32-bit
    integer, hence that number itself up to 2^31 - 1 offers; and the failure
    timer, when one is armed, is the one of the current counter value. *)
Theorem negotiateCounter_counts_offers (pc0 : PC) (cs : list (Call PC)) :
  let t := (run cs (NewPCTransport pc0)).1 in
  let offers := offersProduced (run cs (NewPCTransport pc0)).2 in
  negotiateCounter t = wrapInt32 (Z.of_nat offers)
  ∧ (Z.of_nat offers < 2^31 → negotiateCounter t = Z.of_nat offers)
  ∧ -2^31 ≤ negotiateCounter t < 2^31
  ∧ (signalStateCheckTimer t = None
     ∨ signalStateCheckTimer t = Some (negotiateCounter t)).
Proof.
  cbn zeta.
  destruct (run_epoch cs (NewPCTransport pc0) 0) as [Hc Ht];
    [done|by left|].
  cbn in Hc. split; [done|]. split.
  { intros Hsmall. rewrite Hc. apply wrapInt32_small. lia. }
  split; [rewrite Hc; apply wrapInt32_range|done].
Qed.

Lemma quiet_app (evs evs' : list Event) :
  quiet (evs ++ evs') = quiet evs && quiet evs'.
Proof. unfold quiet. apply forallb_app. Qed.

Lemma quiet_candidates (cs : list webrtc.ICECandidateInit) :
  quiet (map (fun c => PcAddICECandidate c None) cs) = true.
Proof. induction cs as [|c cs IH]; cbn; done. Qed.

Lemma createAndSendOffer_without_callback options t :
  onOffer t = false → createAndSendOffer options t = mkResult t [] None.
Proof. intros Hcb. unfold createAndSendOffer. by rewrite Hcb. Qed.

Lemma call_without_callback (c : Call PC) t :
  isCallOnOffer c = false →
  onOffer t = false ∧ negotiationState t = negotiationStateNone
  ∧ negotiateCounter t = 0 →
  (onOffer (next (call c t)) = false
   ∧ negotiationState (next (call c t)) = negotiationStateNone
   ∧ negotiateCounter (next (call c t)) = 0)
  ∧ quiet (trace (call c t)) = true.
Proof.
  intros Hc (Hcb & Hs & Hn).
  destruct c; try done; try (cbn; by destruct t); cbn [call].
  - unfold Negotiate, CreateAndSendOffer. destruct force.
    + rewrite createAndSendOffer_without_callback by (by destruct t).
      cbn. by destruct t.
    + cbn. by destruct t.
  - unfold debouncedNegotiateFired, CreateAndSendOffer.
    destruct (debouncedNegotiate t) as [[]|]; cbn.
    + by destruct t.
    + rewrite createAndSendOffer_without_callback by (by destruct t).
      cbn. by destruct t.
    + done.
  - destruct (SetRemoteDescription_outcome sd t)
      as [e0| |pc1 e0|cred restart pc1 pc2 applied rest c0 e0 Hq
         |cred restart pc1 pc2 again settledEvent Hagain Hsettled ret Hret];
      cbn [next trace].
    + done.
    + by destruct t.
    + by destruct t.
    + destruct (afterAccepted_fields cred restart pc1 t)
        as (_ & Hs' & _ & _ & _ & Hn' & _ & Hcb' & _). cbn zeta in *.
      split; [by destruct (afterAccepted cred restart pc1 t); cbn in *;
              rewrite Hs', Hn', Hcb'|].
      change (quiet ([PcSetRemoteDescription sd None]
                     ++ map (fun c => PcAddICECandidate c None) applied
                     ++ [PcAddICECandidate c0 (Some e0)]) = true).
      by rewrite !quiet_app, quiet_candidates.
    + destruct (settled_fields cred restart pc1 pc2 t)
        as (_ & Hs' & _ & _ & _ & Hn' & _ & Hcb' & _). cbn zeta in *.
      assert (again = mkResult (settled cred restart pc1 pc2 t) [] None) as ->.
      { subst again. case_match; [|done].
        apply createAndSendOffer_without_callback. congruence. }
      cbn [next trace]. split; [rewrite Hs', Hn', Hcb'; done|].
      change (quiet ([PcSetRemoteDescription sd None]
                     ++ map (fun c => PcAddICECandidate c None)
                            (pendingCandidates t)
                     ++ [] ++ settledEvent) = true).
      rewrite !quiet_app, quiet_candidates.
      by destruct Hsettled as [[-> _]| ->].
  - unfold AddICECandidate, AddICECandidate_act, AddICECandidate_read.
    destruct t; cbn in *. repeat (case_match; cbn); done.
  - unfold AddICECandidate_act. destruct t; cbn in *.
    repeat (case_match; cbn); done.
  - unfold signalStateCheckTimerFired. repeat (case_match; cbn); done.
  - unfold onICEGatheringStateChange. case_match; [|done].
    destruct (restartAfterGathering t).
    + rewrite createAndSendOffer_without_callback by done. done.
    + destruct (pendingRestartIceOffer t) as [offer|]; [|done].
      cbn [next trace].
      destruct (SetRemoteDescription_outcome offer
                  (set_pendingRestartIceOffer None t))
        as [e0| |pc1 e0|cred restart pc1 pc2 applied rest c0 e0 Hq
           |cred restart pc1 pc2 again settledEvent Hagain Hsettled ret Hret];
        cbn [next trace].
      * by destruct t.
      * by destruct t.
      * by destruct t.
      * destruct (afterAccepted_fields cred restart pc1
                    (set_pendingRestartIceOffer None t))
          as (_ & Hs' & _ & _ & _ & Hn' & _ & Hcb' & _). cbn zeta in *.
        split; [destruct (afterAccepted cred restart pc1 _); cbn in *;
                rewrite Hs', Hn', Hcb'; by destruct t|].
        change (quiet ([PcSetRemoteDescription offer None]
                       ++ map (fun c => PcAddICECandidate c None) applied
                       ++ [PcAddICECandidate c0 (Some e0)]) = true).
        by rewrite !quiet_app, quiet_candidates.
      * destruct (settled_fields cred restart pc1 pc2
                    (set_pendingRestartIceOffer None t))
          as (_ & Hs' & _ & _ & _ & Hn' & _ & Hcb' & _). cbn zeta in *.
        assert (again = mkResult (settled cred restart pc1 pc2
                                    (set_pendingRestartIceOffer None t))
                                 [] None) as ->.
        { subst again. case_match; [|done].
          apply createAndSendOffer_without_callback. rewrite Hcb'.
          by destruct t. }
        cbn [next trace].
        split; [rewrite Hs', Hn', Hcb'; by destruct t|].
        change (quiet ([PcSetRemoteDescription offer None]
                       ++ map (fun c => PcAddICECandidate c None)
                              (pendingCandidates
                                 (set_pendingRestartIceOffer None t))
                       ++ [] ++ settledEvent) = true).
        rewrite !quiet_app, quiet_candidates.
        by destruct Hsettled as [[-> _]| ->].
Qed.

(** X15.  Without a callback for offers nothing is ever negotiated: on a
    new transport, whatever calls are made short of registering that
    callback, the connection is never asked for an offer or given a local
    description, no offer is handed out, the negotiation state stays idle
    and the negotiation counter stays 0. *)
Theorem nothing_offered_without_callback (pc0 : PC) (cs : list (Call PC)) :
  forallb (fun c => negb (isCallOnOffer c)) cs = true →
  let t := (run cs (NewPCTransport pc0)).1 in
  onOffer t = false
  ∧ negotiationState t = negotiationStateNone
  ∧ negotiateCounter t = 0
  ∧ quiet (run cs (NewPCTransport pc0)).2 = true.
Proof.
  cbn zeta.
  assert (Hrun : ∀ cs t,
            forallb (fun c => negb (isCallOnOffer c)) cs = true →
            onOffer t = false ∧ negotiationState t = negotiationStateNone
            ∧ negotiateCounter t = 0 →
            (onOffer (run cs t).1 = false
             ∧ negotiationState (run cs t).1 = negotiationStateNone
             ∧ negotiateCounter (run cs t).1 = 0)
            ∧ quiet (run cs t).2 = true).
  { clear. induction cs as [|c cs IH]; intros t Hcs Ht; cbn [run].
    - done.
    - cbn in Hcs. apply andb_true_iff in Hcs as [Hc Hcs].
      apply negb_true_iff in Hc.
      destruct (call_without_callback c t Hc Ht) as [Ht' Hq].
      specialize (IH (next (call c t)) Hcs Ht').
      destruct (run cs (next (call c t))) as [t' evs]. cbn [fst snd] in *.
      split; [apply IH|]. rewrite quiet_app, Hq. apply IH. }
  intros Hcs. destruct (Hrun cs (NewPCTransport pc0) Hcs) as [(? & ? & ?) ?];
    done.
Qed.

(** X16.  On a connection that keeps its remote description when given a
    candidate, candidates delivered once a remote description exists go
    straight to the connection, one call each, in the order of arrival,
    whether or not the connection accepts them; the queue of pending
    candidates is not touched. *)
Theorem candidates_applied_in_arrival_order (t : PCTransport PC)
    (cs : list webrtc.ICECandidateInit)
    (Hkeeps : ∀ (p : PC) c,
        webrtc.RemoteDescription p ≠ None →
        webrtc.RemoteDescription (webrtc.AddICECandidate p c).1 ≠ None)
    (Hremote : webrtc.RemoteDescription (pc t) ≠ None) :
  omap candidateOf (run (map CallAddICECandidate cs) t).2 = cs
  ∧ length (run (map CallAddICECandidate cs) t).2 = length cs
  ∧ pendingCandidates (run (map CallAddICECandidate cs) t).1
    = pendingCandidates t.
Proof.
  revert t Hremote. induction cs as [|c cs IH]; intros t Hremote; [done|].
  cbn [map run call].
  assert (∃ e, AddICECandidate c t
               = mkResult (set_pc (webrtc.AddICECandidate (pc t) c).1 t)
                          [PcAddICECandidate c e] (stackErr e))
    as (e & ->).
  { unfold AddICECandidate, AddICECandidate_act, AddICECandidate_read.
    destruct (webrtc.RemoteDescription (pc t)); [|done].
    destruct (webrtc.AddICECandidate (pc t) c) as [pc1 e]. by exists e. }
  cbn [next trace].
  specialize (IH (set_pc (webrtc.AddICECandidate (pc t) c).1 t)).
  destruct (run (map CallAddICECandidate cs) _) as [t' evs].
  cbn [fst snd] in *.
  destruct IH as (Hcs & Hlen & Hq).
  { destruct t; cbn in *. by apply Hkeeps. }
  cbn. rewrite Hcs, Hlen, Hq. by destruct t.
Qed.

End TransportMore.

(* ===================================================================== *)
(** * The candidate queue and the deferred restart offer *)
(* ===================================================================== *)

Section QueueAndDeferral.
Import rtc.
Context {PC : Type} {stack : webrtc.PeerConnection PC}.

Implicit Types (t : PCTransport PC) (sd offer : webrtc.SessionDescription).

Local Arguments createAndSendOffer : simpl never.






End QueueAndDeferral.

(* ===================================================================== *)
(** * The transport on the scripted peer connection *)
(* ===================================================================== *)

Section TransportExamples.
Import rtc TestStack.

(** A first remote offer is no restart offer.  It reaches a transport that
    has offered and been answered, so that no credential is stored yet; the
    connection is gathering, and the offer is handed to the peer connection
    at once. *)
Example first_offer_while_gathering_is_applied :
  isRemoteOfferRestartICE (remoteOffer "u1") answeredWhileGathering
  = inl ("u1:pwd", false)
  ∧ currentOfferIceCredential answeredWhileGathering ≠ "u1:pwd"
  ∧ webrtc.ICEGatheringState_of (pc answeredWhileGathering)
    = webrtc.ICEGatheringStateGathering
  ∧ currentOfferIceCredential answeredWhileGathering = ""
  ∧ trace (SetRemoteDescription (remoteOffer "u1") answeredWhileGathering)
    = [PcSetRemoteDescription (remoteOffer "u1") None]
  ∧ pendingRestartIceOffer
      (next (SetRemoteDescription (remoteOffer "u1") answeredWhileGathering))
    = None
  ∧ remote (pc (next (SetRemoteDescription (remoteOffer "u1")
                        answeredWhileGathering)))
    = Some (remoteOffer "u1").
Proof. repeat split; try reflexivity. discriminate. Qed.

(** The deferred offer of the scenario is applied when gathering completes,
    once, and its credential becomes the stored one. *)
Example deferred_offer_applied_after_gathering :
  (run restartOfferThenComplete restartedWhileGathering).2
  = [PcSetRemoteDescription (remoteOffer "u2") None]
  ∧ currentOfferIceCredential
      (run restartOfferThenComplete restartedWhileGathering).1 = "u2:pwd"
  ∧ pendingRestartIceOffer
      (run restartOfferThenComplete restartedWhileGathering).1 = None.
Proof. repeat split; reflexivity. Qed.



Lemma createAndSendOffer_restart_without_local_witness :
  err (createAndSendOffer (Some {| webrtc.ICERestart := true |}) awaitingAnswerNoLocal)
  = Some ErrIceRestartWithoutLocalSDP
  ↔ optionsICERestart (Some {| webrtc.ICERestart := true |})
    || restartAtNextOffer awaitingAnswerNoLocal = true
    ∧ negotiationState awaitingAnswerNoLocal ≠ negotiationStateNone
    ∧ webrtc.CurrentRemoteDescription (pc awaitingAnswerNoLocal) = None
    ∧ webrtc.LocalDescription (pc awaitingAnswerNoLocal) = None.
Proof.
  refine (proj1 (createAndSendOffer_restart_without_local
                   (Some {| webrtc.ICERestart := true |})
                   awaitingAnswerNoLocal _ _ _));
    first [reflexivity | discriminate].
Defined.

Lemma renegotiate_after_answer_witness :
  List.filter isGoOnOffer (trace (SetRemoteDescription (answer "a1") retryQueued))
  = [GoOnOffer {| webrtc.Type_ := webrtc.SDPTypeOffer;
                  webrtc.SDP := "server-ufrag" |}]
  ∧ negotiationState (next (SetRemoteDescription (answer "a1") retryQueued))
    = negotiationStateClient.
Proof.
  pose proof (proj2 (proj2 (renegotiate_after_answer (answer "a1") retryQueued)))
    as Hfollow.
  cbn zeta in Hfollow.
  edestruct Hfollow as (Hone & Hstate & _);
    [reflexivity|reflexivity|reflexivity|reflexivity|reflexivity
    |discriminate|discriminate|reflexivity|reflexivity|].
  split; [exact Hone|exact Hstate].
Defined.


Lemma negotiation_epoch_and_failure_timer_witness :
  producedOffer (trace (createAndSendOffer None newTransport)) = true
  ∧ negotiateCounter (next (createAndSendOffer None newTransport)) = 1
  ∧ signalStateCheckTimer (next (createAndSendOffer None newTransport)) = Some 1.
Proof.
  assert (Hproduced : producedOffer (trace (createAndSendOffer None newTransport))
                      = true) by reflexivity.
  split; [exact Hproduced|].
  destruct (proj1 (negotiation_epoch_and_failure_timer None newTransport)
              Hproduced)
    as (_ & Hnext & Htimer & _).
  assert (Hrange : -2^31 ≤ negotiateCounter newTransport < 2^31 - 1)
    by (vm_compute; split; [discriminate|reflexivity]).
  split; [exact (Hnext Hrange)|].
  rewrite Htimer, (Hnext Hrange). reflexivity.
Defined.

Lemma one_outstanding_offer_witness :
  negotiationState
    (run [CallOnOffer; CallNegotiate true; CallNegotiate true]
         (NewPCTransport newPC)).1 = negotiationRetry
  ∧ trace (createAndSendOffer None
             (run [CallOnOffer; CallNegotiate true; CallNegotiate true]
                  (NewPCTransport newPC)).1) = [].
Proof.
  split; [reflexivity|].
  apply (proj2 (proj2 (one_outstanding_offer newPC
                         [CallOnOffer; CallNegotiate true; CallNegotiate true]))).
  vm_compute. discriminate.
Defined.

Lemma filterCandidates_spec_witness :
  webrtc.Unmarshal (remoteOffer "u1") = inl parsedOffer
  ∧ filterCandidates (remoteOffer "u1") newTransport
    = match webrtc.Marshal (filterParsed (preferTCP newTransport) parsedOffer) with
      | inl bytes => {| webrtc.Type_ := webrtc.Type_ (remoteOffer "u1");
                        webrtc.SDP := bytes |}
      | inr _ => remoteOffer "u1"
      end.
Proof.
  split; [reflexivity|].
  apply (proj2 (proj2 (proj2 (proj2 (filterCandidates_spec parsedOffer))))).
  reflexivity.
Defined.

(** The read of [AddICECandidate] can come before the remote description is
    set and the append after it.  The candidate then joins the queue of a
    transport whose connection has a remote description, is not handed to
    the connection, and goes with the next description accepted. *)
Example late_candidate_waits_for_next_description :
  AddICECandidate_read offered = true
  ∧ pendingCandidates (next (SetRemoteDescription (answer "a1") offered)) = []
  ∧ pendingCandidates
      (next (AddICECandidate_act (AddICECandidate_read offered)
               (candidate "c9")
               (next (SetRemoteDescription (answer "a1") offered))))
    = [candidate "c9"]
  ∧ candidates
      (pc (next (AddICECandidate_act (AddICECandidate_read offered)
                   (candidate "c9")
                   (next (SetRemoteDescription (answer "a1") offered)))))
    = []
  ∧ trace (SetRemoteDescription (remoteOffer "u1")
             (next (AddICECandidate_act (AddICECandidate_read offered)
                      (candidate "c9")
                      (next (SetRemoteDescription (answer "a1") offered)))))
    = [PcSetRemoteDescription (remoteOffer "u1") None;
       PcAddICECandidate (candidate "c9") None].
Proof. repeat apply conj; vm_compute; reflexivity. Qed.

End TransportExamples.

(* ===================================================================== *)
(** * Further examples on the scripted peer connection *)
(* ===================================================================== *)

Section MoreTransportExamples.
Import rtc TestStack SDPExamples.

Lemma replaceFingerprints_extractFingerprint_witness :
  extractFingerprint fingerprint_sdp = inl ("AB:CD", "sha-256")
  ∧ extractFingerprint other_fingerprint_sdp = inl ("11:22", "sha-256")
  ∧ extractFingerprint (replaceFingerprints other_fingerprint_sdp "AB:CD" "sha-256")
    = inl ("AB:CD", "sha-256").
Proof.
  split; [reflexivity|]. split; [reflexivity|].
  apply (proj1 (replaceFingerprints_extractFingerprint fingerprint_sdp
                  other_fingerprint_sdp "AB:CD" "sha-256" eq_refl)).
  discriminate.
Defined.

Lemma ice_restart_marks_one_shot_witness :
  restartAtNextOffer restartRequested = true
  ∧ restartAtNextOffer (next (createAndSendOffer None restartRequested)) = false
  ∧ previousAnswer (next (createAndSendOffer None restartRequested)) = None.
Proof.
  split; [reflexivity|].
  assert (Hin : PcCreateOffer (Some {| webrtc.ICERestart := true |})
                  (inl serverOffer)
                ∈ trace (createAndSendOffer None restartRequested)).
  { apply list_elem_of_In. vm_compute. left. reflexivity. }
  destruct (ice_restart_marks_one_shot None restartRequested _ _ Hin)
    as (Hprev & Hrestart & _).
  split; [exact Hrestart|exact Hprev].
Defined.

Lemma ice_restart_recovers_with_current_remote_witness :
  ∃ passed res rest,
    trace (createAndSendOffer (Some {| webrtc.ICERestart := true |})
             renegotiatingAfterGathering)
    = PcSetRemoteDescription (remoteOffer "u1") None
      :: PcCreateOffer passed res :: rest
    ∧ optionsICERestart passed = true.
Proof.
  refine (proj2 (ice_restart_recovers_with_current_remote
                   (Some {| webrtc.ICERestart := true |})
                   renegotiatingAfterGathering (remoteOffer "u1")
                   _ _ _ _ _ _) _);
    first [reflexivity | discriminate].
Defined.

Lemma nothing_offered_without_callback_witness :
  let cs := [CallNegotiate true; CallAddICECandidate (candidate "c1");
             CallSetRemoteDescription (answer "a1");
             CallICEGatheringStateChange webrtc.ICEGatheringStateComplete] in
  negotiateCounter (run cs (NewPCTransport newPC)).1 = 0
  ∧ quiet (run cs (NewPCTransport newPC)).2 = true.
Proof.
  cbn zeta.
  destruct (nothing_offered_without_callback newPC
              [CallNegotiate true; CallAddICECandidate (candidate "c1");
               CallSetRemoteDescription (answer "a1");
               CallICEGatheringStateChange webrtc.ICEGatheringStateComplete]
              eq_refl) as (_ & _ & Hcounter & Hquiet).
  split; [exact Hcounter|exact Hquiet].
Defined.

Lemma candidates_applied_in_arrival_order_witness :
  let cs := [candidate "c1"; candidate ""; candidate "c2"] in
  omap candidateOf (run (map CallAddICECandidate cs) restartedWhileGathering).2
  = cs
  ∧ pendingCandidates
      (run (map CallAddICECandidate cs) restartedWhileGathering).1
    = pendingCandidates restartedWhileGathering.
Proof.
  cbn zeta.
  assert (Hkeeps : ∀ (p : TestPC) c,
             webrtc.RemoteDescription p ≠ None →
             webrtc.RemoteDescription (webrtc.AddICECandidate p c).1 ≠ None).
  { intros p c Hp. cbn. unfold addCandidate.
    destruct (String.eqb (webrtc.Candidate c) ""); exact Hp. }
  assert (Hremote : webrtc.RemoteDescription (pc restartedWhileGathering) ≠ None)
    by discriminate.
  destruct (candidates_applied_in_arrival_order restartedWhileGathering
              [candidate "c1"; candidate ""; candidate "c2"] Hkeeps Hremote)
    as (Horder & _ & Hqueue).
  split; [exact Horder|exact Hqueue].
Defined.

Lemma extractICECredential_spec_witness :
  extractICECredential parsedOffer = inl ("u1", "pwd").
Proof.
  apply (proj2 (proj2 (extractICECredential_spec parsedOffer))
           "u1" [] "pwd" [] eq_refl eq_refl).
  - intros u Hu. by apply elem_of_nil in Hu.
  - intros p Hp. by apply elem_of_nil in Hp.
Defined.

Lemma extractDTLSRole_spec_witness :
  extractDTLSRole other_fingerprint_sdp = webrtc.DTLSRoleServer.
Proof.
  apply (proj1 (proj2 (extractDTLSRole_spec other_fingerprint_sdp))).
  eexists [], _, []. split; [reflexivity|]. split; [reflexivity|].
  intros m Hm. by apply elem_of_nil in Hm.
Defined.

Lemma getMidValue_spec_witness :
  ∃ before attr after,
    sdp.MediaAttributes two_mids = before ++ attr :: after
    ∧ sdp.Key attr = "mid"
    ∧ sdp.Value attr = getMidValue two_mids
    ∧ ∀ a, a ∈ before → sdp.Key a ≠ "mid".
Proof.
  apply (proj1 (proj2 (getMidValue_spec two_mids))). discriminate.
Defined.

Lemma negotiationPending_until_offer_witness :
  IsNegotiationPending "PA_alice"
    (AddNegotiationPending "PA_alice" newTransport) = true
  ∧ ∀ id, IsNegotiationPending id
            (next (createAndSendOffer None
                     (AddNegotiationPending "PA_alice" newTransport))) = false.
Proof.
  split; [reflexivity|].
  apply (proj1 (proj2 (proj2 (proj2
           (negotiationPending_until_offer "PA_alice" None
              (AddNegotiationPending "PA_alice" newTransport)))))).
  reflexivity.
Defined.

Lemma ice_restart_waits_for_gathering_witness :
  createAndSendOffer (Some {| webrtc.ICERestart := true |})
    answeredWhileGathering
  = mkResult (set_restartAfterGathering true answeredWhileGathering) [] None.
Proof.
  apply (proj1 (ice_restart_waits_for_gathering
                  (Some {| webrtc.ICERestart := true |})
                  answeredWhileGathering));
    first [reflexivity | discriminate].
Defined.

Lemma offers_are_local_descriptions_witness :
  (∃ before,
      trace (createAndSendOffer None newTransport)
      = before ++ [PcSetLocalDescription serverOffer None; GoOnOffer serverOffer]
      ∧ List.filter isGoOnOffer before = [])
  ∨ (webrtc.LocalDescription (pc newTransport) = Some serverOffer
     ∧ trace (createAndSendOffer None newTransport) = [GoOnOffer serverOffer]
     ∧ negotiateCounter (next (createAndSendOffer None newTransport))
       = negotiateCounter newTransport).
Proof.
  apply (proj1 (offers_are_local_descriptions None newTransport serverOffer)).
  apply list_elem_of_In. vm_compute. right. right. left. reflexivity.
Defined.

Lemma SetRemoteDescription_credential_witness :
  currentOfferIceCredential answeredWhileGathering = ""
  ∧ currentOfferIceCredential
      (next (SetRemoteDescription (remoteOffer "u1") answeredWhileGathering))
    = "u1:pwd".
Proof.
  split; [reflexivity|].
  assert (Hparsed : webrtc.Unmarshal (remoteOffer "u1") = inl parsedOffer)
    by reflexivity.
  assert (Hcred : extractICECredential parsedOffer = inl ("u1", "pwd"))
    by reflexivity.
  apply (proj1 (proj2 (proj2 (proj2
           (SetRemoteDescription_credential (remoteOffer "u1")
              answeredWhileGathering) eq_refl))
           parsedOffer "u1" "pwd" Hparsed Hcred)).
  apply list_elem_of_In. vm_compute. left. reflexivity.
Defined.

Lemma SetRemoteDescription_failures_witness :
  err (SetRemoteDescription (answer "a1") refusedCandidateQueued)
  = Some (StackError (webrtc.ErrOther "empty candidate"))
  ∧ pendingCandidates
      (next (SetRemoteDescription (answer "a1") refusedCandidateQueued))
    = [candidate "c1"; candidate ""; candidate "c2"]
  ∧ negotiationState
      (next (SetRemoteDescription (answer "a1") refusedCandidateQueued))
    = negotiationStateNone.
Proof.
  destruct (proj2 (SetRemoteDescription_failures (answer "a1")
                     refusedCandidateQueued)
              (candidate "") (webrtc.ErrOther "empty candidate"))
    as (Herr & Hqueue & Hstate & _).
  { apply list_elem_of_In. vm_compute. right. right. left. reflexivity. }
  split; [exact Herr|]. split; [exact Hqueue|exact Hstate].
Defined.

Lemma stale_failure_timer_is_quiet_witness :
  trace (signalStateCheckTimerFired (negotiateCounter newTransport)
           (next (createAndSendOffer None newTransport))) = []
  ∧ ∃ n, signalStateCheckTimer (next (createAndSendOffer None newTransport))
         = Some n
         ∧ trace (signalStateCheckTimerFired n
                    (next (createAndSendOffer None newTransport)))
           = [CallOnNegotiationFailed].
Proof.
  assert (Hproduced : producedOffer (trace (createAndSendOffer None newTransport))
                      = true) by reflexivity.
  destruct (proj1 (stale_failure_timer_is_quiet None (answer "a1") newTransport)
              Hproduced) as (Hstale & Hcurrent).
  split; [exact Hstale|]. apply Hcurrent. reflexivity.
Defined.

Lemma negotiateCounter_counts_offers_witness :
  let cs := [CallOnOffer; CallNegotiate true;
             CallSetRemoteDescription (answer "a1"); CallNegotiate true] in
  offersProduced (run cs (NewPCTransport newPC)).2 = 2%nat
  ∧ negotiateCounter (run cs (NewPCTransport newPC)).1
    = Z.of_nat (offersProduced (run cs (NewPCTransport newPC)).2).
Proof.
  cbn zeta. split; [reflexivity|].
  apply (proj1 (proj2 (negotiateCounter_counts_offers newPC
           [CallOnOffer; CallNegotiate true;
            CallSetRemoteDescription (answer "a1"); CallNegotiate true]))).
  reflexivity.
Defined.

Lemma filterCandidates_only_removes_witness :
  filterCandidates (remoteOffer "") newTransport = remoteOffer "".
Proof.
  apply (proj1 (proj2 (filterCandidates_only_removes (remoteOffer "")
                         newTransport parsedOffer true))).
  eexists. reflexivity.
Defined.

End MoreTransportExamples.

Section DynacastExamples.
Import Dynacast.

Lemma recompute_settles_witness :
  (updateQualityChange (Start one_medium_subscriber)).2
  = Some VideoQuality_MEDIUM.
Proof.
  apply (proj1 (proj2 (proj2 (recompute_settles one_medium_subscriber)))).
  reflexivity.
Defined.

End DynacastExamples.
